(** * Nebius object-store backend ([skyplane/obj_store/nbs3_interface.py])

    A shallow embedding of [NBS3Interface] and of the pieces of the Python
    runtime and of the S3 wire protocol it relies on, followed by the
    properties of the transfer, deletion, metadata and multipart paths.

    Layout: runtime helpers ([hashlib], [base64]), exceptions and the
    state-and-exception monad the methods run in, the wire protocol, the
    methods of the class in source order, a reference S3 service, and then
    the theorems. *)

From Stdlib Require Import ZArith List Ascii Strings.Byte Lia Sorted Permutation.
From Equations Require Import Equations.
From stdpp Require Import base option strings pretty list fin_maps gmap.
Import ListNotations.

Local Open Scope nat_scope.

(** ** Runtime helpers *)

(** [hashlib.md5]: RFC 1321 on byte lists. *)
Module hashlib.
Local Open Scope Z_scope.

Definition word (x : Z) : Z := x mod 2 ^ 32.

Definition rotl (x c : Z) : Z :=
  Z.lor (word (Z.shiftl x c)) (Z.shiftr x (32 - c)).

Definition shifts : list Z :=
  [7; 12; 17; 22; 7; 12; 17; 22; 7; 12; 17; 22; 7; 12; 17; 22;
   5; 9; 14; 20; 5; 9; 14; 20; 5; 9; 14; 20; 5; 9; 14; 20;
   4; 11; 16; 23; 4; 11; 16; 23; 4; 11; 16; 23; 4; 11; 16; 23;
   6; 10; 15; 21; 6; 10; 15; 21; 6; 10; 15; 21; 6; 10; 15; 21].

Definition sines : list Z :=
  [3614090360; 3905402710; 606105819; 3250441966;
   4118548399; 1200080426; 2821735955; 4249261313;
   1770035416; 2336552879; 4294925233; 2304563134;
   1804603682; 4254626195; 2792965006; 1236535329;
   4129170786; 3225465664; 643717713; 3921069994;
   3593408605; 38016083; 3634488961; 3889429448;
   568446438; 3275163606; 4107603335; 1163531501;
   2850285829; 4243563512; 1735328473; 2368359562;
   4294588738; 2272392833; 1839030562; 4259657740;
   2763975236; 1272893353; 4139469664; 3200236656;
   681279174; 3936430074; 3572445317; 76029189;
   3654602809; 3873151461; 530742520; 3299628645;
   4096336452; 1126891415; 2878612391; 4237533241;
   1700485571; 2399980690; 4293915773; 2240044497;
   1873313359; 4264355552; 2734768916; 1309151649;
   4149444226; 3174756917; 718787259; 3951481745].

Definition byte_val (b : byte) : Z := Z.of_N (Byte.to_N b).

Definition val_byte (z : Z) : byte :=
  match Byte.of_N (Z.to_N (z mod 256)) with Some b => b | None => x00 end.

(** little-endian bytes of the low [8 * n] bits of [z] *)
Fixpoint le_bytes (n : nat) (z : Z) : list byte :=
  match n with
  | O => []
  | S n' => val_byte z :: le_bytes n' (Z.shiftr z 8)
  end.

Fixpoint le_word (bs : list byte) : Z :=
  match bs with
  | [] => 0
  | b :: bs' => byte_val b + 256 * le_word bs'
  end.

Definition padding (len : nat) : list byte :=
  let r := ((len + 1) mod 64)%nat in
  let zeros := (if (r <=? 56)%nat then 56 - r else 120 - r)%nat in
  x80 :: repeat x00 zeros ++ le_bytes 8 (8 * Z.of_nat len).

Fixpoint words (n : nat) (bs : list byte) : list Z :=
  match n with
  | O => []
  | S n' => le_word (take 4 bs) :: words n' (drop 4 bs)
  end.

Record regs := Regs { ra : Z; rb : Z; rc : Z; rd : Z }.

Definition round (m : list Z) (r : regs) (i : nat) : regs :=
  let '(Regs a b c d) := r in
  let iz := Z.of_nat i in
  let '(f, g) :=
    if (i <? 16)%nat then
      (Z.lor (Z.land b c) (Z.land (Z.lxor b (2 ^ 32 - 1)) d), iz)
    else if (i <? 32)%nat then
      (Z.lor (Z.land d b) (Z.land (Z.lxor d (2 ^ 32 - 1)) c), (5 * iz + 1) mod 16)
    else if (i <? 48)%nat then
      (Z.lxor (Z.lxor b c) d, (3 * iz + 5) mod 16)
    else
      (Z.lxor c (Z.lor b (Z.lxor d (2 ^ 32 - 1))), (7 * iz) mod 16) in
  let f' := word (f + a + nth i sines 0 + nth (Z.to_nat g) m 0) in
  Regs d (word (b + rotl f' (nth i shifts 0))) b c.

Definition compress (r : regs) (block : list byte) : regs :=
  let '(Regs a b c d) := fold_left (round (words 16 block)) (seq 0 64) r in
  Regs (word (ra r + a)) (word (rb r + b)) (word (rc r + c)) (word (rd r + d)).

Fixpoint blocks (n : nat) (bs : list byte) : list (list byte) :=
  match n with
  | O => []
  | S n' => take 64 bs :: blocks n' (drop 64 bs)
  end.

Definition md5_digest (msg : list byte) : list byte :=
  let padded := msg ++ padding (length msg) in
  let '(Regs a b c d) :=
    fold_left compress (blocks (length padded / 64) padded)
              (Regs 1732584193 4023233417 2562383102 271733878) in
  le_bytes 4 a ++ le_bytes 4 b ++ le_bytes 4 c ++ le_bytes 4 d.

(** The hash object [m = hashlib.md5()]: [m.update(b)] feeds [b], and
    [m.digest()] is the digest of everything fed so far. *)
Definition md5 : Type := list byte.
Definition new : md5 := [].
Definition update (m : md5) (b : list byte) : md5 := m ++ b.
Definition digest (m : md5) : list byte := md5_digest m.

End hashlib.

(** [base64.b64encode(b).decode("utf-8")]: RFC 4648, standard alphabet. *)
Module base64.
Local Open Scope Z_scope.

Definition alphabet : list ascii :=
  String.list_ascii_of_string
    "ABCDEFGHIJKLMNOPQRSTUVWXYZabcdefghijklmnopqrstuvwxyz0123456789+/".

Definition sextet (z : Z) : ascii :=
  nth (Z.to_nat (z mod 64)) alphabet "="%char.

Fixpoint b64chars (bs : list byte) : list ascii :=
  match bs with
  | [] => []
  | [a] =>
      let n := hashlib.byte_val a * 65536 in
      [sextet (n / 262144); sextet (n / 4096); "="%char; "="%char]
  | [a; b] =>
      let n := hashlib.byte_val a * 65536 + hashlib.byte_val b * 256 in
      [sextet (n / 262144); sextet (n / 4096); sextet (n / 64); "="%char]
  | a :: b :: c :: rest =>
      let n := hashlib.byte_val a * 65536 + hashlib.byte_val b * 256
               + hashlib.byte_val c in
      sextet (n / 262144) :: sextet (n / 4096) :: sextet (n / 64)
        :: sextet n :: b64chars rest
  end.

Definition b64encode (bs : list byte) : string :=
  String.string_of_list_ascii (b64chars bs).

End base64.

(** Python truthiness of the optional arguments the methods test with
    [if x] / [x and ...]: [None], [0], the empty string and the empty byte
    string are all false. *)
Definition truthy_int (x : option nat) : bool :=
  match x with Some (S _) => true | _ => false end.

Definition truthy_str (x : option string) : bool :=
  match x with Some (String _ _) => true | _ => false end.

Definition truthy_bytes (x : option (list byte)) : bool :=
  match x with Some (_ :: _) => true | _ => false end.

(** [":" in s] *)
Fixpoint has_colon (s : string) : bool :=
  match s with
  | EmptyString => false
  | String c s' => if Ascii.eqb c ":" then true else has_colon s'
  end.

(** [s.split(":")] *)
Fixpoint split_colon (s : string) : list string :=
  match s with
  | EmptyString => [EmptyString]
  | String c s' =>
      if Ascii.eqb c ":" then EmptyString :: split_colon s'
      else match split_colon s' with
           | h :: t => String c h :: t
           | [] => [String c EmptyString]
           end
  end.

(** [region_tag.split(":")[-1] if ":" in region_tag else region_tag] *)
Definition region_of_tag (region_tag : string) : string :=
  if has_colon region_tag then List.last (split_colon region_tag) EmptyString
  else region_tag.

(** ** Exceptions and outcomes *)

(** The exception classes that occur in the module. All of them derive
    from [Exception], so a bare [except:] and [except Exception] catch the
    same ones here. [ClientError] carries [e.response["Error"]["Code"]]
    when the response has one; [BotoCoreError] stands for every other
    failure of the transport (connection, timeout, parameter validation). *)
Inductive exn : Type :=
| AssertionError
| ValueError
| TypeError
| KeyError
| FileNotFoundError
| ClientError (Code : option string)
| BotoCoreError
| NoSuchObjectException
| ChecksumMismatchException
| SkyplaneException
| Exception.

Definition is_ClientError (e : exn) : bool :=
  match e with ClientError _ => true | _ => false end.

(** What a call does: return, raise, or still be inside a [while True]
    when the iteration budget of the model is spent. *)
Inductive outcome (A : Type) : Type :=
| Ok (a : A)
| Raise (e : exn)
| OutOfFuel.
Arguments Ok {A} a.
Arguments Raise {A} e.
Arguments OutOfFuel {A}.

(** ** Wire protocol

    The requests the module sends through the boto3 client, with the
    keyword arguments it passes, and the fields of the responses it reads. *)

Record datetime := Datetime { timestamp : Z; tzinfo : option string }.

Record Metadata := {
  ContentLength : nat;
  LastModified : datetime;
  ContentType : string }.

Record Part := { PartNumber : nat; ETag : string }.

(** One entry of [page["Contents"]]. *)
Record Content := {
  Key : string;
  Size : nat;
  CLastModified : datetime;
  CContentType : option string }.

Inductive request : Type :=
| ListBuckets
| CreateBucket (Bucket : string)
| DeleteBucket (Bucket : string)
| ListObjectsV2 (Bucket Prefix : string) (RequestPayer : bool)
| DeleteObjects (Bucket : string) (Objects : list string)
| HeadObject (Bucket Key : string)
| GetObject (Bucket Key : string) (Range : option (Z * Z)) (RequestPayer : bool)
| PutObject (Bucket Key : string) (Body : list byte)
            (ContentMD5 ContentType : option string)
| UploadFile (Bucket Key : string) (Body : list byte)
| UploadPart (Bucket Key : string) (PartNumber : option nat) (UploadId : string)
             (Body : list byte) (ContentMD5 : option string)
| CreateMultipartUpload (Bucket Key : string) (ContentType : option string)
| ListParts (Bucket Key : string) (MaxParts : nat) (UploadId : string)
            (PartNumberMarker : nat)
| CompleteMultipartUpload (UploadId Bucket Key : string) (Parts : list (nat * string)).

(** A response is a dictionary; a field the code looks up with [in] or
    [.get] may be missing, which is the [None] of the optional fields. *)
Inductive response : Type :=
| ListBucketsOutput (Buckets : option (list string))
| ListObjectsV2Output (Contents : list Content)
| HeadObjectOutput (md : Metadata)
| GetObjectOutput (Body : list byte) (ContentType : string)
| CreateMultipartUploadOutput (UploadId : option string)
| ListPartsOutput (Parts : option (list Part))
| CompleteMultipartUploadOutput (ETag : option string)
| EmptyOutput.

Inductive reply : Type :=
| Answer (r : response)
| Fault (e : exn).

(** The service behind the client: any state and any way of answering. *)
Class Backend := {
  srv : Type;
  serve : request → srv → reply * srv }.

(** ** The instance and the world it runs in *)

(** [ObjectStoreObject] (object_store_interface.py). *)
Record ObjectStoreObject := {
  key : string;
  provider_ : option string;
  bucket_ : option string;
  size : option nat;
  last_modified : option datetime;
  mime_type : option string }.

(** [ObjectStoreObject.__init__]: a naive timestamp is made aware. *)
Definition utc_aware (d : datetime) : datetime :=
  match tzinfo d with
  | None => Datetime (timestamp d) (Some "UTC")
  | Some _ => d
  end.

Definition mkObjectStoreObject (k prov b : string) (sz : nat) (lm : datetime)
    (mt : option string) : ObjectStoreObject :=
  {| key := k; provider_ := Some prov; bucket_ := Some b; size := Some sz;
     last_modified := Some (utc_aware lm); mime_type := mt |}.

(** [ObjectStoreObject.exists] *)
Definition object_exists (o : ObjectStoreObject) : bool :=
  match size o, last_modified o with
  | Some _, Some _ => true
  | _, _ => false
  end.

(** A boto3 client is determined by the region and endpoint it was built for. *)
Record Client := { client_region : string; endpoint_url : string }.

(** The key of an entry of the [lru_cache] wrapped around
    [get_obj_metadata]: the arguments of the call, [(self, obj_name)]. The
    class defines neither [__eq__] nor [__hash__], so [self] counts by its
    identity. *)
Definition cache_key : Type := nat * string.

(** The attributes of an [NBS3Interface]. [bucket_name], [requester_pays]
    and the starting value of [_region] come from [S3Interface.__init__];
    [identity] is [id(self)], which tells the object from every other one.
    [metadata_cache] is the store of the [lru_cache] wrapped around
    [get_obj_metadata]: the responses it has returned, by [(self,
    obj_name)], most recently used first. The decorator is applied to the
    function in the class body, so there is one store for the class, and
    every [NBS3Interface] of the process reads and fills that one: the
    field is the store as the object finds it, with the entries of the
    other objects in it. *)
Record NBS3Interface := {
  bucket_name : string;
  requester_pays : bool;
  _region : option string;
  _cached_s3_clients : gmap string Client;
  metadata_cache : list (cache_key * response);
  identity : nat }.

Record World (S : Type) := {
  self : NBS3Interface;
  cloud : S;
  disk : gmap string (list byte);
  wire : list (request * reply) }.
Arguments self {S} _.
Arguments cloud {S} _.
Arguments disk {S} _.
Arguments wire {S} _.

Definition NEBIUS_REGIONS : list (string * string) :=
  [("eu-north1", "https://storage.eu-north1.nebius.cloud")].

Fixpoint assoc {V : Type} (k : string) (l : list (string * V)) : option V :=
  match l with
  | [] => None
  | (k', v) :: l' => if String.eqb k k' then Some v else assoc k l'
  end.

(** The region [aws_region] answers with. *)
Definition current_region (s : NBS3Interface) : string :=
  match _region s with
  | Some (String a r) => String a r
  | _ => "eu-north1"
  end.

(** The instance is bound to a region of [NEBIUS_REGIONS], or to none yet:
    [_s3_client()] then finds an endpoint. *)
Definition region_valid (s : NBS3Interface) : bool :=
  bool_decide (is_Some (assoc (current_region s) NEBIUS_REGIONS)).

(** ** [functools.lru_cache(maxsize=1024)] *)

Definition maxsize : nat := 1024.

(** [k == k'] on keys *)
Definition same_key (k k' : cache_key) : bool :=
  (k.1 =? k'.1) && String.eqb k.2 k'.2.

(** The stored result of a key. *)
Fixpoint cached {V : Type} (k : cache_key) (c : list (cache_key * V)) : option V :=
  match c with
  | [] => None
  | (k', v) :: c' => if same_key k k' then Some v else cached k c'
  end.

Fixpoint lru_remove {V : Type} (k : cache_key) (c : list (cache_key * V))
    : list (cache_key * V) :=
  match c with
  | [] => []
  | (k', v) :: c' => if same_key k k' then c' else (k', v) :: lru_remove k c'
  end.

(** A hit moves the entry to the front. *)
Definition lru_touch {V : Type} (k : cache_key) (v : V) (c : list (cache_key * V)) :=
  (k, v) :: lru_remove k c.

(** A miss stores the new entry and drops the least recently used one
    when the cache is full. *)
Definition lru_store {V : Type} (k : cache_key) (v : V) (c : list (cache_key * V)) :=
  take maxsize ((k, v) :: c).

(** ** [sorted(l, key=...)]: stable, ascending *)

Fixpoint insert_by {A : Type} (key : A → nat) (x : A) (l : list A) : list A :=
  match l with
  | [] => [x]
  | y :: l' => if key x <=? key y then x :: y :: l' else y :: insert_by key x l'
  end.

Definition sorted {A : Type} (key : A → nat) (l : list A) : list A :=
  foldr (insert_by key) [] l.

(** ** [s.strip()] *)

Definition is_space (c : ascii) : bool :=
  let n := nat_of_ascii c in
  ((9 <=? n) && (n <=? 13)) || ((28 <=? n) && (n <=? 32)).

Fixpoint lstrip (s : string) : string :=
  match s with
  | String c s' => if is_space c then lstrip s' else s
  | EmptyString => EmptyString
  end.

Definition strip (s : string) : string :=
  String.rev (lstrip (String.rev (lstrip s))).

(** Modelled from the spec: [batch_generator] (skyplane/utils/generator.py)
    is not among the sources. It cuts what its argument yields into
    consecutive batches of [batch_size] items, the last one holding the
    remainder ("chunks of at most 1000"). *)
Fixpoint batch_generator_from {A : Type} (batch_size : nat) (batch gen_in : list A)
    : list (list A) :=
  match gen_in with
  | [] => match batch with [] => [] | _ => [batch] end
  | item :: rest =>
      let batch' := batch ++ [item] in
      if length batch' =? batch_size then batch' :: batch_generator_from batch_size [] rest
      else batch_generator_from batch_size batch' rest
  end.

Definition batch_generator {A : Type} (gen_in : list A) (batch_size : nat) : list (list A) :=
  batch_generator_from batch_size [] gen_in.

(** ** Files *)

(** [f.write(b)] at position [pos] of a file holding [content]: a gap
    after the end of the file reads as zero bytes. *)
Definition write_at (content : list byte) (pos : nat) (b : list byte) : list byte :=
  take pos content ++ repeat x00 (pos - length content) ++ b
    ++ drop (pos + length b) content.

Record handle := { content : list byte; pos : nat; digest_state : option hashlib.md5 }.

(** One turn of the copy loop of [download_object]. *)
Definition write_block (b : list byte) (h : handle) : handle :=
  {| content := write_at (content h) (pos h) b;
     pos := pos h + length b;
     digest_state := (λ m, hashlib.update m b) <$> digest_state h |}.

Definition inspect {A : Type} (a : A) : { b : A | a = b } := exist _ a eq_refl.

(** [b = body.read(n); while b: ...; b = body.read(n)] *)
Equations? copy_blocks (n : nat) (body : list byte) (h : handle) : handle
  by wf (length body) lt :=
  copy_blocks n body h with inspect (take n body) := {
    | exist _ [] _ => h
    | exist _ (x :: b) e => copy_blocks n (drop n body) (write_block (x :: b) h) }.
Proof.
  destruct n as [|n]; [ rewrite take_0 in e; discriminate | ].
  destruct body as [|y body]; [ discriminate | ].
  rewrite length_drop. simpl. lia.
Qed.

(** ** The monad of the methods

    A method is a function of the world: it returns or raises, and leaves
    a new world either way (what a call did before it raised stays done). *)

Section Interface.
Context `{Backend}.

Definition M (A : Type) : Type := World srv → outcome A * World srv.

#[export] Instance M_ret : MRet M := λ A a w, (Ok a, w).

#[export] Instance M_bind : MBind M := λ A B f m w,
  match m w with
  | (Ok a, w') => f a w'
  | (Raise e, w') => (Raise e, w')
  | (OutOfFuel, w') => (OutOfFuel, w')
  end.

Definition raise {A : Type} (e : exn) : M A := λ w, (Raise e, w).

Definition out_of_fuel {A : Type} : M A := λ w, (OutOfFuel, w).

(** [try: body except <E>: handler], where [handles] tells which
    exceptions the clause names. *)
Definition try_except {A : Type} (body : M A) (handles : exn → bool)
    (handler : exn → M A) : M A := λ w,
  match body w with
  | (Raise e, w') => if handles e then handler e w' else (Raise e, w')
  | r => r
  end.

(** [assert c] *)
Definition assert (c : bool) : M unit :=
  if c then mret () else raise AssertionError.

Definition get_self : M NBS3Interface := λ w, (Ok (self w), w).

Definition set_self (s : NBS3Interface) : M unit := λ w,
  (Ok (), {| self := s; cloud := cloud w; disk := disk w; wire := wire w |}).

Definition read_disk : M (gmap string (list byte)) := λ w, (Ok (disk w), w).

Definition write_disk (path : string) (b : list byte) : M unit := λ w,
  (Ok (), {| self := self w; cloud := cloud w;
             disk := <[path := b]> (disk w); wire := wire w |}).

(** A call on the client: the request goes out, the service answers, and
    both are recorded on the wire. *)
Definition send (c : Client) (r : request) : M response := λ w,
  let '(a, s) := serve r (cloud w) in
  let w' := {| self := self w; cloud := s; disk := disk w;
               wire := wire w ++ [(r, a)] |} in
  match a with
  | Answer x => (Ok x, w')
  | Fault e => (Raise e, w')
  end.

(** ** Methods of [NBS3Interface], in source order *)

Definition provider : string := "nebius".

Definition path : M string :=
  s ← get_self; mret ("nebius://" +:+ bucket_name s).

(** [ObjectStoreInterface.bucket] *)
Definition bucket : M string := s ← get_self; mret (bucket_name s).

Definition aws_region : M string :=
  s ← get_self;
  match _region s with
  | Some (String a r) => mret (String a r)
  | _ =>
      set_self {| bucket_name := bucket_name s; requester_pays := requester_pays s;
                  _region := Some "eu-north1";
                  _cached_s3_clients := _cached_s3_clients s;
                  metadata_cache := metadata_cache s;
                  identity := identity s |};;
      mret "eu-north1"
  end.

Definition region_tag : M string :=
  r ← aws_region; mret ("nebius:" +:+ r).

(** [self.auth.get_boto3_client("s3", region, endpoint_url=..., config=...)] *)
Definition get_boto3_client (region url : string) : Client :=
  {| client_region := region; endpoint_url := url |}.

Definition _s3_client (region : option string) : M Client :=
  region ← match region with Some r => mret r | None => aws_region end;
  match assoc region NEBIUS_REGIONS with
  | None => raise ValueError
  | Some url =>
      s ← get_self;
      match _cached_s3_clients s !! region with
      | Some c => mret c
      | None =>
          let c := get_boto3_client region url in
          set_self {| bucket_name := bucket_name s; requester_pays := requester_pays s;
                      _region := _region s;
                      _cached_s3_clients := <[region := c]> (_cached_s3_clients s);
                      metadata_cache := metadata_cache s;
                      identity := identity s |};;
          mret c
      end
  end.

Definition bucket_exists : M bool :=
  try_except
    (s3_client ← _s3_client None;
     all_buckets ← send s3_client ListBuckets;
     s ← get_self;
     match all_buckets with
     | ListBucketsOutput (Some bucket_names) =>
         mret (bool_decide (bucket_name s ∈ bucket_names))
     | _ => mret false
     end)
    (λ _, true)
    (λ _, mret false).

Definition create_bucket (region_tag : string) : M unit :=
  let region := region_of_tag region_tag in
  match assoc region NEBIUS_REGIONS with
  | None => raise ValueError
  | Some _ =>
      s ← get_self;
      set_self {| bucket_name := bucket_name s; requester_pays := requester_pays s;
                  _region := Some region;
                  _cached_s3_clients := _cached_s3_clients s;
                  metadata_cache := metadata_cache s;
                  identity := identity s |};;
      s3_client ← _s3_client (Some region);
      found ← bucket_exists;
      if negb found then
        try_except
          (_ ← send s3_client (CreateBucket (bucket_name s));
           _ ← send s3_client ListBuckets;
           mret ())
          (λ _, true)
          (λ e, raise e)
      else mret ()
  end.

Definition list_objects (prefix : string) (region : option string)
    : M (list ObjectStoreObject) :=
  s3_client ← _s3_client region;
  s ← get_self;
  pages ← send s3_client (ListObjectsV2 (bucket_name s) prefix (requester_pays s));
  match pages with
  | ListObjectsV2Output contents =>
      mret ((λ obj, mkObjectStoreObject (Key obj) provider (bucket_name s)
                      (Size obj) (utc_aware (CLastModified obj)) (CContentType obj))
              <$> contents)
  | _ => mret []
  end.

(** [while keys: batch, keys = keys[:1000], keys[1000:]; ...] *)
Equations? delete_batches (s3_client : Client) (Bucket : string)
    (keys : list string) : M unit by wf (length keys) lt :=
  delete_batches s3_client Bucket [] := mret ();
  delete_batches s3_client Bucket (k :: ks) :=
    _ ← send s3_client (DeleteObjects Bucket (take 1000 (k :: ks)));
    delete_batches s3_client Bucket (drop 1000 (k :: ks)).
Proof. simpl. rewrite length_drop. lia. Qed.

Definition delete_objects (keys : list string) : M unit :=
  s3_client ← _s3_client None;
  s ← get_self;
  delete_batches s3_client (bucket_name s) keys.


(** [for x in l: f(x)] *)
Fixpoint for_each {A : Type} (l : list A) (f : A → M unit) : M unit :=
  match l with
  | [] => mret ()
  | x :: l' => f x;; for_each l' f
  end.

(** The listing is a generator drained batch by batch; its pages are one
    [ListObjectsV2] exchange here. The message of the assertion lists the
    bucket once more when the assertion fails. *)
Definition delete_bucket : M unit :=
  objs ← list_objects "" None;
  for_each (batch_generator objs 1000) (λ batch, delete_objects (key <$> batch));;
  remaining ← list_objects "" None;
  (if length remaining =? 0 then mret ()
   else (_ ← list_objects "" None; raise AssertionError));;
  s3_client ← _s3_client None;
  s ← get_self;
  _ ← send s3_client (DeleteBucket (bucket_name s));
  mret ().

(** The function under the decorators of [get_obj_metadata]. *)
Definition get_obj_metadata__wrapped__ (obj_name : string) : M response :=
  s3_client ← _s3_client None;
  s ← get_self;
  try_except
    (send s3_client (HeadObject (bucket_name s) obj_name))
    is_ClientError
    (λ _, raise NoSuchObjectException).

Definition set_metadata_cache (c : list (cache_key * response)) : M unit :=
  s ← get_self;
  set_self {| bucket_name := bucket_name s; requester_pays := requester_pays s;
              _region := _region s;
              _cached_s3_clients := _cached_s3_clients s;
              metadata_cache := c;
              identity := identity s |}.

(** [@lru_cache(maxsize=1024)]: the result stored for [(self, obj_name)]
    is returned without running the function; a result is stored when the
    function returns, not when it raises. *)
Definition get_obj_metadata (obj_name : string) : M response :=
  s ← get_self;
  let k := (identity s, obj_name) in
  match cached k (metadata_cache s) with
  | Some r =>
      set_metadata_cache (lru_touch k r (metadata_cache s));;
      mret r
  | None =>
      r ← get_obj_metadata__wrapped__ obj_name;
      s' ← get_self;
      set_metadata_cache (lru_store k r (metadata_cache s'));;
      mret r
  end.

(** [response[field]] on a head-object response *)
Definition field {A : Type} (r : response) (f : Metadata → A) : M A :=
  match r with
  | HeadObjectOutput md => mret (f md)
  | _ => raise KeyError
  end.

Definition get_obj_last_modified (obj_name : string) : M datetime :=
  r ← get_obj_metadata obj_name; field r LastModified.

Definition get_obj_mime_type (obj_name : string) : M string :=
  r ← get_obj_metadata obj_name; field r ContentType.

Definition download_object (src_object_name dst_file_path : string)
    (offset_bytes size_bytes : option nat) (write_at_offset generate_md5 : bool)
    (write_block_size : nat) : M (string * option (list byte)) :=
  s3_client ← _s3_client None;
  assert (0 <? String.length src_object_name);;
  assert (negb (truthy_int offset_bytes && negb (truthy_int size_bytes)));;
  s ← get_self;
  let Range :=
    match offset_bytes, size_bytes with
    | Some o, Some n => Some (Z.of_nat o, (Z.of_nat o + Z.of_nat n - 1)%Z)
    | _, _ => None
    end in
  response ← send s3_client
    (GetObject (bucket_name s) src_object_name Range (requester_pays s));
  (* write response data *)
  d ← read_disk;
  (if d !! dst_file_path is None then write_disk dst_file_path [] else mret ());;
  let m := if generate_md5 then Some hashlib.new else None in
  (* open(dst_file_path, "wb+" if write_at_offset else "wb"): either mode
     empties the file *)
  write_disk dst_file_path [];;
  match (if write_at_offset then offset_bytes else Some 0) with
  | None => raise TypeError
  | Some p =>
      match response with
      | GetObjectOutput Body ContentType =>
          let f := copy_blocks write_block_size Body
                     {| content := []; pos := p; digest_state := m |} in
          write_disk dst_file_path (content f);;
          let md5 := hashlib.digest <$> digest_state f in
          let mime_type := ContentType in
          mret (mime_type, md5)
      | _ => raise KeyError
      end
  end.

Definition initiate_multipart_upload (dst_object_name : string)
    (mime_type : option string) : M string :=
  client ← _s3_client None;
  assert (0 <? String.length dst_object_name);;
  s ← get_self;
  response ← send client
    (CreateMultipartUpload (bucket_name s) dst_object_name
       (if truthy_str mime_type then mime_type else None));
  match response with
  | CreateMultipartUploadOutput (Some UploadId) => mret UploadId
  | _ => raise SkyplaneException
  end.

(** The [while True] of [complete_multipart_upload], with an iteration
    budget. *)
Fixpoint list_all_parts (fuel : nat) (s3_client : Client)
    (Bucket dst_object_name upload_id : string) (all_parts : list Part)
    : M (list Part) :=
  match fuel with
  | O => out_of_fuel
  | S fuel' =>
      response ← send s3_client
        (ListParts Bucket dst_object_name 100 upload_id (length all_parts));
      match response with
      | ListPartsOutput (Some (p :: ps)) =>
          list_all_parts fuel' s3_client Bucket dst_object_name upload_id
            (all_parts ++ p :: ps)
      | _ => mret all_parts
      end
  end.

Definition part_entry (p : Part) : nat * string := (PartNumber p, ETag p).

Definition complete_multipart_upload (fuel : nat)
    (dst_object_name upload_id : string) : M unit :=
  s3_client ← _s3_client None;
  s ← get_self;
  all_parts ← list_all_parts fuel s3_client (bucket_name s) dst_object_name upload_id [];
  let all_parts := sorted PartNumber all_parts in
  response ← send s3_client
    (CompleteMultipartUpload upload_id (bucket_name s) dst_object_name
       (part_entry <$> all_parts));
  match response with
  | CompleteMultipartUploadOutput (Some _) => mret ()
  | _ => raise AssertionError
  end.

Definition get_object (key : string) : M (list byte) :=
  try_except
    (s3_client ← _s3_client None;
     s ← get_self;
     response ← send s3_client (GetObject (bucket_name s) key None false);
     match response with
     | GetObjectOutput Body _ => mret Body
     | _ => raise KeyError
     end)
    (λ _, true)
    (λ _, raise NoSuchObjectException).

Definition get_obj_size (key : string) : M nat :=
  try_except
    (s3_client ← _s3_client None;
     s ← get_self;
     response ← send s3_client (HeadObject (bucket_name s) key);
     field response ContentLength)
    (λ _, true)
    (λ _, raise NoSuchObjectException).

Definition exists_ (key : string) : M bool :=
  try_except
    (s3_client ← _s3_client None;
     s ← get_self;
     _ ← send s3_client (HeadObject (bucket_name s) key);
     mret true)
    (λ _, true)
    (λ _, mret false).

(** [s3_client.upload_file(Filename, Bucket, Key)]: boto3 reads the local
    file and transfers it. *)
Definition upload_file (s3_client : Client) (Filename Bucket Key : string) : M unit :=
  d ← read_disk;
  match d !! Filename with
  | None => raise FileNotFoundError
  | Some body => _ ← send s3_client (UploadFile Bucket Key body); mret ()
  end.

Definition upload_object (local_path remote_path : string) : M unit :=
  try_except
    (s3_client ← _s3_client None;
     s ← get_self;
     upload_file s3_client local_path (bucket_name s) remote_path)
    (λ _, true)
    (λ _, raise Exception).

(** A call [upload_object(src_file_path, dst_object_name, part_number,
    upload_id, check_md5, mime_type)] as [ObjectStoreInterface] declares
    it; [None] in the last four is an argument left out. The method of
    the class takes the first two only, and Python binds arguments before
    it runs the body. *)
Definition call_upload_object (src_file_path dst_object_name : string)
    (part_number : option nat) (upload_id : option string)
    (check_md5 : option (list byte)) (mime_type : option string) : M unit :=
  match part_number, upload_id, check_md5, mime_type with
  | None, None, None, None => upload_object src_file_path dst_object_name
  | _, _, _, _ => raise TypeError
  end.

End Interface.

(** The class body defines [get_obj_size], [exists] and [upload_object]
    twice. A class keeps the last binding of a name, so the methods are the
    later definitions, given above; these are the earlier ones. *)
Module Shadowed.
Section Shadowed.
Context `{Backend}.

Definition get_obj_size (obj_name : string) : M nat :=
  r ← get_obj_metadata obj_name; field r ContentLength.

Definition exists_ (obj_name : string) : M bool :=
  try_except
    (_ ← get_obj_metadata obj_name; mret true)
    (λ e, match e with NoSuchObjectException => true | _ => false end)
    (λ _, mret false).

Definition upload_object (src_file_path dst_object_name : string)
    (part_number : option nat) (upload_id : option string)
    (check_md5 : option (list byte)) (mime_type : option string) : M unit :=
  s3_client ← _s3_client None;
  assert (0 <? String.length dst_object_name);;
  let b64_md5sum :=
    if truthy_bytes check_md5 then base64.b64encode <$> check_md5 else None in
  let checksum_args := if truthy_str b64_md5sum then b64_md5sum else None in
  s ← get_self;
  try_except
    (d ← read_disk;
     match d !! src_file_path with
     | None => raise FileNotFoundError
     | Some f =>
         match upload_id with
         | Some (String c u) =>
             _ ← send s3_client
               (UploadPart (bucket_name s) dst_object_name part_number
                  (strip (String c u)) f checksum_args);
             mret ()
         | _ =>
             let mime_args := if truthy_str mime_type then mime_type else None in
             _ ← send s3_client
               (PutObject (bucket_name s) dst_object_name f checksum_args mime_args);
             (* verify object exists *)
             try_except
               (_ ← send s3_client (HeadObject (bucket_name s) dst_object_name);
                mret ())
               (λ _, true)
               (λ _, mret ())
         end
     end)
    is_ClientError
    (λ e, match e with
          | ClientError (Some Code) =>
              if String.eqb Code "InvalidDigest" then raise ChecksumMismatchException
              else raise e
          | _ => raise e
          end).

End Shadowed.
End Shadowed.

(** ** A reference S3 service

    An in-memory service that answers the requests the way the S3 API
    documents them: buckets of objects, multipart sessions whose parts are
    kept by part number, range reads, batched deletion of at most 1000
    keys, digests checked on upload. *)
Module S3.

Record object := { body : list byte; content_type : string; modified : datetime }.

Record part := { etag : string; data : list byte }.

(** A multipart session: its parts in ascending part-number order. *)
Record upload := {
  u_bucket : string;
  u_key : string;
  u_content_type : option string;
  u_parts : list (nat * part) }.

Record store := {
  buckets : gmap string (gmap string object);
  uploads : gmap string upload;
  clock : nat }.

Definition hex_digit (n : Z) : ascii :=
  nth (Z.to_nat n) (String.list_ascii_of_string "0123456789abcdef") "0"%char.

Fixpoint hex (bs : list byte) : string :=
  match bs with
  | [] => EmptyString
  | b :: bs' =>
      String (hex_digit (hashlib.byte_val b / 16))
        (String (hex_digit (hashlib.byte_val b mod 16)) (hex bs'))
  end.

Definition etag_of (b : list byte) : string := hex (hashlib.md5_digest b).

Definition now (s : store) : datetime := Datetime (Z.of_nat (clock s)) (Some "UTC").

Definition error (code : string) : reply := Fault (ClientError (Some code)).

(** The Content-MD5 header against the body received. *)
Definition digest_error (ContentMD5 : option string) (b : list byte) : option reply :=
  match ContentMD5 with
  | None => None
  | Some h =>
      if String.eqb h (base64.b64encode (hashlib.md5_digest b)) then None
      else if String.length h =? 24 then Some (error "BadDigest")
      else Some (error "InvalidDigest")
  end.

Definition put (Bucket Key : string) (o : object) (s : store) : store :=
  {| buckets := <[Bucket := <[Key := o]> (default ∅ (buckets s !! Bucket))]> (buckets s);
     uploads := uploads s;
     clock := S (clock s) |}.

Definition store_object (Bucket Key : string) (b : list byte)
    (ContentMD5 ContentType : option string) (s : store) : reply * store :=
  match buckets s !! Bucket with
  | None => (error "NoSuchBucket", s)
  | Some _ =>
      match digest_error ContentMD5 b with
      | Some r => (r, s)
      | None =>
          (Answer EmptyOutput,
           put Bucket Key
             {| body := b;
                content_type := default "binary/octet-stream" ContentType;
                modified := now s |} s)
      end
  end.

(** [Range: bytes=first-last]; a header that is not a range is ignored. *)
Definition read_range (b : list byte) (Range : option (Z * Z)) : option (list byte) :=
  match Range with
  | None => Some b
  | Some (first, last) =>
      if (last <? first)%Z then Some b
      else if (Z.of_nat (length b) <=? first)%Z then None
      else Some (take (Z.to_nat (last - first + 1)) (drop (Z.to_nat first) b))
  end.

Fixpoint put_part (n : nat) (p : part) (ps : list (nat * part)) : list (nat * part) :=
  match ps with
  | [] => [(n, p)]
  | (m, q) :: ps' =>
      if n <? m then (n, p) :: (m, q) :: ps'
      else if n =? m then (n, p) :: ps'
      else (m, q) :: put_part n p ps'
  end.

Definition listed (np : nat * part) : Part :=
  {| PartNumber := np.1; ETag := etag np.2 |}.

Fixpoint ascending (ns : list nat) : bool :=
  match ns with
  | a :: (b :: _) as rest => (a <? b) && ascending rest
  | _ => true
  end.

Fixpoint assoc_nat (n : nat) (ps : list (nat * part)) : option part :=
  match ps with
  | [] => None
  | (m, p) :: ps' => if n =? m then Some p else assoc_nat n ps'
  end.

(** The bodies of the parts named in a completion request, or [None]
    when one of them is unknown or its tag does not match. *)
Fixpoint assemble (ps : list (nat * part)) (Parts : list (nat * string))
    : option (list byte) :=
  match Parts with
  | [] => Some []
  | (n, tag) :: rest =>
      match assoc_nat n ps with
      | Some p =>
          if String.eqb tag (etag p) then (λ b, data p ++ b) <$> assemble ps rest
          else None
      | None => None
      end
  end.

Definition summary (ko : string * object) : Content :=
  {| Key := ko.1; Size := length (body ko.2);
     CLastModified := modified ko.2; CContentType := None |}.

Definition head (o : object) : Metadata :=
  {| ContentLength := length (body o); LastModified := modified o;
     ContentType := content_type o |}.

Definition with_buckets (b : gmap string (gmap string object)) (s : store) : store :=
  {| buckets := b; uploads := uploads s; clock := clock s |}.

Definition with_uploads (u : gmap string upload) (s : store) : store :=
  {| buckets := buckets s; uploads := u; clock := S (clock s) |}.

Definition answer (r : request) (s : store) : reply * store :=
  match r with
  | ListBuckets =>
      (Answer (ListBucketsOutput (Some (fst <$> map_to_list (buckets s)))), s)
  | CreateBucket Bucket =>
      match buckets s !! Bucket with
      | Some _ => (error "BucketAlreadyOwnedByYou", s)
      | None => (Answer EmptyOutput, with_buckets (<[Bucket := ∅]> (buckets s)) s)
      end
  | DeleteBucket Bucket =>
      match buckets s !! Bucket with
      | None => (error "NoSuchBucket", s)
      | Some objs =>
          if bool_decide (objs = ∅)
          then (Answer EmptyOutput, with_buckets (delete Bucket (buckets s)) s)
          else (error "BucketNotEmpty", s)
      end
  | ListObjectsV2 Bucket Prefix _ =>
      match buckets s !! Bucket with
      | None => (error "NoSuchBucket", s)
      | Some objs =>
          (Answer (ListObjectsV2Output
                     (summary <$> filter (λ ko, String.prefix Prefix ko.1 = true)
                                         (map_to_list objs))), s)
      end
  | DeleteObjects Bucket Objects =>
      match buckets s !! Bucket with
      | None => (error "NoSuchBucket", s)
      | Some objs =>
          if 1000 <? length Objects then (error "MalformedXML", s)
          else (Answer EmptyOutput,
                with_buckets (<[Bucket := foldr delete objs Objects]> (buckets s)) s)
      end
  | HeadObject Bucket Key =>
      match buckets s !! Bucket ≫= (.!! Key) with
      | None => (error "404", s)
      | Some o => (Answer (HeadObjectOutput (head o)), s)
      end
  | GetObject Bucket Key Range _ =>
      match buckets s !! Bucket ≫= (.!! Key) with
      | None => (error "NoSuchKey", s)
      | Some o =>
          match read_range (body o) Range with
          | None => (error "InvalidRange", s)
          | Some b => (Answer (GetObjectOutput b (content_type o)), s)
          end
      end
  | PutObject Bucket Key Body ContentMD5 ContentType =>
      store_object Bucket Key Body ContentMD5 ContentType s
  | UploadFile Bucket Key Body =>
      store_object Bucket Key Body None None s
  | CreateMultipartUpload Bucket Key ContentType =>
      match buckets s !! Bucket with
      | None => (error "NoSuchBucket", s)
      | Some _ =>
          let UploadId := "upload-" +:+ pretty (clock s) in
          (Answer (CreateMultipartUploadOutput (Some UploadId)),
           with_uploads
             (<[UploadId := {| u_bucket := Bucket; u_key := Key;
                               u_content_type := ContentType; u_parts := [] |}]>
                (uploads s)) s)
      end
  | UploadPart Bucket Key PartNumber UploadId Body ContentMD5 =>
      match uploads s !! UploadId, PartNumber with
      | None, _ => (error "NoSuchUpload", s)
      | Some _, None => (Fault BotoCoreError, s)
      | Some u, Some n =>
          if (n =? 0) || (10 * 1000 <? n) then (error "InvalidArgument", s)
          else match digest_error ContentMD5 Body with
               | Some r => (r, s)
               | None =>
                   (Answer EmptyOutput,
                    with_uploads
                      (<[UploadId := {| u_bucket := u_bucket u; u_key := u_key u;
                                        u_content_type := u_content_type u;
                                        u_parts := put_part n
                                          {| etag := etag_of Body; data := Body |}
                                          (u_parts u) |}]> (uploads s)) s)
               end
      end
  | ListParts Bucket Key MaxParts UploadId PartNumberMarker =>
      match uploads s !! UploadId with
      | None => (error "NoSuchUpload", s)
      | Some u =>
          match take MaxParts
                  (filter (λ np, PartNumberMarker < np.1) (u_parts u)) with
          | [] => (Answer (ListPartsOutput None), s)
          | ps => (Answer (ListPartsOutput (Some (listed <$> ps))), s)
          end
      end
  | CompleteMultipartUpload UploadId Bucket Key Parts =>
      match uploads s !! UploadId with
      | None => (error "NoSuchUpload", s)
      | Some u =>
          match Parts with
          | [] => (error "MalformedXML", s)
          | _ =>
              if negb (ascending (fst <$> Parts)) then (error "InvalidPartOrder", s)
              else match assemble (u_parts u) Parts with
                   | None => (error "InvalidPart", s)
                   | Some b =>
                       (Answer (CompleteMultipartUploadOutput (Some (etag_of b))),
                        put (u_bucket u) (u_key u)
                          {| body := b;
                             content_type :=
                               default "binary/octet-stream" (u_content_type u);
                             modified := now s |}
                          (with_uploads (delete UploadId (uploads s)) s))
                   end
          end
      end
  end.

#[global] Instance service : Backend := {| srv := store; serve := answer |}.

(** A fresh interface object on a bucket, the first of its process, and
    a world around it. *)
Definition interface (Bucket : string) : NBS3Interface :=
  {| bucket_name := Bucket; requester_pays := false; _region := None;
     _cached_s3_clients := ∅; metadata_cache := []; identity := 0 |}.

Definition world (Bucket : string) (s : store) (files : gmap string (list byte))
    : World store :=
  {| self := interface Bucket; cloud := s; disk := files; wire := [] |}.

Definition empty : store := {| buckets := ∅; uploads := ∅; clock := 0 |}.

(** Objects as the service keeps them, from their keys and bodies. *)
Definition objects_of (objs : list (string * list byte)) : gmap string object :=
  list_to_map
    ((λ kb, (kb.1, {| body := kb.2; content_type := "binary/octet-stream";
                      modified := Datetime 0 (Some "UTC") |})) <$> objs).

(** A store with one bucket holding the given objects. *)
Definition bucket_of (Bucket : string) (objs : list (string * list byte)) : store :=
  {| buckets := {[ Bucket := objects_of objs ]}; uploads := ∅; clock := 1 |}.

End S3.

(** ** Vocabulary of the statements *)

Definition answered (r : reply) : bool :=
  match r with Answer _ => true | Fault _ => false end.

(** The listing of buckets names this bucket. *)
Definition lists_bucket (Bucket : string) (a : reply) : bool :=
  match a with
  | Answer (ListBucketsOutput (Some bucket_names)) => bool_decide (Bucket ∈ bucket_names)
  | _ => false
  end.

(** The batches of the loop of [delete_objects] *)
Inductive batched {A : Type} : list A → list (list A) → Prop :=
| batched_nil : batched [] []
| batched_cons k ks bs :
    batched (drop 1000 (k :: ks)) bs →
    batched (k :: ks) (take 1000 (k :: ks) :: bs).

(** The exchange that deletes one batch. *)
Definition delete_exchange (Bucket : string) (batch : list string) : request * reply :=
  (DeleteObjects Bucket batch, Answer EmptyOutput).

(** What a method that only talks to the service leaves of the instance. *)
Record same_instance (s s' : NBS3Interface) : Prop := {
  same_bucket : bucket_name s' = bucket_name s;
  same_payer : requester_pays s' = requester_pays s;
  same_cache : metadata_cache s' = metadata_cache s;
  same_valid : region_valid s = true → region_valid s' = true }.

(** The position the copy loop starts at. *)
Definition seek_target (write_at_offset : bool) (offset_bytes : option nat) : option nat :=
  if write_at_offset then offset_bytes else Some 0.

(** The [Range] argument of the request. *)
Definition range_of (offset_bytes size_bytes : option nat) : option (Z * Z) :=
  match offset_bytes, size_bytes with
  | Some o, Some n => Some (Z.of_nat o, (Z.of_nat o + Z.of_nat n - 1)%Z)
  | _, _ => None
  end.

(** What the file holds after the loop has written [data] from position
    [p] of the emptied file. *)
Definition written (p : nat) (data : list byte) : list byte :=
  match data with [] => [] | _ => repeat x00 p ++ data end.

(** Position of the entry for [k] in a cache, its length when there is none. *)
Fixpoint rank {V : Type} (k : cache_key) (c : list (cache_key * V)) : nat :=
  match c with
  | [] => 0
  | (k', _) :: c' => if same_key k k' then 0 else S (rank k c')
  end.

(** The key under which [get_obj_metadata] stores a name for an object. *)
Definition key_of (s : NBS3Interface) (obj_name : string) : cache_key :=
  (identity s, obj_name).

(** An object that finds the store of the class in the state [c]. *)
Definition with_metadata_cache (c : list (cache_key * response)) (s : NBS3Interface)
    : NBS3Interface :=
  {| bucket_name := bucket_name s; requester_pays := requester_pays s;
     _region := _region s; _cached_s3_clients := _cached_s3_clients s;
     metadata_cache := c; identity := identity s |}.

(** The exchanges of the listing loop that brought a non-empty page each,
    when [acc] had been accumulated before them. *)
Fixpoint listing (Bucket dst_object_name upload_id : string) (acc : list Part)
    (pages : list (list Part)) : list (request * reply) :=
  match pages with
  | [] => []
  | page :: rest =>
      (ListParts Bucket dst_object_name 100 upload_id (length acc),
       Answer (ListPartsOutput (Some page)))
        :: listing Bucket dst_object_name upload_id (acc ++ page) rest
  end.

(** A response that ends the loop: no ["Parts"], or an empty page. *)
Definition ends_listing (r : response) : bool :=
  match r with
  | ListPartsOutput (Some (_ :: _)) => false
  | _ => true
  end.

(** What [complete_multipart_upload] makes of the reply to its last request. *)
Definition completion (fin : reply) : outcome unit :=
  match fin with
  | Answer (CompleteMultipartUploadOutput (Some _)) => Ok ()
  | Answer _ => Raise AssertionError
  | Fault e => Raise e
  end.

Section Vocabulary.
Context `{Backend}.

(** What [_s3_client()] leaves alone. *)
Record settled (w w' : World srv) : Prop := {
  settled_cloud : cloud w' = cloud w;
  settled_disk : disk w' = disk w;
  settled_wire : wire w' = wire w;
  settled_bucket : bucket_name (self w') = bucket_name (self w);
  settled_payer : requester_pays (self w') = requester_pays (self w);
  settled_cache : metadata_cache (self w') = metadata_cache (self w);
  settled_region : _region (self w') = Some (current_region (self w)) }.

(** What can happen between two lookups of a key: lookups of metadata
    through this object and through the other [NBS3Interface] objects of
    the process, whose result is dropped here, and changes of the service
    made by anyone else. A lookup is the call [get_obj_metadata(obj_name)]
    that [get_obj_last_modified] and [get_obj_mime_type] make. Of another
    object the event gives the attributes it has when it is called; what
    the call makes of them stays with that object, and is not kept here. *)
Inductive event : Type :=
| Lookup (obj_name : string)
| Through (other : NBS3Interface) (obj_name : string)
| Elsewhere (change : srv → srv).

(** [other.get_obj_metadata(obj_name)]: the method runs on the other
    object, with the service, the wire and the store of the class as they
    are, and leaves the store of the class to this object as it has made
    it. *)
Definition through (other : NBS3Interface) (obj_name : string) (w : World srv)
    : World srv :=
  let w' := (get_obj_metadata obj_name
               {| self := with_metadata_cache (metadata_cache (self w)) other;
                  cloud := cloud w; disk := disk w; wire := wire w |}).2 in
  {| self := with_metadata_cache (metadata_cache (self w')) (self w);
     cloud := cloud w'; disk := disk w'; wire := wire w' |}.

Definition happen (e : event) (w : World srv) : World srv :=
  match e with
  | Lookup k => (get_obj_metadata k w).2
  | Through other k => through other k w
  | Elsewhere f =>
      {| self := self w; cloud := f (cloud w); disk := disk w; wire := wire w |}
  end.

Definition after (es : list event) (w : World srv) : World srv :=
  foldl (λ w e, happen e w) w es.

(** The lookups among the events, through the object [me] or another,
    of keys other than [k]. *)
Fixpoint others (me : nat) (k : cache_key) (es : list event) : nat :=
  match es with
  | [] => 0
  | Lookup obj_name :: es' =>
      (if same_key k (me, obj_name) then 0 else 1) + others me k es'
  | Through other obj_name :: es' =>
      (if same_key k (key_of other obj_name) then 0 else 1) + others me k es'
  | Elsewhere _ :: es' => others me k es'
  end.

End Vocabulary.

(** ** Worlds of the examples *)

(** The default of [write_block_size]. *)
Definition default_write_block_size : nat := 2 ^ 16.

(** A bucket ["bucket"] holding the object ["k"] of two bytes, seen from a
    fresh interface object, with the file ["src"] of three bytes on the
    local disk. *)
Definition two_byte_world : World S3.store :=
  S3.world "bucket" (S3.bucket_of "bucket" [("k", [x01; x02])])
    {[ "src" := [x61; x62; x63] ]}.

(** The service after it has answered some requests. *)
Definition served (rs : list request) (s : S3.store) : S3.store :=
  foldl (λ s r, (S3.answer r s).2) s rs.

(** A multipart session for the key ["big"], whose parts carry the given
    numbers and were uploaded in the given order. *)
Definition session_store (numbers : list nat) : S3.store :=
  served (CreateMultipartUpload "bucket" "big" None
            :: ((λ n, UploadPart "bucket" "big" (Some n) "upload-1" [x61] None)
                  <$> numbers))
         (S3.bucket_of "bucket" []).

Definition session_world (numbers : list nat) : World S3.store :=
  S3.world "bucket" (session_store numbers) ∅.

(** The session of [session_world [1; 3]] as the service keeps it: two
    parts of one byte, numbered 1 and 3. *)
Definition gap_session : S3.upload :=
  let p := {| S3.etag := S3.etag_of [x61]; S3.data := [x61] |} in
  {| S3.u_bucket := "bucket"; S3.u_key := "big"; S3.u_content_type := None;
     S3.u_parts := [(1, p); (3, p)] |}.

(** A bucket of 1025 empty objects: ["k"] and the decimal names of 0..1023. *)
Definition many_names : list string := pretty <$> seq 0 1024.

Definition crowded_world : World S3.store :=
  S3.world "bucket"
    (S3.bucket_of "bucket" ((λ k, (k, [])) <$> ("k" :: many_names))) ∅.

(** A bucket of three objects. *)
Definition three_objects : list (string * list byte) :=
  [("a", [x61]); ("b", []); ("c", [x63; x63])].

Definition three_object_world : World S3.store :=
  S3.world "bucket" (S3.bucket_of "bucket" three_objects) ∅.

(** 2001 keys. *)
Definition keys_2001 : list string := pretty <$> seq 0 2001.

(** A second interface object on the bucket ["bucket"], in the process of
    the first. *)
Definition second_interface : NBS3Interface :=
  {| bucket_name := "bucket"; requester_pays := false; _region := None;
     _cached_s3_clients := ∅; metadata_cache := []; identity := 1 |}.

(** Someone else deletes a key of the bucket. *)
Definition deleted_elsewhere (k : string) (s : S3.store) : S3.store :=
  (S3.answer (DeleteObjects "bucket" [k]) s).2.

(** What the service says of the object ["k"] of [two_byte_world]. *)
Definition k_metadata : Metadata :=
  {| ContentLength := 2; LastModified := Datetime 0 (Some "UTC");
     ContentType := "binary/octet-stream" |}.


(** * Further definitions *)

(** The exchanges of the batches that the service answered. *)
Definition answered_batches (Bucket : string) (batches : list (list string))
    (answers : list response) : list (request * reply) :=
  zip_with (λ batch a, (DeleteObjects Bucket batch, Answer a)) batches answers.

(** The service after it has served the requests of some exchanges. *)
Definition after_exchanges `{Backend} (xs : list (request * reply)) (s : srv) : srv :=
  foldl (λ s x, (serve x.1 s).2) s xs.





(** Every cached client is the one built for its region, with the
    endpoint of that region. *)
Definition clients_built_for_region (s : NBS3Interface) : Prop :=
  ∀ r c, _cached_s3_clients s !! r = Some c →
         ∃ url, assoc r NEBIUS_REGIONS = Some url ∧ c = get_boto3_client r url.

(** The record [list_objects] builds for an object of the reference
    service. *)
Definition listed_object (Bucket k : string) (o : S3.object) : ObjectStoreObject :=
  {| key := k; provider_ := Some "nebius"; bucket_ := Some Bucket;
     size := Some (length (S3.body o));
     last_modified := Some (utc_aware (S3.modified o)); mime_type := None |}.

(** [a == b] on bytes *)
#[global] Instance byte_eq_decision : EqDecision byte := byte_eq_dec.

(** ** The integration test

    [test_nebius_basic_operations]
    (tests/integration_nebius/test_nbs3_interface.py). The bucket name,
    which the test draws at random, and the content of the test file,
    which is ["Hello Nebius!"] there, are parameters. *)

Section Tests.
Context `{Backend}.

(** [os.remove(path)] *)
Definition remove (path : string) : M unit := λ w,
  match disk w !! path with
  | None => (Raise FileNotFoundError, w)
  | Some _ =>
      (Ok (), {| self := self w; cloud := cloud w;
                 disk := delete path (disk w); wire := wire w |})
  end.

(** [try: body finally: cleanup] *)
Definition try_finally {A : Type} (body : M A) (cleanup : M unit) : M A := λ w,
  match body w with
  | (OutOfFuel, w') => (OutOfFuel, w')
  | (o, w') =>
      match cleanup w' with
      | (Ok _, w'') => (o, w'')
      | (Raise e, w'') => (Raise e, w'')
      | (OutOfFuel, w'') => (OutOfFuel, w'')
      end
  end.

Definition test_nebius_basic_operations (bucket_name_ : string)
    (test_content : list byte) : M unit :=
  let test_file := "test_file.txt" in
  try_finally
    ((* iface = NBS3Interface(bucket_name) *)
     set_self (S3.interface bucket_name_);;
     write_disk test_file test_content;;
     create_bucket "nebius:eu-north1";;
     found ← bucket_exists;
     assert found;;
     call_upload_object test_file "test_object.txt" None None None None;;
     found ← exists_ "test_object.txt";
     assert found;;
     content ← get_object "test_object.txt";
     assert (bool_decide (content = test_content));;
     delete_objects ["test_object.txt"];;
     found ← exists_ "test_object.txt";
     assert (negb found);;
     delete_bucket;;
     s3_client ← _s3_client None;
     all_buckets ← send s3_client ListBuckets;
     let bucket_names :=
       match all_buckets with
       | ListBucketsOutput (Some names) => names
       | _ => []
       end in
     assert (negb (bool_decide (bucket_name_ ∈ bucket_names))))
    (d ← read_disk;
     if d !! test_file is Some _ then remove test_file else mret ()).

End Tests.

(** ** [ObjectStoreInterface.create]

    The factory of object_store_interface.py (storage_interface.py holds
    the same function). The classes it builds are imported from modules
    that are not among the sources: an [Interface] is the call of a
    constructor, the class with its arguments, and what the import of a
    module and the call of a constructor do - each returns or raises - is
    left to the parameters [import] and [new] of the factory. *)

Module ObjectStoreInterface.

Inductive Interface : Type :=
| S3Interface (bucket : string)
| GCSInterface (bucket : string)
| AzureBlobInterface (storage_account container : string)
| COSInterface (bucket region_tag : string)
| HDFSInterface (host : string)
| SCPInterface (bucket : string)
| POSIXInterface (bucket : string)
| R2Interface (account bucket : string)
| NebiusInterface (bucket : string).

(** The module the factory imports the class of a call from. *)
Definition module_of (call : Interface) : string :=
  match call with
  | S3Interface _ => "skyplane.obj_store.s3_interface"
  | GCSInterface _ => "skyplane.obj_store.gcs_interface"
  | AzureBlobInterface _ _ => "skyplane.obj_store.azure_blob_interface"
  | COSInterface _ _ => "skyplane.obj_store.cos_interface"
  | HDFSInterface _ => "skyplane.obj_store.hdfs_interface"
  | SCPInterface _ => "skyplane.obj_store.scp_interface"
  | POSIXInterface _ => "skyplane.obj_store.posix_file_interface"
  | R2Interface _ _ => "skyplane.obj_store.r2_interface"
  | NebiusInterface _ => "skyplane.obj_store.nebius_interface"
  end.

(** Statements in sequence: the first exception raised ends them. *)
#[global] Instance result_ret : MRet (sum exn) := λ A a, inr a.

#[global] Instance result_bind : MBind (sum exn) := λ A B f x,
  match x with
  | inl e => inl e
  | inr a => f a
  end.

(** [s.split("/", 1)] *)
Fixpoint split_once (s : string) : list string :=
  match s with
  | EmptyString => [EmptyString]
  | String c s' =>
      if Ascii.eqb c "/" then [EmptyString; s']
      else match split_once s' with
           | x :: rest => String c x :: rest
           | [] => [String c EmptyString]
           end
  end.

(** [a, b = l; ...]: unpacking raises [ValueError] unless there are two
    items. *)
Definition unpack2 {A : Type} (l : list string) (k : string → string → exn + A)
    : exn + A :=
  match l with
  | [a; b] => k a b
  | _ => inl ValueError
  end.

Section Create.
Context {A : Type}.
Variable import : string → exn + unit.
Variable new : Interface → exn + A.

Definition create (region_tag bucket : string) : exn + A :=
  if String.prefix "aws" region_tag then
    import "skyplane.obj_store.s3_interface";;
    new (S3Interface bucket)
  else if String.prefix "gcp" region_tag then
    import "skyplane.obj_store.gcs_interface";;
    new (GCSInterface bucket)
  else if String.prefix "azure" region_tag then
    import "skyplane.obj_store.azure_blob_interface";;
    unpack2 (split_once bucket)
      (λ storage_account container, new (AzureBlobInterface storage_account container))
  else if String.prefix "ibmcloud" region_tag then
    import "skyplane.obj_store.cos_interface";;
    new (COSInterface bucket region_tag)
  else if String.prefix "hdfs" region_tag then
    import "skyplane.obj_store.hdfs_interface";;
    new (HDFSInterface bucket)
  else if String.prefix "scp" region_tag then
    import "skyplane.obj_store.scp_interface";;
    new (SCPInterface bucket)
  else if String.prefix "local" region_tag then
    import "skyplane.obj_store.posix_file_interface";;
    new (POSIXInterface bucket)
  else if String.prefix "cloudflare" region_tag then
    import "skyplane.obj_store.r2_interface";;
    unpack2 (split_once bucket) (λ account bucket, new (R2Interface account bucket))
  else if String.prefix "nebius" region_tag then
    import "skyplane.obj_store.nebius_interface";;
    new (NebiusInterface bucket)
  else inl ValueError.

(** The import of the class of a call, and the call. *)
Definition construct (call : Interface) : exn + A :=
  import (module_of call);; new call.

(** The prefixes the factory knows, with what it does for each. *)
Definition providers : list (string * (string → string → exn + A)) :=
  [("aws", λ _ bucket, construct (S3Interface bucket));
   ("gcp", λ _ bucket, construct (GCSInterface bucket));
   ("azure", λ _ bucket,
      import "skyplane.obj_store.azure_blob_interface";;
      unpack2 (split_once bucket) (λ a c, new (AzureBlobInterface a c)));
   ("ibmcloud", λ region_tag bucket, construct (COSInterface bucket region_tag));
   ("hdfs", λ _ bucket, construct (HDFSInterface bucket));
   ("scp", λ _ bucket, construct (SCPInterface bucket));
   ("local", λ _ bucket, construct (POSIXInterface bucket));
   ("cloudflare", λ _ bucket,
      import "skyplane.obj_store.r2_interface";;
      unpack2 (split_once bucket) (λ a b, new (R2Interface a b)));
   ("nebius", λ _ bucket, construct (NebiusInterface bucket))].

End Create.

(** The string holds a slash. *)
Fixpoint has_slash (s : string) : bool :=
  match s with
  | EmptyString => false
  | String c s' => Ascii.eqb c "/" || has_slash s'
  end.

End ObjectStoreInterface.

(** ** [NebiusS3Authentication] (compute/nebius/nebius_s3_auth.py)

    The credentials are a dict of optional strings. [from_config_file]
    is left out: what it does is what [configparser] does. The client
    that [_s3_client] asks [get_boto3_client] for is the [Client] of the
    methods above; here is the session it is built from. *)

Module NebiusS3Authentication.

Definition dict : Type := gmap string (option string).

(** [d.get(k)] *)
Definition get (d : dict) (k : string) : option string := d !! k ≫= id.

Record t := { credentials : dict }.

(** [NebiusS3Authentication(credentials)]; [None] is the default. *)
Definition __init__ (credentials : option dict) : exn + t :=
  (* credentials or {} *)
  let credentials := default ∅ credentials in
  if negb (truthy_str (get credentials "access_key_id"))
     || negb (truthy_str (get credentials "secret_access_key"))
  then inl ValueError
  else inr {| credentials := credentials |}.

(** The arguments of [boto3.Session(...)]. *)
Record Session := {
  aws_access_key_id : option string;
  aws_secret_access_key : option string;
  region_name : option string }.

(** [d[k]] *)
Definition item (d : dict) (k : string) : exn + option string :=
  match d !! k with
  | Some v => inr v
  | None => inl KeyError
  end.

(** [get_boto3_client(service, region, **kwargs)], up to the session it
    builds the client from. *)
Definition get_boto3_client (self : t) (region : option string) : exn + Session :=
  match (if negb (truthy_str region) && truthy_str (get (credentials self) "region")
         then item (credentials self) "region"
         else inr region) with
  | inl e => inl e
  | inr region =>
      match item (credentials self) "access_key_id" with
      | inl e => inl e
      | inr key =>
          match item (credentials self) "secret_access_key" with
          | inl e => inl e
          | inr secret =>
              inr {| aws_access_key_id := key; aws_secret_access_key := secret;
                     region_name := region |}
          end
      end
  end.

End NebiusS3Authentication.

(** ** More worlds of the examples *)

(** A fresh interface object on a bucket the empty service does not hold. *)
Definition new_bucket_world : World S3.store := S3.world "new" S3.empty ∅.

(** The session of [session_world [2; 1]] as the service keeps it. *)
Definition two_part_session : S3.upload :=
  {| S3.u_bucket := "bucket"; S3.u_key := "big"; S3.u_content_type := None;
     S3.u_parts := [(1, {| S3.etag := S3.etag_of [x61]; S3.data := [x61] |});
                    (2, {| S3.etag := S3.etag_of [x61]; S3.data := [x61] |})] |}.
(** * Properties *)

(** ** Running the monad *)

Section Runs.
Context `{Backend}.

Lemma bind_run {A B : Type} (m : M A) (f : A → M B) (w : World srv) :
  (m ≫= f) w =
    match m w with
    | (Ok a, w') => f a w'
    | (Raise e, w') => (Raise e, w')
    | (OutOfFuel, w') => (OutOfFuel, w')
    end.
Proof. reflexivity. Qed.

Lemma bind_ok {A B : Type} (m : M A) (f : A → M B) (w w' : World srv) (a : A) :
  m w = (Ok a, w') → (m ≫= f) w = f a w'.
Proof. intros E. rewrite bind_run, E. reflexivity. Qed.

Lemma bind_raise {A B : Type} (m : M A) (f : A → M B) (w w' : World srv) (e : exn) :
  m w = (Raise e, w') → (m ≫= f) w = (Raise e, w').
Proof. intros E. rewrite bind_run, E. reflexivity. Qed.

Lemma current_region_valid (s : NBS3Interface) :
  region_valid s = true → current_region s = "eu-north1".
Proof.
  unfold region_valid. intros Hv. apply bool_decide_eq_true in Hv.
  destruct Hv as [url Hurl]. simpl in Hurl.
  destruct (String.eqb (current_region s) "eu-north1") eqn:E; [| discriminate].
  by apply String.eqb_eq in E.
Qed.

Lemma s3_client_ok (w : World srv) :
  region_valid (self w) = true →
  ∃ c w', _s3_client None w = (Ok c, w') ∧ settled w w'.
Proof.
  intros Hv. pose proof (current_region_valid _ Hv) as Hr.
  destruct w as [[bn rp rg cl mc idn] c d t]. 
  unfold current_region in Hr. simpl in Hr.
  unfold _s3_client, aws_region, get_self, set_self, mbind, M_bind, mret, M_ret, raise.
  simpl.
  destruct rg as [[|a r]|]; simpl.
  - destruct (cl !! "eu-north1") eqn:Ec; simpl; rewrite ?Ec;
      eexists _, _; (split; [reflexivity|]); by split.
  - injection Hr as -> ->. simpl.
    destruct (cl !! "eu-north1") eqn:Ec; simpl; rewrite ?Ec;
      eexists _, _; (split; [reflexivity|]); by split.
  - destruct (cl !! "eu-north1") eqn:Ec; simpl; rewrite ?Ec;
      eexists _, _; (split; [reflexivity|]); by split.
Qed.
Lemma s3_client_invalid (w : World srv) :
  region_valid (self w) = false →
  ∃ w', _s3_client None w = (Raise ValueError, w')
        ∧ cloud w' = cloud w ∧ disk w' = disk w ∧ wire w' = wire w.
Proof.
  intros Hv. apply bool_decide_eq_false in Hv.
  destruct w as [[bn rp rg cl mc idn] c d t].
  unfold current_region in Hv. simpl in Hv.
  unfold _s3_client, aws_region, get_self, set_self, mbind, M_bind, mret, M_ret, raise.
  simpl.
  destruct rg as [[|a r]|]; simpl in *.
  1,3: exfalso; apply Hv; by eexists.
  destruct (assoc (String a r) NEBIUS_REGIONS) eqn:E.
  - exfalso. apply Hv. by eexists.
  - simpl in E. rewrite E. by eexists.
Qed.

Lemma region_valid_settled (w w' : World srv) :
  region_valid (self w) = true → settled w w' → region_valid (self w') = true.
Proof.
  intros Hv [_ _ _ _ _ _ Hr]. pose proof (current_region_valid _ Hv) as E.
  unfold region_valid, current_region. rewrite Hr, E. reflexivity.
Qed.

Lemma settled_trans (w1 w2 w3 : World srv) :
  region_valid (self w1) = true → settled w1 w2 → settled w2 w3 → settled w1 w3.
Proof.
  intros Hv [Hc Hd Hw Hb Hp Hm Hr] [Hc' Hd' Hw' Hb' Hp' Hm' Hr'].
  split; try congruence.
  rewrite Hr'. f_equal. unfold current_region at 1. rewrite Hr.
  by rewrite (current_region_valid _ Hv).
Qed.

Lemma assoc_region (r : string) :
  is_Some (assoc r NEBIUS_REGIONS) → r = "eu-north1".
Proof.
  intros [url Hurl]. simpl in Hurl.
  destruct (String.eqb r "eu-north1") eqn:E; [| discriminate].
  by apply String.eqb_eq in E.
Qed.

(** [_s3_client(region)] for the region the instance is bound to. *)
Lemma s3_client_region_ok (w : World srv) :
  _region (self w) = Some "eu-north1" →
  ∃ c w', _s3_client (Some "eu-north1") w = (Ok c, w') ∧ settled w w'.
Proof.
  intros Hr. destruct w as [[bn rp rg cl mc idn] c d t]. simpl in Hr. subst rg.
  unfold _s3_client, get_self, set_self, mbind, M_bind, mret, M_ret. simpl.
  destruct (cl !! "eu-north1") eqn:Ec; simpl; rewrite ?Ec;
    eexists _, _; (split; [reflexivity|]); by split.
Qed.

Lemma bucket_exists_run (w : World srv) :
  region_valid (self w) = true →
  ∃ w', bucket_exists w
        = (Ok (lists_bucket (bucket_name (self w)) (serve ListBuckets (cloud w)).1), w')
        ∧ cloud w' = (serve ListBuckets (cloud w)).2
        ∧ wire w' = wire w ++ [(ListBuckets, (serve ListBuckets (cloud w)).1)]
        ∧ disk w' = disk w
        ∧ _region (self w') = Some (current_region (self w)).
Proof.
  intros Hv. destruct (s3_client_ok w Hv) as (c & w1 & E & [Hc Hd Hw Hb Hp Hm Hr]).
  unfold bucket_exists, try_except. rewrite (bind_ok _ _ _ _ _ E).
  rewrite bind_run. unfold send. rewrite Hc, Hw, Hd.
  destruct (serve ListBuckets (cloud w)) as [[r|e] s']; simpl.
  - rewrite bind_run. unfold get_self. cbn [self bucket_name]. rewrite Hb.
    destruct r as [[names|]| | | | | | |]; simpl; eexists; (split; [reflexivity|]); done.
  - eexists; (split; [reflexivity|]); done.
Qed.

Lemma same_instance_refl (s : NBS3Interface) : same_instance s s.
Proof. by split. Qed.

Lemma same_instance_trans (s1 s2 s3 : NBS3Interface) :
  same_instance s1 s2 → same_instance s2 s3 → same_instance s1 s3.
Proof. intros [] []. split; try congruence. auto. Qed.

Lemma settled_same (w w' : World srv) :
  settled w w' → same_instance (self w) (self w').
Proof.
  intros S. split; [apply S..|]. intros Hv. by apply (region_valid_settled w).
Qed.

Lemma s3_client_frame (w : World srv) :
  let r := _s3_client None w in
  cloud r.2 = cloud w ∧ disk r.2 = disk w ∧ wire r.2 = wire w
  ∧ bucket_name (self r.2) = bucket_name (self w)
  ∧ metadata_cache (self r.2) = metadata_cache (self w).
Proof.
  destruct (region_valid (self w)) eqn:Hv.
  - destruct (s3_client_ok w Hv) as (c & w1 & E & [Hc Hd Hw Hb Hp Hm Hr]).
    cbv zeta. rewrite E. done.
  - destruct w as [[bn rp rg cl mc idn] c d t].
    unfold region_valid, current_region in Hv. apply bool_decide_eq_false in Hv.
    cbn in Hv.
    unfold _s3_client, aws_region, get_self, set_self, mbind, M_bind, mret, M_ret, raise.
    cbn.
    destruct rg as [[|a r]|]; cbn in *.
    1,3: exfalso; apply Hv; by eexists.
    destruct (assoc (String a r) NEBIUS_REGIONS) eqn:E.
    + exfalso. apply Hv. by eexists.
    + cbn in E. rewrite E. done.
Qed.

(** The object stays the one it is. *)
Lemma s3_client_identity (region : option string) (w : World srv) :
  identity (self (_s3_client region w).2) = identity (self w).
Proof.
  destruct w as [[bn rp rg cl mc idn] c d t].
  unfold _s3_client, aws_region, get_self, set_self, mbind, M_bind, mret, M_ret, raise.
  cbn [self _region bucket_name requester_pays _cached_s3_clients metadata_cache
       identity cloud disk wire].
  destruct region as [r|]; [|destruct rg as [[|a r]|]]; cbn -[assoc NEBIUS_REGIONS];
    repeat match goal with
    | |- context [assoc ?r NEBIUS_REGIONS] =>
        destruct (assoc r NEBIUS_REGIONS); cbn -[assoc NEBIUS_REGIONS]
    | |- context [cl !! ?r] => destruct (cl !! r); cbn -[assoc NEBIUS_REGIONS]
    end; reflexivity.
Qed.

End Runs.

(** ** Existence checks *)

Section Existence.
Context `{Backend}.

(** C5. [exists] and [bucket_exists] never raise: on every service and in
    every state each returns a boolean, and the boolean is [False] as
    soon as the client could not be built or the request failed, whatever
    the failure was. *)
Theorem exists_never_raises (key : string) (w : World srv) :
  (exists_ key w).1
    = Ok (region_valid (self w)
          && answered (serve (HeadObject (bucket_name (self w)) key) (cloud w)).1)
  ∧ (bucket_exists w).1
    = Ok (region_valid (self w)
          && lists_bucket (bucket_name (self w)) (serve ListBuckets (cloud w)).1).
Proof.
  destruct (region_valid (self w)) eqn:Hv.
  - destruct (s3_client_ok w Hv) as (c & w1 & E & [Hc Hd Hw Hb Hp Hm Hr]).
    split.
    + unfold exists_, try_except. rewrite (bind_ok _ _ _ _ _ E).
      rewrite bind_run. unfold get_self at 1. cbv beta iota.
      rewrite bind_run. unfold send. rewrite Hb, Hc.
      destruct (serve (HeadObject (bucket_name (self w)) key) (cloud w)) as [[r|e] s']; reflexivity.
    + unfold bucket_exists, try_except. rewrite (bind_ok _ _ _ _ _ E).
      rewrite bind_run. unfold send. rewrite Hc.
      destruct (serve ListBuckets (cloud w)) as [[r|e] s']; [|reflexivity].
      rewrite bind_run. unfold get_self at 1. cbv beta iota. simpl.
      rewrite Hb. destruct r as [[names|]| | | | | | |]; reflexivity.
  - destruct (s3_client_invalid w Hv) as (w1 & E & _).
    split.
    + unfold exists_, try_except. rewrite (bind_raise _ _ _ _ _ E). reflexivity.
    + unfold bucket_exists, try_except. rewrite (bind_raise _ _ _ _ _ E). reflexivity.
Qed.
End Existence.

(** ** Bucket creation and the region *)

Section Regions.
Context `{Backend}.

(** C10. For every tag whose region is one of [NEBIUS_REGIONS],
    [create_bucket] binds the instance to that region, so that
    [region_tag()] then answers ["nebius:"] followed by it; and when the
    listing of buckets names the bucket, the listing is the only request
    sent: no bucket is created and the service is left as the listing
    left it. *)
Theorem create_bucket_binds_region (region_tag_ : string) (w : World srv) :
  is_Some (assoc (region_of_tag region_tag_) NEBIUS_REGIONS) →
  let r := create_bucket region_tag_ w in
  _region (self r.2) = Some (region_of_tag region_tag_)
  ∧ (region_tag r.2).1 = Ok ("nebius:" +:+ region_of_tag region_tag_)
  ∧ (lists_bucket (bucket_name (self w)) (serve ListBuckets (cloud w)).1 = true →
     r.1 = Ok ()
     ∧ wire r.2 = wire w ++ [(ListBuckets, (serve ListBuckets (cloud w)).1)]
     ∧ cloud r.2 = (serve ListBuckets (cloud w)).2).
Proof.
  intros Hv. pose proof (assoc_region _ Hv) as Er. rewrite Er. clear Hv.
  assert (Htag : ∀ w' : World srv, _region (self w') = Some "eu-north1" →
                 (region_tag w').1 = Ok "nebius:eu-north1").
  { intros w' Hw'. unfold region_tag, aws_region. rewrite bind_run.
    rewrite bind_run. unfold get_self. cbv beta iota. rewrite Hw'. reflexivity. }
  destruct (create_bucket region_tag_ w) as [o wf] eqn:Hrun. cbv zeta. simpl.
  unfold create_bucket in Hrun. rewrite Er in Hrun.
  change (assoc "eu-north1" NEBIUS_REGIONS)
    with (Some "https://storage.eu-north1.nebius.cloud") in Hrun.
  cbv beta iota zeta in Hrun.
  rewrite bind_run in Hrun. unfold get_self at 1 in Hrun. cbv beta iota in Hrun.
  rewrite bind_run in Hrun. unfold set_self at 1 in Hrun. cbv beta iota in Hrun.
  set (w0 := {| self := _; cloud := cloud w; disk := disk w; wire := wire w |}) in Hrun.
  assert (Hr0 : _region (self w0) = Some "eu-north1") by reflexivity.
  destruct (s3_client_region_ok w0 Hr0) as (c & w1 & E & S1).
  rewrite (bind_ok _ _ _ _ _ E) in Hrun.
  assert (Hv1 : region_valid (self w1) = true).
  { unfold region_valid, current_region. by rewrite (settled_region _ _ S1). }
  destruct (bucket_exists_run w1 Hv1) as (w2 & E2 & Hc2 & Hw2 & Hd2 & Hr2).
  rewrite (bind_ok _ _ _ _ _ E2) in Hrun.
  rewrite (settled_cloud _ _ S1) in *. rewrite (settled_wire _ _ S1) in *.
  rewrite (settled_bucket _ _ S1) in *.
  change (cloud w0) with (cloud w) in *. change (wire w0) with (wire w) in *.
  change (bucket_name (self w0)) with (bucket_name (self w)) in *.
  assert (Hcur : current_region (self w1) = "eu-north1").
  { unfold current_region. by rewrite (settled_region _ _ S1). }
  rewrite Hcur in Hr2.
  destruct (lists_bucket (bucket_name (self w)) (serve ListBuckets (cloud w)).1) eqn:El.
  - simpl in Hrun. injection Hrun as <- <-. repeat split; auto.
  - change (negb false) with true in Hrun. cbv beta iota in Hrun.
    unfold try_except in Hrun. rewrite !bind_run in Hrun. unfold send in Hrun.
    destruct (serve (CreateBucket (bucket_name (self w))) (cloud w2)) as [[a|e] s1];
      simpl in Hrun.
    + rewrite ?bind_run in Hrun. unfold send in Hrun. simpl in Hrun.
      destruct (serve ListBuckets s1) as [[a'|e'] s2]; simpl in Hrun;
        injection Hrun as <- <-; repeat split; auto; done.
    + injection Hrun as <- <-. repeat split; auto; done.
Qed.
End Regions.

(** ** Uploads *)

Section Uploads.
Context `{Backend}.

(** C6. A call of [upload_object] that supplies a checksum does not reach
    the service: the method the class ends up with takes a local path and
    a remote path only, and the call raises [TypeError] with the world
    untouched. *)
Theorem upload_object_rejects_checksum (src dst : string) (part_number : option nat)
    (upload_id : option string) (check_md5 : list byte) (mime_type : option string)
    (w : World srv) :
  call_upload_object src dst part_number upload_id (Some check_md5) mime_type w
  = (Raise TypeError, w).
Proof. by destruct part_number, upload_id. Qed.

End Uploads.

(** ** Downloads *)

Section Downloads.
Context `{Backend}.

(** C9. A download whose offset is non-zero while its size is missing or
    zero raises before anything is fetched: the wire, the service and the
    disk are as before, and the exception is the failed assertion when the
    instance has a valid region and the object name is not empty. *)
Theorem download_offset_needs_size (src dst : string) (offset_bytes size_bytes : option nat)
    (write_at_offset generate_md5 : bool) (write_block_size : nat) (w : World srv) :
  truthy_int offset_bytes = true →
  truthy_int size_bytes = false →
  ∃ e w',
    download_object src dst offset_bytes size_bytes write_at_offset generate_md5
      write_block_size w = (Raise e, w')
    ∧ wire w' = wire w ∧ cloud w' = cloud w ∧ disk w' = disk w
    ∧ (region_valid (self w) = true → src ≠ EmptyString → e = AssertionError).
Proof.
  intros Ho Hs. unfold download_object.
  destruct (region_valid (self w)) eqn:Hv.
  - destruct (s3_client_ok w Hv) as (c & w1 & E & [Hc Hd Hw Hb Hp Hm Hr]).
    rewrite (bind_ok _ _ _ _ _ E).
    destruct src as [|a src]; simpl.
    + eexists _, _. split; [reflexivity|]. repeat split; try done.
    + rewrite Ho, Hs. simpl. eexists _, _. split; [reflexivity|]. repeat split; done.
  - destruct (s3_client_invalid w Hv) as (w1 & E & Hc & Hd & Hw).
    rewrite (bind_raise _ _ _ _ _ E). eexists _, _. split; [reflexivity|].
    repeat split; done.
Qed.
End Downloads.

(** *** The copy loop *)

Lemma copy_blocks_step (n : nat) (body : list byte) (h : handle) :
  copy_blocks n body h
  = match take n body with
    | [] => h
    | x :: b => copy_blocks n (drop n body) (write_block (x :: b) h)
    end.
Proof.
  rewrite copy_blocks_equation_1. unfold copy_blocks_unfold_clause_1.
  destruct (inspect (take n body)) as [[|x b] e]; simpl; by rewrite e.
Qed.

Lemma write_at_end (c b : list byte) : write_at c (length c) b = c ++ b.
Proof.
  unfold write_at. rewrite firstn_all, Nat.sub_diag.
  rewrite drop_ge by lia. cbn [repeat]. by rewrite app_nil_r.
Qed.

(** Once the position is the end of the file, the loop appends the body. *)
Lemma copy_blocks_append (n : nat) (body : list byte) :
  0 < n →
  ∀ h, pos h = length (content h) →
    copy_blocks n body h
    = {| content := content h ++ body;
         pos := pos h + length body;
         digest_state := (λ m, hashlib.update m body) <$> digest_state h |}.
Proof.
  intros Hn. remember (length body) as k eqn:Hk. revert body Hk.
  induction k as [k IH] using lt_wf_ind. intros body Hk h Hp.
  rewrite copy_blocks_step.
  destruct body as [|y body].
  - rewrite take_nil. destruct h as [c p d]. subst k.
    cbn [content pos digest_state length]. rewrite app_nil_r, Nat.add_0_r.
    f_equal. destruct d as [m|]; cbn; [|done]. unfold hashlib.update. by rewrite app_nil_r.
  - destruct n as [|n]; [lia|]. 
    change (take (S n) (y :: body)) with (y :: take n body).
    change (drop (S n) (y :: body)) with (drop n body). cbv beta iota.
    assert (Hlt : length (drop n body) < k).
    { subst k. rewrite length_drop. cbn [length]. lia. }
    rewrite (IH _ Hlt (drop n body) eq_refl).
    + subst k. unfold write_block. cbn [content pos digest_state].
      rewrite Hp, write_at_end. f_equal.
      * rewrite <- app_assoc. cbn [app]. by rewrite take_drop.
      * cbn [length]. rewrite length_take, length_drop. lia.
      * destruct (digest_state h) as [m|]; cbn; [|done]. unfold hashlib.update.
        rewrite <- app_assoc. cbn [app]. by rewrite take_drop.
    + unfold write_block. cbn [content pos]. rewrite Hp, write_at_end.
      rewrite length_app. reflexivity.
Qed.

(** On a file just emptied, the loop leaves zeros up to the starting
    position and then the body; it leaves the file empty when there is
    nothing to write. *)
Lemma copy_blocks_fresh (n : nat) (body : list byte) (p : nat) (m : option hashlib.md5) :
  0 < n →
  copy_blocks n body {| content := []; pos := p; digest_state := m |}
  = {| content := match body with [] => [] | _ => repeat x00 p ++ body end;
       pos := p + length body;
       digest_state := (λ d, hashlib.update d body) <$> m |}.
Proof.
  intros Hn. rewrite copy_blocks_step.
  destruct body as [|y body].
  - rewrite take_nil. cbn. rewrite Nat.add_0_r. f_equal.
    destruct m as [d|]; cbn; [|done]. unfold hashlib.update. by rewrite app_nil_r.
  - destruct n as [|n]; [lia|].
    change (take (S n) (y :: body)) with (y :: take n body).
    change (drop (S n) (y :: body)) with (drop n body). cbv beta iota.
    rewrite copy_blocks_append; [|lia|].
    + unfold write_block, write_at. cbn [content pos digest_state length].
      rewrite take_nil, drop_nil, Nat.sub_0_r, app_nil_r. cbn [app].
      f_equal.
      * rewrite <- app_assoc. cbn [app]. by rewrite take_drop.
      * rewrite length_take, length_drop. lia.
      * destruct m as [d|]; cbn; [|done]. unfold hashlib.update.
        rewrite <- app_assoc. cbn [app]. by rewrite take_drop.
    + unfold write_block, write_at. cbn [content pos length].
      rewrite take_nil, drop_nil, Nat.sub_0_r, app_nil_r. cbn [app].
      rewrite length_app, repeat_length. cbn [length]. reflexivity.
Qed.

(** *** On the reference service *)

Lemma upload_object_run (local_path remote_path : string) (B : list byte)
    (w : World S3.store) :
  region_valid (self w) = true →
  is_Some (S3.buckets (cloud w) !! bucket_name (self w)) →
  disk w !! local_path = Some B →
  ∃ w',
    upload_object local_path remote_path w = (Ok (), w')
    ∧ same_instance (self w) (self w') ∧ disk w' = disk w
    ∧ cloud w'
      = S3.put (bucket_name (self w)) remote_path
          {| S3.body := B; S3.content_type := "binary/octet-stream";
             S3.modified := S3.now (cloud w) |} (cloud w)
    ∧ wire w' = wire w ++ [(UploadFile (bucket_name (self w)) remote_path B,
                            Answer EmptyOutput)].
Proof.
  intros Hv [objs Hb] Hf.
  destruct (@s3_client_ok S3.service w Hv) as (c & w1 & E & S1).
  pose proof (@settled_same S3.service _ _ S1) as I1.
  destruct S1 as [Hc Hd Hw Hbn Hp Hm Hr].
  destruct (@upload_object S3.service local_path remote_path w) as [o wf] eqn:Hrun.
  unfold upload_object, try_except in Hrun.
  rewrite (@bind_ok S3.service _ _ _ _ _ _ _ E) in Hrun.
  rewrite (@bind_run S3.service) in Hrun. unfold get_self at 1 in Hrun.
  cbv beta iota in Hrun. unfold upload_file in Hrun.
  rewrite (@bind_run S3.service) in Hrun. unfold read_disk at 1 in Hrun.
  cbv beta iota in Hrun.
  change (@srv S3.service) with S3.store in *.
  rewrite Hd, Hf in Hrun.
  rewrite (@bind_run S3.service) in Hrun. unfold send in Hrun.
  cbn [serve S3.service S3.answer S3.store_object S3.digest_error] in Hrun.
  change (@srv S3.service) with S3.store in *.
  rewrite Hbn, Hc in Hrun. unfold S3.store_object in Hrun. rewrite Hb in Hrun. cbn in Hrun.
  injection Hrun as <- <-. eexists. split; [reflexivity|].
  cbn [self disk cloud wire]. rewrite Hd, Hw. done.
Qed.

Lemma download_object_run (K dst : string) (offset_bytes size_bytes : option nat)
    (write_at_offset generate_md5 : bool) (write_block_size p : nat)
    (o : S3.object) (data : list byte) (w : World S3.store) :
  region_valid (self w) = true →
  S3.buckets (cloud w) !! bucket_name (self w) ≫= (.!! K) = Some o →
  K ≠ EmptyString →
  0 < write_block_size →
  truthy_int offset_bytes && negb (truthy_int size_bytes) = false →
  S3.read_range (S3.body o) (range_of offset_bytes size_bytes) = Some data →
  seek_target write_at_offset offset_bytes = Some p →
  ∃ w',
    download_object K dst offset_bytes size_bytes write_at_offset generate_md5
      write_block_size w
    = (Ok (S3.content_type o,
           if generate_md5 then Some (hashlib.md5_digest data) else None), w')
    ∧ same_instance (self w) (self w')
    ∧ cloud w' = cloud w
    ∧ disk w' = <[dst := written p data]> (disk w).
Proof.
  intros Hv Ho HK Hn Ha Hr Hp.
  destruct (@s3_client_ok S3.service w Hv) as (c & w1 & E & S1).
  pose proof (@settled_same S3.service _ _ S1) as I1.
  destruct S1 as [Hc Hd Hw Hbn Hpay Hm Hreg].
  destruct (@download_object S3.service K dst offset_bytes size_bytes write_at_offset
              generate_md5 write_block_size w) as [out wf] eqn:Hrun.
  unfold download_object in Hrun.
  rewrite (@bind_ok S3.service _ _ _ _ _ _ _ E) in Hrun.
  destruct K as [|a K]; [done|]. cbn [String.length Nat.ltb Nat.leb assert] in Hrun.
  rewrite (@bind_run S3.service) in Hrun. cbn [mret M_ret] in Hrun.
  rewrite Ha in Hrun. cbn [negb assert] in Hrun.
  rewrite (@bind_run S3.service) in Hrun. cbn [mret M_ret] in Hrun.
  rewrite (@bind_run S3.service) in Hrun. unfold get_self at 1 in Hrun.
  cbv beta iota in Hrun.
  rewrite (@bind_run S3.service) in Hrun. unfold send in Hrun.
  cbn [serve S3.service S3.answer] in Hrun.
  change (@srv S3.service) with S3.store in *.
  fold (range_of offset_bytes size_bytes) in Hrun.
  fold (seek_target write_at_offset offset_bytes) in Hrun.
  rewrite Hbn, Hc, Ho, Hr, Hp in Hrun.
  rewrite (@bind_run S3.service) in Hrun. unfold read_disk at 1 in Hrun.
  cbv beta iota in Hrun.
  rewrite (@bind_run S3.service) in Hrun.
  rewrite (copy_blocks_fresh _ _ _ _ Hn) in Hrun.
  cbn [content digest_state] in Hrun. fold (written p data) in Hrun.
  unfold write_disk, mbind, M_bind, mret, M_ret in Hrun.
  change (@srv S3.service) with S3.store in *. cbn [disk] in Hrun.
  exists wf.
  destruct (disk w1 !! dst) eqn:Ed; cbn in Hrun;
    injection Hrun as <- <-; cbn [self cloud disk]; rewrite Hd;
    (split; [by destruct generate_md5|]); (split; [done|]); (split; [done|]);
    by rewrite !insert_insert_eq.
Qed.

(** C3. Round trip on a service that holds the bucket: uploading the file
    that holds [B] to a key and downloading the key, in blocks of any
    positive size, leaves exactly [B] in the destination file; the digest
    returned is the MD5 of [B] when one is asked for and [None] when not. *)
Theorem upload_download_round_trip (B : list byte) (local_path K dst_file_path : string)
    (generate_md5 : bool) (write_block_size : nat) (w : World S3.store) :
  region_valid (self w) = true →
  is_Some (S3.buckets (cloud w) !! bucket_name (self w)) →
  disk w !! local_path = Some B →
  K ≠ EmptyString →
  0 < write_block_size →
  let r := (upload_object local_path K ≫= λ _,
            download_object K dst_file_path None None false generate_md5
              write_block_size) w in
  r.1 = Ok ("binary/octet-stream",
            if generate_md5 then Some (hashlib.md5_digest B) else None)
  ∧ disk r.2 !! dst_file_path = Some B.
Proof.
  intros Hv Hb Hf HK Hn.
  destruct (upload_object_run local_path K B w Hv Hb Hf)
    as (w1 & E1 & I1 & Hd1 & Hc1 & Hw1).
  cbv zeta. rewrite (@bind_ok S3.service _ _ _ _ _ _ _ E1).
  assert (Hv1 : region_valid (self w1) = true) by (by apply (same_valid _ _ I1)).
  destruct (@s3_client_ok S3.service w1 Hv1) as (c & w2 & E2 & S2).
  destruct S2 as [Hc2 Hd2 Hw2 Hbn2 Hp2 Hm2 Hr2].
  destruct (@download_object S3.service K dst_file_path None None false generate_md5
              write_block_size w1) as [o wf] eqn:Hrun.
  unfold download_object in Hrun.
  rewrite (@bind_ok S3.service _ _ _ _ _ _ _ E2) in Hrun.
  destruct K as [|a K]; [done|]. cbn [String.length Nat.ltb Nat.leb assert] in Hrun.
  rewrite (@bind_run S3.service) in Hrun. cbn [mret M_ret] in Hrun.
  cbn [truthy_int andb negb assert] in Hrun.
  rewrite (@bind_run S3.service) in Hrun. cbn [mret M_ret] in Hrun.
  rewrite (@bind_run S3.service) in Hrun. unfold get_self at 1 in Hrun.
  cbv beta iota in Hrun.
  rewrite (@bind_run S3.service) in Hrun. unfold send in Hrun.
  cbn [serve S3.service S3.answer] in Hrun.
  change (@srv S3.service) with S3.store in *.
  rewrite Hbn2, (same_bucket _ _ I1), Hc2, Hc1 in Hrun.
  unfold S3.put in Hrun. cbn [S3.buckets] in Hrun.
  rewrite lookup_insert_eq in Hrun. cbn [mbind option_bind] in Hrun.
  rewrite lookup_insert_eq in Hrun.
  cbn [S3.body S3.read_range S3.content_type] in Hrun.
  rewrite (@bind_run S3.service) in Hrun. unfold read_disk at 1 in Hrun.
  cbv beta iota in Hrun.
  rewrite (@bind_run S3.service) in Hrun.
  rewrite (copy_blocks_fresh _ _ _ _ Hn) in Hrun.
  cbn [content digest_state repeat app] in Hrun.
  assert (HB : match B with [] => [] | _ :: _ => B end = B) by (by destruct B).
  rewrite HB in Hrun. clear HB.
  unfold write_disk, mbind, M_bind, mret, M_ret in Hrun.
  change (@srv S3.service) with S3.store in *. cbn [disk] in Hrun.
  destruct (disk w2 !! dst_file_path) eqn:Ed; cbn in Hrun;
    injection Hrun as <- <-; cbn [fst snd disk];
    (split; [by destruct generate_md5 | by rewrite lookup_insert_eq]).
Qed.

(** X21. Two range downloads with [write_at_offset] into one file, [[0,n)] and
    then the rest: the second call empties the file before it seeks, so
    the first [n] bytes end up as zeros. *)
Lemma range_downloads_zero_first_range (K dst : string) (o : S3.object) (n : nat)
    (write_block_size : nat) (w : World S3.store) :
  region_valid (self w) = true →
  S3.buckets (cloud w) !! bucket_name (self w) ≫= (.!! K) = Some o →
  K ≠ EmptyString →
  0 < write_block_size →
  0 < n < length (S3.body o) →
  let r := (download_object K dst (Some 0) (Some n) true false write_block_size ≫= λ _,
            download_object K dst (Some n) (Some (length (S3.body o) - n)) true false
              write_block_size) w in
  r.1 = Ok (S3.content_type o, None)
  ∧ disk r.2 !! dst = Some (repeat x00 n ++ drop n (S3.body o)).
Proof.
  intros Hv Ho HK Hbs [Hn Hm]. cbv zeta.
  assert (R1 : S3.read_range (S3.body o) (range_of (Some 0) (Some n))
               = Some (take n (S3.body o))).
  { unfold S3.read_range, range_of.
    destruct (Z.ltb_spec (Z.of_nat 0 + Z.of_nat n - 1) (Z.of_nat 0)) as [?|_]; [lia|].
    destruct (Z.leb_spec (Z.of_nat (length (S3.body o))) (Z.of_nat 0)) as [?|_]; [lia|].
    f_equal. rewrite drop_0. f_equal. lia. }
  destruct n as [|n']; [lia|]. set (n := S n') in *.
  destruct (download_object_run K dst (Some 0) (Some n) true false write_block_size 0
              o _ w Hv Ho HK Hbs eq_refl R1 eq_refl)
    as (w1 & E1 & I1 & Hc1 & Hd1).
  rewrite (@bind_ok S3.service _ _ _ _ _ _ _ E1).
  assert (Hv1 : region_valid (self w1) = true) by (by apply (same_valid _ _ I1)).
  assert (Ho1 : S3.buckets (cloud w1) !! bucket_name (self w1) ≫= (.!! K) = Some o).
  { by rewrite Hc1, (same_bucket _ _ I1). }
  assert (R2 : S3.read_range (S3.body o)
                 (range_of (Some n) (Some (length (S3.body o) - n)))
               = Some (drop n (S3.body o))).
  { unfold S3.read_range, range_of.
    destruct (Z.ltb_spec (Z.of_nat n + Z.of_nat (length (S3.body o) - n) - 1)
                (Z.of_nat n)) as [?|_]; [lia|].
    destruct (Z.leb_spec (Z.of_nat (length (S3.body o))) (Z.of_nat n)) as [?|_]; [lia|].
    f_equal. rewrite Nat2Z.id. apply take_ge. rewrite length_drop. lia. }
  assert (Ha : truthy_int (Some n) && negb (truthy_int (Some (length (S3.body o) - n)))
               = false).
  { subst n. cbn [truthy_int]. destruct (length (S3.body o) - S n') eqn:El; [lia|done]. }
  destruct (download_object_run K dst (Some n) (Some (length (S3.body o) - n)) true false
              write_block_size n o _ w1 Hv1 Ho1 HK Hbs Ha R2 eq_refl)
    as (w2 & E2 & I2 & Hc2 & Hd2).
  rewrite E2. cbn [fst snd]. split; [done|].
  rewrite Hd2, lookup_insert_eq. unfold written.
  destruct (drop n (S3.body o)) eqn:Ed; [|done].
  apply (f_equal length) in Ed. rewrite length_drop in Ed. cbn [length] in Ed. lia.
Qed.

(** ** Deletion *)

(** *** Batches *)

Lemma batched_concat {A : Type} (l : list A) bs : batched l bs → concat bs = l.
Proof.
  induction 1 as [|k ks bs Hb IH]; [reflexivity|].
  rewrite concat_cons, IH. apply take_drop.
Qed.

Lemma batched_sizes {A : Type} (l : list A) bs :
  batched l bs → Forall (λ b, 0 < length b ≤ 1000) bs.
Proof.
  induction 1 as [|k ks bs Hb IH]; constructor; [|done].
  rewrite length_take. cbn [length]. lia.
Qed.

Lemma batched_nonempty {A : Type} (l : list A) bs :
  batched l bs → 0 < length bs → 0 < length l.
Proof. destruct 1; cbn [length]; lia. Qed.

Lemma batched_empty {A : Type} (l : list A) bs :
  batched l bs → length l = 0 → bs = [].
Proof. destruct 1; cbn [length]; [done | lia]. Qed.

Lemma batched_full {A : Type} (l : list A) bs :
  batched l bs →
  ∀ i b, bs !! i = Some b → S i < length bs → length b = 1000.
Proof.
  induction 1 as [|k ks bs Hb IH]; intros i b Hi Hlt; [done|].
  destruct i as [|i].
  - change (Some (take 1000 (k :: ks)) = Some b) in Hi.
    assert (b = take 1000 (k :: ks)) as -> by congruence. rewrite length_take.
    cbn [length] in Hlt.
    assert (0 < length (drop 1000 (k :: ks))) as Hd
      by (apply (batched_nonempty _ _ Hb); lia).
    rewrite length_drop in Hd. lia.
  - change (bs !! i = Some b) in Hi. cbn [length] in Hlt.
    apply (IH i); [done | lia].
Qed.

Lemma batched_length {A : Type} (l : list A) bs :
  batched l bs → length bs = (length l + 999) / 1000.
Proof.
  induction 1 as [|k ks bs Hb IH]; [reflexivity|].
  cbn [length]. rewrite IH. rewrite length_drop.
  change (S (length ks)) with (length (k :: ks)).
  set (n := length (k :: ks)). assert (0 < n) by (subst n; cbn [length]; lia).
  clearbody n. destruct (decide (n ≤ 1000)).
  - replace (n - 1000) with 0 by lia.
    change ((0 + 999) / 1000) with 0.
    apply Nat.div_unique with (r := n - 1); lia.
  - replace (n + 999) with ((n - 1000 + 999) + 1 * 1000) by lia.
    rewrite Nat.div_add by lia. lia.
Qed.

Lemma batched_2001 {A : Type} (l : list A) bs :
  batched l bs → length l = 2001 → length <$> bs = [1000; 1000; 1].
Proof.
  intros Hb Hl.
  destruct Hb as [|k ks bs1 Hb1]; [done|].
  assert (L1 : length (drop 1000 (k :: ks)) = 1001) by (rewrite length_drop; lia).
  remember (drop 1000 (k :: ks)) as l1 eqn:E1.
  destruct Hb1 as [|k2 ks2 bs2 Hb2]; [done|].
  assert (L2 : length (drop 1000 (k2 :: ks2)) = 1) by (rewrite length_drop; lia).
  remember (drop 1000 (k2 :: ks2)) as l2 eqn:E2.
  destruct Hb2 as [|k3 ks3 bs3 Hb3]; [done|].
  assert (L3 : length (drop 1000 (k3 :: ks3)) = 0) by (rewrite length_drop; lia).
  rewrite (batched_empty _ _ Hb3 L3).
  rewrite !fmap_cons, !length_take, fmap_nil. rewrite Hl, L1, L2. reflexivity.
Qed.

(** *** On the reference service *)

Lemma foldr_delete_lookup {V : Type} (m : gmap string V) (ks : list string) (k : string) :
  foldr delete m ks !! k = if decide (k ∈ ks) then None else m !! k.
Proof.
  induction ks as [|x ks IH]; cbn [foldr].
  - destruct (decide (k ∈ [])) as [Hin|_]; [by apply elem_of_nil in Hin | done].
  - destruct (decide (k ∈ x :: ks)) as [Hin|Hnin].
    + destruct (decide (x = k)) as [->|Hne]; [apply lookup_delete_eq|].
      rewrite lookup_delete_ne by done. rewrite IH.
      apply elem_of_cons in Hin as [->|Hin]; [done|].
      by rewrite decide_True.
    + rewrite lookup_delete_ne.
      * rewrite IH. rewrite decide_False; [done|].
        intros Hin. apply Hnin, elem_of_cons. by right.
      * intros ->. apply Hnin, elem_of_cons. by left.
Qed.

Lemma with_buckets_id (s : S3.store) : S3.with_buckets (S3.buckets s) s = s.
Proof. by destruct s. Qed.

Lemma delete_batches_run (c : Client) (b : string) (keys : list string) :
  ∀ (w : World S3.store) objs,
    S3.buckets (cloud w) !! b = Some objs →
    ∃ bs w' objs',
      batched keys bs
      ∧ delete_batches c b keys w = (Ok (), w')
      ∧ self w' = self w ∧ disk w' = disk w
      ∧ wire w' = wire w ++ (delete_exchange b <$> bs)
      ∧ cloud w' = S3.with_buckets (<[b := objs']> (S3.buckets (cloud w))) (cloud w)
      ∧ ∀ k, objs' !! k = if decide (k ∈ keys) then None else objs !! k.
Proof.
  remember (length keys) as n eqn:Hn. revert keys Hn.
  induction n as [n IH] using lt_wf_ind. intros keys Hn w objs Hb.
  destruct keys as [|k ks].
  - exists [], w, objs. rewrite delete_batches_equation_1.
    split; [constructor|]. split; [reflexivity|].
    split; [done|]. split; [done|].
    split; [by rewrite app_nil_r|].
    split; [rewrite insert_id by done; by rewrite with_buckets_id|].
    intros k. destruct (decide (k ∈ [])) as [Hin|_]; [by apply elem_of_nil in Hin | done].
  - rewrite delete_batches_equation_2. rewrite bind_run.
    unfold send. cbn [serve S3.service S3.answer]. change (@srv S3.service) with S3.store in *. rewrite Hb.
    assert (Hle : (1000 <? length (take 1000 (k :: ks))) = false).
    { apply Nat.ltb_ge. rewrite length_take. lia. }
    rewrite Hle. cbv beta iota zeta.
    set (w1 := {| self := self w; cloud := _; disk := disk w; wire := _ |}).
    assert (Hb1 : S3.buckets (cloud w1) !! b
                  = Some (foldr delete objs (take 1000 (k :: ks))))
      by (cbn; apply lookup_insert_eq).
    assert (Hlt : length (drop 1000 (k :: ks)) < n).
    { subst n. rewrite length_drop. cbn [length]. lia. }
    destruct (IH _ Hlt (drop 1000 (k :: ks)) eq_refl w1 _ Hb1)
      as (bs & w' & objs' & Hbs & Hrun & Hs & Hd & Hw & Hc & Hl).
    exists (take 1000 (k :: ks) :: bs), w', objs'.
    split; [by constructor|]. split; [exact Hrun|].
    split; [done|]. split; [done|]. split.
    { rewrite Hw. subst w1. cbn [wire]. rewrite <- app_assoc. reflexivity. }
    split.
    { rewrite Hc. subst w1. cbn [cloud S3.buckets S3.with_buckets S3.uploads S3.clock].
      unfold S3.with_buckets. cbn. by rewrite insert_insert_eq. }
    intros key. rewrite Hl. rewrite foldr_delete_lookup.
    destruct (decide (key ∈ k :: ks)) as [Hin|Hnin].
    + rewrite <- (take_drop 1000 (k :: ks)) in Hin.
      apply elem_of_app in Hin as [Hin|Hin].
      * rewrite (decide_True _ _ Hin). by destruct (decide (key ∈ drop 1000 (k :: ks))).
      * by rewrite (decide_True _ _ Hin).
    + rewrite !decide_False; [done | |].
      * intros Hin. apply Hnin. rewrite <- (take_drop 1000 (k :: ks)).
        apply elem_of_app. by left.
      * intros Hin. apply Hnin. rewrite <- (take_drop 1000 (k :: ks)).
        apply elem_of_app. by right.
Qed.

Lemma delete_objects_run (keys : list string) (w : World S3.store) objs :
  region_valid (self w) = true →
  S3.buckets (cloud w) !! bucket_name (self w) = Some objs →
  ∃ bs w' objs',
    batched keys bs
    ∧ delete_objects keys w = (Ok (), w')
    ∧ same_instance (self w) (self w') ∧ disk w' = disk w
    ∧ wire w' = wire w ++ (delete_exchange (bucket_name (self w)) <$> bs)
    ∧ cloud w' = S3.with_buckets
                   (<[bucket_name (self w) := objs']> (S3.buckets (cloud w))) (cloud w)
    ∧ ∀ k, objs' !! k = if decide (k ∈ keys) then None else objs !! k.
Proof.
  intros Hv Hb. destruct (@s3_client_ok S3.service w Hv) as (c & w1 & E & S1).
  pose proof (@settled_same S3.service _ _ S1) as I1.
  destruct S1 as [Hc Hd Hw Hbn Hp Hm Hr].
  assert (Hdo : delete_objects keys w = delete_batches c (bucket_name (self w)) keys w1).
  { unfold delete_objects. rewrite (bind_ok _ _ _ _ _ E).
    rewrite bind_run. unfold get_self at 1. cbv beta iota. by rewrite Hbn. }
  rewrite Hdo. change (@srv S3.service) with S3.store in *.
  rewrite <- Hc in Hb.
  destruct (delete_batches_run c (bucket_name (self w)) keys w1 objs Hb)
    as (bs & w' & objs' & Hbs & Hrun & Hs & Hd' & Hw' & Hc' & Hl).
  exists bs, w', objs'. change (@srv S3.service) with S3.store in *.
  rewrite Hs, Hd', Hw', Hc', Hd, Hw, Hc. done.
Qed.

(** C4. On a service that holds the bucket, [delete_objects] takes a key
    list of any length and returns; the keys go out in consecutive batches
    (their concatenation is the list, so every key is in exactly one), each
    of at least one and at most 1000 keys and all but the last of exactly
    1000, with one [DeleteObjects] exchange per batch and nothing else on
    the wire; 2001 keys make three exchanges of 1000, 1000 and 1 keys. *)
Theorem delete_objects_batches (keys : list string) (w : World S3.store) :
  region_valid (self w) = true →
  is_Some (S3.buckets (cloud w) !! bucket_name (self w)) →
  ∃ batches : list (list string),
    concat batches = keys
    ∧ Forall (λ b, 0 < length b ≤ 1000) batches
    ∧ (∀ i b, batches !! i = Some b → S i < length batches → length b = 1000)
    ∧ (length keys = 2001 → length <$> batches = [1000; 1000; 1])
    ∧ (delete_objects keys w).1 = Ok ()
    ∧ wire (delete_objects keys w).2
      = wire w ++ (delete_exchange (bucket_name (self w)) <$> batches).
Proof.
  intros Hv [objs Hb].
  destruct (delete_objects_run keys w objs Hv Hb)
    as (bs & w' & objs' & Hbs & Hrun & _ & _ & Hw & _).
  exists bs. rewrite Hrun. cbn [fst snd].
  split; [by apply batched_concat|].
  split; [by apply (batched_sizes keys)|].
  split; [by apply (batched_full keys)|].
  split; [by apply batched_2001|]. done.
Qed.

Lemma filter_all {A : Type} (P : A → Prop) `{∀ x, Decision (P x)} (l : list A) :
  (∀ x, P x) → filter P l = l.
Proof.
  intros HP. induction l as [|x l IH]; [done|].
  rewrite filter_cons_True by done. by rewrite IH.
Qed.

Lemma list_objects_run (w : World S3.store) objs :
  region_valid (self w) = true →
  S3.buckets (cloud w) !! bucket_name (self w) = Some objs →
  ∃ l w',
    list_objects "" None w = (Ok l, w')
    ∧ key <$> l = (map_to_list objs).*1
    ∧ same_instance (self w) (self w') ∧ disk w' = disk w ∧ cloud w' = cloud w.
Proof.
  intros Hv Hb. destruct (@s3_client_ok S3.service w Hv) as (c & w1 & E & S1).
  pose proof (@settled_same S3.service _ _ S1) as I1.
  destruct S1 as [Hc Hd Hw Hbn Hp Hm Hr].
  unfold list_objects. rewrite (bind_ok _ _ _ _ _ E).
  rewrite bind_run. unfold get_self at 1. cbv beta iota.
  rewrite bind_run. unfold send. cbn [serve S3.service S3.answer].
  change (@srv S3.service) with S3.store in *.
  rewrite Hbn, Hc, Hb. cbv beta iota zeta.
  eexists _, _. split; [reflexivity|]. cbn [self disk cloud].
  split; [|done].
  rewrite filter_all by (by intros [[|a s] o]).
  rewrite <- !list_fmap_compose. reflexivity.
Qed.

Lemma batch_generator_from_concat {A : Type} (n : nat) (gen_in batch : list A) :
  concat (batch_generator_from n batch gen_in) = batch ++ gen_in.
Proof.
  revert batch. induction gen_in as [|x l IH]; intros batch; cbn [batch_generator_from].
  - destruct batch; [done|]. cbn [concat]. by rewrite !app_nil_r.
  - destruct (length (batch ++ [x]) =? n).
    + cbn [concat]. rewrite IH. by rewrite <- app_assoc.
    + rewrite IH. by rewrite <- app_assoc.
Qed.

Lemma batch_generator_concat {A : Type} (n : nat) (l : list A) :
  concat (batch_generator l n) = l.
Proof. apply (batch_generator_from_concat n l []). Qed.

Lemma for_each_delete_run (batches : list (list ObjectStoreObject)) :
  ∀ (w : World S3.store) objs,
    region_valid (self w) = true →
    S3.buckets (cloud w) !! bucket_name (self w) = Some objs →
    ∃ w' objs',
      for_each batches (λ batch, delete_objects (key <$> batch)) w = (Ok (), w')
      ∧ same_instance (self w) (self w') ∧ disk w' = disk w
      ∧ cloud w' = S3.with_buckets
                     (<[bucket_name (self w) := objs']> (S3.buckets (cloud w))) (cloud w)
      ∧ ∀ k, objs' !! k = if decide (k ∈ key <$> concat batches) then None else objs !! k.
Proof.
  induction batches as [|batch batches IH]; intros w objs Hv Hb.
  - exists w, objs. split; [reflexivity|]. split; [apply same_instance_refl|].
    split; [done|]. split; [rewrite insert_id by done; by rewrite with_buckets_id|].
    intros k. destruct (decide (k ∈ key <$> concat [])) as [Hin|_]; [|done].
    by apply elem_of_nil in Hin.
  - destruct (delete_objects_run (key <$> batch) w objs Hv Hb)
      as (bs & w1 & objs1 & _ & Hrun & I1 & Hd1 & _ & Hc1 & Hl1).
    assert (Hv1 : region_valid (self w1) = true) by (by apply (same_valid _ _ I1)).
    assert (Hb1 : S3.buckets (cloud w1) !! bucket_name (self w1) = Some objs1).
    { rewrite Hc1, (same_bucket _ _ I1). cbn. apply lookup_insert_eq. }
    destruct (IH w1 objs1 Hv1 Hb1) as (w2 & objs2 & Hrun2 & I2 & Hd2 & Hc2 & Hl2).
    exists w2, objs2. cbn [for_each].
    split. { rewrite (@bind_ok S3.service _ _ _ _ _ _ _ Hrun). exact Hrun2. }
    split; [by apply (same_instance_trans _ (self w1))|].
    change (@srv S3.service) with S3.store in *.
    split; [congruence|].
    split.
    { rewrite Hc2, Hc1, (same_bucket _ _ I1). unfold S3.with_buckets. cbn.
      by rewrite insert_insert_eq. }
    intros k. rewrite Hl2, Hl1. cbn [concat]. rewrite fmap_app.
    destruct (decide (k ∈ (key <$> batch) ++ (key <$> concat batches))) as [Hin|Hnin].
    + apply elem_of_app in Hin as [Hin|Hin].
      * rewrite (decide_True _ _ Hin). by destruct (decide (k ∈ key <$> concat batches)).
      * by rewrite (decide_True _ _ Hin).
    + rewrite !decide_False; [done | |].
      * intros Hin. apply Hnin, elem_of_app. by left.
      * intros Hin. apply Hnin, elem_of_app. by right.
Qed.

(** ** The metadata cache *)

Lemma same_key_spec (k k' : cache_key) : reflect (k = k') (same_key k k').
Proof.
  destruct k as [i n], k' as [i' n']. unfold same_key. cbn [fst snd].
  destruct (Nat.eqb_spec i i') as [->|Hi]; cbn [andb].
  - destruct (String.eqb_spec n n') as [->|Hn]; constructor; congruence.
  - constructor. congruence.
Qed.

Lemma same_key_refl (k : cache_key) : same_key k k = true.
Proof. by destruct (same_key_spec k k). Qed.

Lemma same_key_ne (k k' : cache_key) : k ≠ k' → same_key k k' = false.
Proof. by destruct (same_key_spec k k'). Qed.

Lemma cached_remove_other {V : Type} (k k' : cache_key) (c : list (cache_key * V)) :
  k ≠ k' → cached k (lru_remove k' c) = cached k c.
Proof.
  intros Hne. induction c as [|[k0 v0] c IH]; [done|]. cbn.
  destruct (same_key_spec k' k0) as [->|Hne0]; cbn.
  - by rewrite same_key_ne.
  - destruct (same_key k k0); [done | apply IH].
Qed.

Lemma rank_remove_other {V : Type} (k k' : cache_key) (c : list (cache_key * V)) :
  k ≠ k' → rank k (lru_remove k' c) ≤ rank k c.
Proof.
  intros Hne. induction c as [|[k0 v0] c IH]; [done|]. cbn.
  destruct (same_key_spec k' k0) as [->|Hne0]; cbn.
  - rewrite same_key_ne by done. lia.
  - destruct (same_key k k0); [done | lia].
Qed.

Lemma cached_take {V : Type} (k : cache_key) (n : nat) (c : list (cache_key * V)) (v : V) :
  cached k c = Some v → rank k c < n → cached k (take n c) = Some v.
Proof.
  revert n. induction c as [|[k0 v0] c IH]; intros n Ha Hr; [done|].
  destruct n as [|n]; [lia|]. cbn in *.
  destruct (same_key k k0); [done|]. apply IH; [done | lia].
Qed.

Lemma rank_take {V : Type} (k : cache_key) (n : nat) (c : list (cache_key * V)) :
  rank k c < n → rank k (take n c) = rank k c.
Proof.
  revert n. induction c as [|[k0 v0] c IH]; intros n Hr; [by destruct n|].
  destruct n as [|n]; [lia|]. cbn in *.
  destruct (same_key k k0); [done|]. rewrite IH; [done | lia].
Qed.

Section Cache.
Context `{Backend}.

Lemma wrapped_frame (k : string) (w : World srv) :
  metadata_cache (self (get_obj_metadata__wrapped__ k w).2) = metadata_cache (self w).
Proof.
  pose proof (s3_client_frame w) as (Hc & Hd & Hw & Hb & Hm). cbv zeta in *.
  unfold get_obj_metadata__wrapped__. rewrite bind_run.
  destruct (_s3_client None w) as [[c| e |] w1]; cbn [fst snd] in *; try done.
  rewrite bind_run. unfold get_self at 1. cbv beta iota.
  unfold try_except, send.
  destruct (serve (HeadObject (bucket_name (self w1)) k) (cloud w1)) as [[r|e] s1]; cbn.
  - done.
  - destruct (is_ClientError e); cbn; done.
Qed.

Lemma wrapped_identity (k : string) (w : World srv) :
  identity (self (get_obj_metadata__wrapped__ k w).2) = identity (self w).
Proof.
  pose proof (s3_client_identity None w) as Hi.
  unfold get_obj_metadata__wrapped__. rewrite bind_run.
  destruct (_s3_client None w) as [[c| e |] w1]; cbn [fst snd] in *; try done.
  rewrite bind_run. unfold get_self at 1. cbv beta iota.
  unfold try_except, send.
  destruct (serve (HeadObject (bucket_name (self w1)) k) (cloud w1)) as [[r|e] s1]; cbn.
  - done.
  - destruct (is_ClientError e); cbn; done.
Qed.

(** A stored result is returned without a request. *)
Lemma get_obj_metadata_hit (k : string) (r : response) (w : World srv) :
  cached (key_of (self w) k) (metadata_cache (self w)) = Some r →
  ∃ w', get_obj_metadata k w = (Ok r, w')
        ∧ wire w' = wire w ∧ cloud w' = cloud w ∧ disk w' = disk w
        ∧ metadata_cache (self w')
          = lru_touch (key_of (self w) k) r (metadata_cache (self w)).
Proof.
  intros Ha. unfold get_obj_metadata. rewrite bind_run. unfold get_self at 1.
  cbv beta iota zeta. unfold key_of in Ha. rewrite Ha.
  eexists. split; [reflexivity|]. done.
Qed.

Lemma set_metadata_cache_run (c : list (cache_key * response)) (w : World srv) :
  ∃ w', set_metadata_cache c w = (Ok (), w')
        ∧ metadata_cache (self w') = c
        ∧ wire w' = wire w ∧ cloud w' = cloud w ∧ disk w' = disk w
        ∧ identity (self w') = identity (self w).
Proof. eexists. split; [reflexivity|]. done. Qed.

(** A lookup of a key that is not stored runs the function, and stores
    what it returns. *)
Lemma get_obj_metadata_miss (k : string) (w : World srv) :
  cached (key_of (self w) k) (metadata_cache (self w)) = None →
  get_obj_metadata k w
  = match get_obj_metadata__wrapped__ k w with
    | (Ok r, w1) =>
        (Ok r, (set_metadata_cache
                  (lru_store (key_of (self w) k) r (metadata_cache (self w1))) w1).2)
    | (Raise e, w1) => (Raise e, w1)
    | (OutOfFuel, w1) => (OutOfFuel, w1)
    end.
Proof.
  intros Ha. unfold get_obj_metadata. rewrite bind_run. unfold get_self at 1.
  cbv beta iota zeta. unfold key_of in Ha. rewrite Ha. rewrite bind_run.
  destruct (get_obj_metadata__wrapped__ k w) as [[r| e |] w1]; reflexivity.
Qed.

(** A lookup leaves the object the one it is. *)
Lemma get_obj_metadata_identity (k : string) (w : World srv) :
  identity (self (get_obj_metadata k w).2) = identity (self w).
Proof.
  destruct (cached (key_of (self w) k) (metadata_cache (self w))) as [r0|] eqn:Ha.
  - unfold get_obj_metadata. rewrite bind_run. unfold get_self at 1.
    cbv beta iota zeta. unfold key_of in Ha. rewrite Ha. reflexivity.
  - rewrite (get_obj_metadata_miss k w Ha).
    pose proof (wrapped_identity k w) as Hi.
    destruct (get_obj_metadata__wrapped__ k w) as [[r1| e |] w1]; cbn [fst snd] in *;
      try done.
Qed.

(** After a lookup that returned, the result is the first entry. *)
Lemma get_obj_metadata_stores (k : string) (r : response) (w : World srv) :
  (get_obj_metadata k w).1 = Ok r →
  let c := metadata_cache (self (get_obj_metadata k w).2) in
  cached (key_of (self w) k) c = Some r ∧ rank (key_of (self w) k) c = 0.
Proof.
  intros Hr. cbv zeta.
  destruct (cached (key_of (self w) k) (metadata_cache (self w))) as [r0|] eqn:Ha.
  - destruct (get_obj_metadata_hit k r0 w Ha) as (w' & E & _ & _ & _ & Hm).
    rewrite E in *. cbn [fst snd] in *. injection Hr as ->.
    rewrite Hm. unfold lru_touch. cbn [cached rank]. by rewrite same_key_refl.
  - rewrite (get_obj_metadata_miss k w Ha) in *.
    destruct (get_obj_metadata__wrapped__ k w) as [[r1| e |] w1]; cbn [fst snd] in *;
      try done.
    injection Hr as ->.
    destruct (set_metadata_cache_run
                (lru_store (key_of (self w) k) r (metadata_cache (self w1))) w1)
      as (w2 & E2 & Hm2 & _).
    rewrite E2. cbn [snd]. rewrite Hm2. unfold lru_store, maxsize.
    change (take 1024 ((key_of (self w) k, r) :: metadata_cache (self w1)))
      with ((key_of (self w) k, r) :: take 1023 (metadata_cache (self w1))).
    cbn [cached rank]. by rewrite same_key_refl.
Qed.

(** A lookup of another key pushes the entry back by one place at most;
    a lookup of the key itself brings it to the front. *)
Lemma get_obj_metadata_ages (k : cache_key) (obj_name : string) (r : response)
    (w : World srv) :
  let step := if same_key k (key_of (self w) obj_name) then 0 else 1 in
  cached k (metadata_cache (self w)) = Some r →
  rank k (metadata_cache (self w)) + step < maxsize →
  let c := metadata_cache (self (get_obj_metadata obj_name w).2) in
  cached k c = Some r ∧ rank k c ≤ rank k (metadata_cache (self w)) + step.
Proof.
  cbv zeta. intros Ha Hlt.
  destruct (same_key_spec k (key_of (self w) obj_name)) as [->|Hne].
  - destruct (get_obj_metadata_hit obj_name r w Ha) as (w' & E & _ & _ & _ & Hm).
    rewrite E. cbn [snd]. rewrite Hm. unfold lru_touch. cbn [cached rank].
    rewrite same_key_refl. split; [done | lia].
  - pose proof (same_key_ne _ _ Hne) as Hneb.
    destruct (cached (key_of (self w) obj_name) (metadata_cache (self w)))
      as [r0|] eqn:Ha'.
    + destruct (get_obj_metadata_hit obj_name r0 w Ha') as (w' & E & _ & _ & _ & Hm).
      rewrite E. cbn [snd]. rewrite Hm. unfold lru_touch. cbn [cached rank].
      rewrite Hneb. rewrite cached_remove_other by done. split; [done|].
      pose proof (rank_remove_other k (key_of (self w) obj_name)
                    (metadata_cache (self w)) Hne). lia.
    + pose proof (wrapped_frame obj_name w) as Hm.
      rewrite (get_obj_metadata_miss obj_name w Ha').
      destruct (get_obj_metadata__wrapped__ obj_name w) as [[r1| e |] w1];
        cbn [fst snd] in *.
      * destruct (set_metadata_cache_run
                    (lru_store (key_of (self w) obj_name) r1 (metadata_cache (self w1)))
                    w1) as (w2 & E2 & Hm2 & _).
        rewrite E2. cbn [snd]. rewrite Hm2, Hm. unfold lru_store.
        split.
        -- apply cached_take; [cbn [cached]; by rewrite Hneb
                              | cbn [rank]; rewrite Hneb; lia].
        -- rewrite rank_take; cbn [rank]; rewrite Hneb; lia.
      * rewrite Hm. split; [done | lia].
      * rewrite Hm. split; [done | lia].
Qed.

(** While fewer lookups of other keys have happened than the cache has
    places, the entry is still there. *)
Lemma cached_after (k : cache_key) (r : response) (es : list event) :
  ∀ w : World srv,
    cached k (metadata_cache (self w)) = Some r →
    rank k (metadata_cache (self w)) + others (identity (self w)) k es < maxsize →
    cached k (metadata_cache (self (after es w))) = Some r
    ∧ identity (self (after es w)) = identity (self w).
Proof.
  induction es as [|e es IH]; intros w Ha Hlt; [done|].
  unfold after. cbn [foldl]. fold (after es (happen e w)).
  destruct e as [k'|other k'|f].
  - cbn [others happen] in *.
    pose proof (get_obj_metadata_identity k' w) as Hi.
    destruct (get_obj_metadata_ages k k' r w Ha) as [Ha1 Hr1].
    { unfold key_of. lia. }
    destruct (IH (get_obj_metadata k' w).2 Ha1) as [IH1 IH2].
    { rewrite Hi. unfold key_of in Hr1. lia. }
    split; [done | congruence].
  - cbn [others happen] in *. unfold through.
    set (w0 := {| self := with_metadata_cache (metadata_cache (self w)) other;
                  cloud := cloud w; disk := disk w; wire := wire w |}).
    destruct (get_obj_metadata_ages k k' r w0 Ha) as [Ha1 Hr1].
    { subst w0. unfold key_of in *. cbn [self with_metadata_cache identity metadata_cache].
      lia. }
    set (w1 := {| self := with_metadata_cache
                            (metadata_cache (self (get_obj_metadata k' w0).2)) (self w);
                  cloud := _; disk := _; wire := _ |}).
    destruct (IH w1) as [IH1 IH2].
    { exact Ha1. }
    { subst w1 w0. unfold key_of in *.
      cbn [self with_metadata_cache identity metadata_cache] in *. lia. }
    split; [done|]. rewrite IH2. reflexivity.
  - cbn [others happen] in *.
    apply (IH {| self := self w; cloud := f (cloud w); disk := disk w; wire := wire w |} Ha Hlt).
Qed.

(** C8, as amended. Once a lookup of a name through an object has
    returned, every later [get_obj_last_modified] and [get_obj_mime_type]
    of that name through that object answers from the stored response and
    sends nothing, whatever has happened to the service in between, as
    long as fewer than 1024 lookups of other keys came in between, where
    the key of a lookup is the object it goes through together with the
    name: the lookups through the other objects of the process count, a
    lookup of the same name through another object as well. *)
Theorem metadata_cached_while_recent (k : string) (md : Metadata) (es : list event)
    (w : World srv) :
  (get_obj_metadata k w).1 = Ok (HeadObjectOutput md) →
  others (identity (self w)) (key_of (self w) k) es < maxsize →
  let w' := after es (get_obj_metadata k w).2 in
  ((get_obj_last_modified k w').1 = Ok (LastModified md)
   ∧ wire (get_obj_last_modified k w').2 = wire w'
   ∧ cloud (get_obj_last_modified k w').2 = cloud w')
  ∧ ((get_obj_mime_type k w').1 = Ok (ContentType md)
     ∧ wire (get_obj_mime_type k w').2 = wire w'
     ∧ cloud (get_obj_mime_type k w').2 = cloud w').
Proof.
  intros Hr Hlt. destruct (get_obj_metadata_stores k _ w Hr) as [Ha H0].
  pose proof (get_obj_metadata_identity k w) as Hi.
  cbv zeta in *.
  destruct (cached_after (key_of (self w) k) (HeadObjectOutput md) es
              (get_obj_metadata k w).2 Ha) as [Ha' Hi'].
  { rewrite Hi. lia. }
  assert (Hk : key_of (self (after es (get_obj_metadata k w).2)) k = key_of (self w) k).
  { unfold key_of. congruence. }
  rewrite <- Hk in Ha'.
  destruct (get_obj_metadata_hit k _ _ Ha') as (w2 & E & Hw & Hc & _).
  unfold get_obj_last_modified, get_obj_mime_type.
  rewrite !(bind_ok _ _ _ _ _ E). cbn. done.
Qed.
End Cache.

(** ** Multipart completion *)

Section Sorting.
Context {A : Type} (key : A → nat).

Lemma insert_by_perm (x : A) (l : list A) : insert_by key x l ≡ₚ x :: l.
Proof.
  induction l as [|y l IH]; [done|]. cbn.
  destruct (key x <=? key y); [done|].
  rewrite IH. apply Permutation_swap.
Qed.

Lemma sorted_perm (l : list A) : sorted key l ≡ₚ l.
Proof.
  induction l as [|x l IH]; [done|]. cbn.
  rewrite insert_by_perm. by rewrite IH.
Qed.

Lemma insert_by_sorted (x : A) (l : list A) :
  StronglySorted le (key <$> l) →
  StronglySorted le (key <$> insert_by key x l).
Proof.
  intros Hs. induction l as [|y l IH]; cbn.
  - repeat constructor.
  - cbn in Hs. apply StronglySorted_inv in Hs as [Hs Hy].
    destruct (Nat.leb_spec (key x) (key y)) as [Hc|Hc]; cbn.
    + constructor; [by constructor|]. constructor; [done|].
      eapply Forall_impl; [exact Hy|]. intros z Hz. cbn in Hz. lia.
    + constructor; [by apply IH|].
      apply Forall_forall. intros z Hz.
      apply list_elem_of_fmap in Hz as (z0 & -> & Hz0).
      rewrite insert_by_perm in Hz0. apply elem_of_cons in Hz0 as [->|Hz0]; [lia|].
      rewrite Forall_forall in Hy. apply Hy.
      apply list_elem_of_fmap. by exists z0.
Qed.

Lemma sorted_ascending (l : list A) : StronglySorted le (key <$> sorted key l).
Proof.
  induction l as [|x l IH]; cbn; [constructor|]. by apply insert_by_sorted.
Qed.
End Sorting.

Lemma ascending_strict (l : list nat) :
  StronglySorted le l → NoDup l → StronglySorted lt l.
Proof.
  induction 1 as [|x l Hs IH Hx]; intros Hn; [constructor|].
  apply NoDup_cons in Hn as [Hnin Hn].
  constructor; [by apply IH|].
  apply Forall_forall. intros y Hy.
  rewrite Forall_forall in Hx. specialize (Hx y Hy).
  assert (x ≠ y) by (intros ->; done). lia.
Qed.

Lemma sorted_strict {A : Type} (key : A → nat) (l : list A) :
  NoDup (key <$> l) → StronglySorted lt (key <$> sorted key l).
Proof.
  intros Hn. apply ascending_strict; [apply sorted_ascending|].
  by rewrite (sorted_perm key l).
Qed.

Section Multipart.
Context `{Backend}.

Lemma list_all_parts_run (fuel : nat) (c : Client) (b dst uid : string) :
  ∀ (acc : list Part) (w : World srv),
    let r := list_all_parts fuel c b dst uid acc w in
    self r.2 = self w ∧ disk r.2 = disk w ∧
    match r.1 with
    | OutOfFuel => True
    | Ok all_parts =>
        ∃ pages last,
          Forall (λ p, p ≠ []) pages ∧ ends_listing last = true
          ∧ all_parts = acc ++ concat pages
          ∧ wire r.2 = wire w ++ listing b dst uid acc pages
                         ++ [(ListParts b dst 100 uid (length all_parts), Answer last)]
    | Raise e =>
        ∃ pages,
          Forall (λ p, p ≠ []) pages
          ∧ wire r.2 = wire w ++ listing b dst uid acc pages
                         ++ [(ListParts b dst 100 uid (length (acc ++ concat pages)),
                              Fault e)]
    end.
Proof.
  induction fuel as [|fuel IH]; intros acc w; cbv zeta; [done|].
  cbn [list_all_parts]. rewrite bind_run. unfold send.
  destruct (serve (ListParts b dst 100 uid (length acc)) (cloud w)) as [[a|e] s] eqn:Es.
  - set (w1 := {| self := self w; cloud := s; disk := disk w; wire := _ |}).
    assert (Hend : ends_listing a = true →
                   (self w1 = self w ∧ disk w1 = disk w) ∧
                   ∃ pages last,
                     Forall (λ p, p ≠ []) pages ∧ ends_listing last = true
                     ∧ acc = acc ++ concat pages
                     ∧ wire w1 = wire w ++ listing b dst uid acc pages
                         ++ [(ListParts b dst 100 uid (length acc), Answer last)]).
    { intros He. split; [done|]. exists [], a. cbn. by rewrite app_nil_r. }
    destruct a as [| | | | | [[|p ps]|] | |];
      try (destruct (Hend eq_refl) as [[? ?] ?]; cbn [fst snd]; done).
    specialize (IH (acc ++ p :: ps) w1). cbv zeta in IH.
    destruct (list_all_parts fuel c b dst uid (acc ++ p :: ps) w1) as [[all| e |] w2];
      cbn [fst snd] in *; destruct IH as (Hs & Hd & IH); (split; [done|]); (split; [done|]);
      [|  |done].
    + destruct IH as (pages & last & Hne & Hl & Hall & Hw).
      exists ((p :: ps) :: pages), last.
      split; [by constructor|]. split; [done|].
      split; [rewrite Hall; cbn [concat]; by rewrite <- app_assoc|].
      rewrite Hw. subst w1. cbn [wire listing]. by rewrite <- !app_assoc.
    + destruct IH as (pages & Hne & Hw).
      exists ((p :: ps) :: pages).
      split; [by constructor|].
      rewrite Hw. subst w1. cbn [wire listing concat]. by rewrite <- !app_assoc.
  - cbn [fst snd]. split; [done|]. split; [done|]. exists []. cbn.
    by rewrite app_nil_r.
Qed.

(** What the call sends, on every service, whenever its listing loop
    ends: either a listing request failed and its exception is raised, or
    pages were fetched, each with the number of parts accumulated so far
    as marker, until a response with no parts came, and then one finalize
    request went out that lists the number and tag of every accumulated
    part, sorted by part number: ascending, and strictly increasing when
    no part number was accumulated twice. The call returns when the
    finalize response carries an [ETag], and fails otherwise. *)
Lemma complete_multipart_upload_sorts (fuel : nat) (dst_object_name upload_id : string)
    (w : World srv) :
  region_valid (self w) = true →
  (complete_multipart_upload fuel dst_object_name upload_id w).1 ≠ OutOfFuel →
  let b := bucket_name (self w) in
  let r := complete_multipart_upload fuel dst_object_name upload_id w in
  (∃ pages e,
      Forall (λ p, p ≠ []) pages
      ∧ r.1 = Raise e
      ∧ wire r.2
        = wire w ++ listing b dst_object_name upload_id [] pages
            ++ [(ListParts b dst_object_name 100 upload_id (length (concat pages)),
                 Fault e)])
  ∨ (∃ pages last fin,
      let all_parts := concat pages in
      let submitted := part_entry <$> sorted PartNumber all_parts in
      Forall (λ p, p ≠ []) pages
      ∧ ends_listing last = true
      ∧ wire r.2
        = wire w ++ listing b dst_object_name upload_id [] pages
            ++ [(ListParts b dst_object_name 100 upload_id (length all_parts),
                 Answer last);
                (CompleteMultipartUpload upload_id b dst_object_name submitted, fin)]
      ∧ submitted ≡ₚ part_entry <$> all_parts
      ∧ StronglySorted le submitted.*1
      ∧ (NoDup (PartNumber <$> all_parts) → StronglySorted lt submitted.*1)
      ∧ r.1 = completion fin).
Proof.
  intros Hv Hfuel. cbv zeta.
  destruct (s3_client_ok w Hv) as (c & w1 & E & [Hc Hd Hw Hb Hp Hm Hr]).
  destruct (complete_multipart_upload fuel dst_object_name upload_id w) as [o wf] eqn:Hrun.
  cbn [fst snd] in *.
  unfold complete_multipart_upload in Hrun.
  rewrite (bind_ok _ _ _ _ _ E) in Hrun.
  rewrite bind_run in Hrun. unfold get_self at 1 in Hrun. cbv beta iota in Hrun.
  rewrite bind_run in Hrun. rewrite Hb in Hrun.
  pose proof (list_all_parts_run fuel c (bucket_name (self w)) dst_object_name upload_id
                [] w1) as Hl.
  cbv zeta in Hl.
  destruct (list_all_parts fuel c (bucket_name (self w)) dst_object_name upload_id [] w1)
    as [[all| e |] w2]; cbn [fst snd] in Hl; destruct Hl as (Hs2 & Hd2 & Hl).
  - right. destruct Hl as (pages & last & Hne & Hlast & Hall & Hw2).
    cbn [app] in Hall. subst all.
    rewrite bind_run in Hrun. unfold send in Hrun.
    destruct (serve (CompleteMultipartUpload upload_id (bucket_name (self w)) dst_object_name
                (part_entry <$> sorted PartNumber (concat pages))) (cloud w2))
      as [fin s3] eqn:Ef.
    exists pages, last, fin. cbv zeta.
    split; [done|]. split; [done|].
    assert (Hwire : wire wf
      = wire w ++ listing (bucket_name (self w)) dst_object_name upload_id [] pages
          ++ [(ListParts (bucket_name (self w)) dst_object_name 100 upload_id
                 (length (concat pages)), Answer last);
              (CompleteMultipartUpload upload_id (bucket_name (self w)) dst_object_name
                 (part_entry <$> sorted PartNumber (concat pages)), fin)]
      ∧ o = completion fin).
    { destruct fin as [[| | | | | |[etag|] |]|e]; cbn in Hrun; injection Hrun as <- <-;
        cbn [wire]; rewrite Hw2, Hw; (split; [|done]);
        rewrite <- !app_assoc; reflexivity. }
    destruct Hwire as [Hwire Ho].
    split; [done|].
    split; [by rewrite (sorted_perm PartNumber (concat pages))|].
    assert (Hfst : (part_entry <$> sorted PartNumber (concat pages)).*1
                   = PartNumber <$> sorted PartNumber (concat pages)).
    { rewrite <- list_fmap_compose. reflexivity. }
    rewrite Hfst.
    split; [apply sorted_ascending|]. split; [apply sorted_strict|done].
  - left. destruct Hl as (pages & Hne & Hw2). cbn [app] in Hw2.
    injection Hrun as <- <-. exists pages, e.
    split; [done|]. split; [done|]. by rewrite Hw2, Hw.
  - injection Hrun as <- <-. done.
Qed.
End Multipart.

(** On the reference service the listing loop ends: a page is not empty
    only while some part number exceeds the number of parts accumulated. *)
Lemma list_all_parts_ends (c : Client) (b dst uid : string) (N : nat) (fuel : nat) :
  ∀ (acc : list Part) (w : World S3.store),
    (∀ u, S3.uploads (cloud w) !! uid = Some u →
          Forall (λ np, np.1 ≤ N) (S3.u_parts u)) →
    0 < fuel →
    N < fuel + length acc →
    (list_all_parts fuel c b dst uid acc w).1 ≠ OutOfFuel.
Proof.
  induction fuel as [|fuel IH]; intros acc w Hu Hpos Hlt; [lia|].
  cbn [list_all_parts]. rewrite (@bind_run S3.service). unfold send.
  cbn [serve S3.service S3.answer].
  change (@srv S3.service) with S3.store in *.
  destruct (S3.uploads (cloud w) !! uid) as [u|] eqn:Eu; [|done].
  specialize (Hu u eq_refl).
  destruct (take 100 (filter (λ np, length acc < np.1) (S3.u_parts u)))
    as [|np nps] eqn:Epage; [done|].
  cbn [fmap list_fmap].
  assert (Hin : np ∈ filter (λ np, length acc < np.1) (S3.u_parts u)).
  { rewrite <- (take_drop 100 (filter _ (S3.u_parts u))). rewrite Epage.
    apply elem_of_app. left. apply elem_of_cons. by left. }
  apply list_elem_of_filter in Hin as [Hgt Hin].
  pose proof (proj1 (Forall_forall _ _) Hu np Hin) as Hnp. cbn in Hnp.
  apply IH.
  - cbn [cloud]. intros u' Hu'. rewrite Eu in Hu'. by injection Hu' as <-.
  - lia.
  - rewrite length_app. cbn [length]. lia.
Qed.

Lemma complete_multipart_upload_ends (dst uid : string) (N fuel : nat)
    (w : World S3.store) :
  (∀ u, S3.uploads (cloud w) !! uid = Some u →
        Forall (λ np, np.1 ≤ N) (S3.u_parts u)) →
  N < fuel →
  (complete_multipart_upload fuel dst uid w).1 ≠ OutOfFuel.
Proof.
  intros Hu Hlt.
  pose proof (@s3_client_frame S3.service w) as (Hc & _). cbv zeta in Hc.
  unfold complete_multipart_upload. rewrite (@bind_run S3.service).
  destruct (@_s3_client S3.service None w) as [[c| e |] w1] eqn:E; cbn [fst snd] in *;
    [| done |].
  - rewrite (@bind_run S3.service). unfold get_self at 1. cbv beta iota.
    rewrite (@bind_run S3.service).
    assert (Hl : (list_all_parts fuel c (bucket_name (self w1)) dst uid [] w1).1
                 ≠ OutOfFuel).
    { apply (list_all_parts_ends _ _ _ _ N); [| lia | cbn [length]; lia].
      change (@srv S3.service) with S3.store in *. by rewrite Hc. }
    destruct (list_all_parts fuel c (bucket_name (self w1)) dst uid [] w1)
      as [[all| e |] w2]; cbn [fst snd] in *; [| done | done].
    rewrite (@bind_run S3.service). unfold send.
    destruct (serve _ (cloud w2)) as [[[| | | | | |[etag|] |]|e] s3]; done.
  - exfalso.
    destruct (region_valid (self w)) eqn:Hv.
    + destruct (@s3_client_ok S3.service w Hv) as (c & w' & E' & _). congruence.
    + destruct (@s3_client_invalid S3.service w Hv) as (w' & E' & _). congruence.
Qed.

Lemma filter_Forall_id {A : Type} (P : A → Prop) `{∀ x, Decision (P x)} (l : list A) :
  Forall P l → filter P l = l.
Proof.
  induction 1 as [|x l Hx Hl IH]; [done|].
  rewrite filter_cons_True by done. by rewrite IH.
Qed.

Lemma ascending_NoDup (ns : list nat) : S3.ascending ns = true → NoDup ns.
Proof.
  assert (Hall : ∀ l a, S3.ascending (a :: l) = true → Forall (λ b, a < b) l).
  { induction l as [|b l IH]; intros a Ha; [constructor|].
    cbn [S3.ascending] in Ha. apply andb_true_iff in Ha as [Hab Hl].
    apply Nat.ltb_lt in Hab. constructor; [done|].
    eapply Forall_impl; [apply (IH b Hl)|]. cbn. intros c Hc. lia. }
  induction ns as [|a l IH]; intros Ha; [constructor|].
  apply NoDup_cons. split.
  - intros Hin. pose proof (Hall l a Ha) as Hf. rewrite Forall_forall in Hf.
    specialize (Hf a Hin). lia.
  - apply IH. destruct l as [|b l]; [done|].
    cbn [S3.ascending] in Ha. by apply andb_true_iff in Ha as [_ Hl].
Qed.

(** On the reference service a listing of an open session ends, and the
    page of its first request is among what it returns. *)
Lemma list_all_parts_pages (c : Client) (b dst uid : string) (u : S3.upload)
    (fuel : nat) :
  ∀ (acc : list Part) (w : World S3.store),
    S3.uploads (cloud w) !! uid = Some u →
    0 < fuel →
    Forall (λ np, np.1 < fuel + length acc) (S3.u_parts u) →
    ∃ rest w',
      list_all_parts fuel c b dst uid acc w
      = (Ok (acc
             ++ (S3.listed <$> take 100 (filter (λ np, length acc < np.1) (S3.u_parts u)))
             ++ rest), w')
      ∧ cloud w' = cloud w.
Proof.
  induction fuel as [|fuel IH]; intros acc w Hu Hpos Hall; [lia|].
  cbn [list_all_parts]. rewrite (@bind_run S3.service). unfold send.
  cbn [serve S3.service S3.answer].
  change (@srv S3.service) with S3.store in *. rewrite Hu.
  destruct (take 100 (filter (λ np, length acc < np.1) (S3.u_parts u)))
    as [|np nps] eqn:Epage.
  - exists [], {| self := self w; cloud := cloud w; disk := disk w;
                  wire := wire w ++ [(ListParts b dst 100 uid (length acc),
                                      Answer (ListPartsOutput None))] |}.
    cbn. by rewrite app_nil_r.
  - cbn [fmap list_fmap].
    set (w1 := {| self := self w; cloud := cloud w; disk := disk w; wire := _ |}).
    assert (Hin : np ∈ filter (λ np, length acc < np.1) (S3.u_parts u)).
    { rewrite <- (take_drop 100 (filter _ (S3.u_parts u))). rewrite Epage.
      apply elem_of_app. left. apply elem_of_cons. by left. }
    apply list_elem_of_filter in Hin as [Hgt Hin].
    pose proof (proj1 (Forall_forall _ _) Hall np Hin) as Hnp. cbn in Hnp.
    destruct (IH (acc ++ S3.listed np :: (S3.listed <$> nps)) w1 Hu) as (rest & w' & E & Hc).
    + lia.
    + eapply Forall_impl; [exact Hall|]. cbn. intros x Hx.
      rewrite length_app. cbn [length]. lia.
    + eexists _, w'. split; [|exact Hc]. rewrite E. f_equal. f_equal.
      rewrite <- !app_assoc. reflexivity.
Qed.

(** C2. A session with a gap in its part numbers cannot be completed. The
    marker of every page is the number of parts accumulated so far, and
    the service lists the parts whose number is above the marker: when
    some part number exceeds the number of parts of the session, the
    page after the first one brings that part again. The finalize request
    then names a part number twice, so it is not in strictly increasing
    order; the service refuses it, the call raises, and the session
    stays open with no object made. *)
Theorem complete_multipart_upload_repeats_part (dst_object_name upload_id : string)
    (u : S3.upload) (fuel : nat) (w : World S3.store) :
  region_valid (self w) = true →
  S3.uploads (cloud w) !! upload_id = Some u →
  length (S3.u_parts u) ≤ 100 →
  Forall (λ np, 0 < np.1 < fuel) (S3.u_parts u) →
  (∃ np, np ∈ S3.u_parts u ∧ length (S3.u_parts u) < np.1) →
  let r := complete_multipart_upload fuel dst_object_name upload_id w in
  ∃ submitted,
    last (wire r.2)
    = Some (CompleteMultipartUpload upload_id (bucket_name (self w)) dst_object_name
              submitted,
            Fault (ClientError (Some "InvalidPartOrder")))
    ∧ ¬ NoDup submitted.*1
    ∧ r.1 = Raise (ClientError (Some "InvalidPartOrder"))
    ∧ cloud r.2 = cloud w.
Proof.
  intros Hv Hu H100 Hnum (np & Hnp & Hgap). cbv zeta.
  destruct (@complete_multipart_upload S3.service fuel dst_object_name upload_id w)
    as [o wf] eqn:Hrun.
  unfold complete_multipart_upload in Hrun.
  destruct (@s3_client_ok S3.service w Hv) as (c & w1 & E & [Hc Hd Hw Hbn Hp Hm Hr]).
  rewrite (@bind_ok S3.service _ _ _ _ _ _ _ E) in Hrun.
  rewrite (@bind_run S3.service) in Hrun. unfold get_self at 1 in Hrun.
  cbv beta iota in Hrun.
  change (@srv S3.service) with S3.store in *.
  assert (Hu1 : S3.uploads (cloud w1) !! upload_id = Some u) by (by rewrite Hc).
  pose proof (proj1 (Forall_forall _ _) Hnum np Hnp) as Hnp'. cbn in Hnp'.
  (* the first page holds every part *)
  destruct fuel as [|fuel]; [lia|].
  cbn [list_all_parts] in Hrun. rewrite !(@bind_run S3.service) in Hrun.
  unfold send at 1 in Hrun. cbn [serve S3.service S3.answer] in Hrun.
  change (@srv S3.service) with S3.store in *. rewrite Hu1 in Hrun.
  cbn [length] in Hrun.
  rewrite filter_Forall_id in Hrun
    by (eapply Forall_impl; [exact Hnum|]; cbn; intros x Hx; lia).
  rewrite take_ge in Hrun by lia.
  destruct (S3.u_parts u) as [|p0 ps] eqn:Eparts; [by apply elem_of_nil in Hnp|].
  cbn [fmap list_fmap app] in Hrun.
  change (S3.listed p0 :: (S3.listed <$> ps)) with (S3.listed <$> p0 :: ps) in Hrun.
  match type of Hrun with context [list_all_parts _ _ _ _ _ _ ?w'] => set (w2 := w') in * end.
  destruct (list_all_parts_pages c (bucket_name (self w1)) dst_object_name upload_id u
              fuel (S3.listed <$> p0 :: ps) w2) as (rest & w3 & E3 & Hc3).
  { exact Hu1. }
  { cbn [length] in Hgap. lia. }
  { rewrite Eparts. eapply Forall_impl; [exact Hnum|]. cbn. intros x Hx.
    rewrite length_fmap. cbn [length]. lia. }
  rewrite E3 in Hrun. clear E3.
  set (all := (S3.listed <$> p0 :: ps) ++ _ ++ rest) in Hrun.
  assert (Hdup : ¬ NoDup (part_entry <$> sorted PartNumber all).*1).
  { rewrite <- list_fmap_compose.
    change (fst ∘ part_entry) with PartNumber.
    rewrite (sorted_perm PartNumber all). subst all.
    rewrite !fmap_app. intros [_ [Hnd _]]%NoDup_app.
    apply (Hnd np.1).
    - rewrite <- list_fmap_compose. apply list_elem_of_fmap. by exists np.
    - apply elem_of_app. left. rewrite <- list_fmap_compose.
      apply list_elem_of_fmap. exists np. split; [done|].
      rewrite Eparts. rewrite take_ge.
      + apply list_elem_of_filter. split; [|done]. rewrite length_fmap. exact Hgap.
      + etrans; [apply length_filter|]. exact H100. }
  rewrite (@bind_run S3.service) in Hrun. unfold send in Hrun.
  cbn [serve S3.service S3.answer] in Hrun.
  change (@srv S3.service) with S3.store in *.
  rewrite Hc3 in Hrun. subst w2. cbn [cloud] in Hrun. rewrite Hu1 in Hrun.
  assert (Hasc : S3.ascending (part_entry <$> sorted PartNumber all).*1 = false).
  { destruct (S3.ascending _) eqn:Ea; [|done]. by apply ascending_NoDup in Ea. }
  rewrite Hasc in Hrun.
  destruct (part_entry <$> sorted PartNumber all) as [|e es] eqn:Esub.
  { destruct Hdup. constructor. }
  cbn in Hrun. injection Hrun as <- <-. cbn [fst snd wire cloud].
  exists (e :: es). rewrite last_snoc, Hbn. done.
Qed.

(** ** The examples *)

(** *** Runtime helpers against their test vectors *)

Example md5_of_empty :
  S3.hex (hashlib.md5_digest []) = "d41d8cd98f00b204e9800998ecf8427e".
Proof. vm_compute. reflexivity. Qed.

Example md5_of_abc :
  S3.hex (hashlib.md5_digest [x61; x62; x63]) = "900150983cd24fb0d6963f7d28e17f72".
Proof. vm_compute. reflexivity. Qed.

Example md5_of_two_blocks :
  S3.hex (hashlib.md5_digest (repeat x61 70)) = "0f5c6c4e740bfcc08c3c26ccb2673d46".
Proof. vm_compute. reflexivity. Qed.

Example b64encode_vectors :
  base64.b64encode <$> [[]; [x66]; [x66; x6f]; [x66; x6f; x6f]; [x66; x6f; x6f; x62]]
  = ["" ; "Zg=="; "Zm8="; "Zm9v"; "Zm9vYg=="]%string.
Proof. vm_compute. reflexivity. Qed.

Example region_of_tag_examples :
  region_of_tag <$> ["nebius:eu-north1"; "eu-north1"; "a:b:eu-north1"; "nebius:"]%string
  = ["eu-north1"; "eu-north1"; "eu-north1"; ""]%string.
Proof. vm_compute. reflexivity. Qed.

Example sorted_is_stable :
  sorted fst [(2, "a"); (1, "b"); (2, "c"); (1, "d")]%string
  = [(1, "b"); (1, "d"); (2, "a"); (2, "c")]%string.
Proof. vm_compute. reflexivity. Qed.

(** *** Range downloads *)

(** C1. The object ["k"] holds the bytes 01 02. Downloading [[0,1)] and
    then [[1,2)] into one file with [write_at_offset] leaves 00 02 in the
    file, where one download of the whole object leaves 01 02: the second
    call empties the file before it seeks. *)
Theorem range_download_assembly_fails :
  let ranges :=
    (download_object "k" "f" (Some 0) (Some 1) true false default_write_block_size ≫= λ _,
     download_object "k" "f" (Some 1) (Some 1) true false default_write_block_size)
      two_byte_world in
  let whole :=
    download_object "k" "f" None None false false default_write_block_size
      two_byte_world in
  ranges.1 = Ok ("binary/octet-stream", None)
  ∧ disk ranges.2 !! "f" = Some [x00; x02]
  ∧ whole.1 = Ok ("binary/octet-stream", None)
  ∧ disk whole.2 !! "f" = Some [x01; x02].
Proof. vm_compute. done. Qed.

(** C9, the claim as stated fails: with an offset of zero and no size the
    download goes through, and the whole object is fetched. *)
Lemma download_offset_zero_without_size :
  let r := download_object "k" "f" (Some 0) None false false default_write_block_size
             two_byte_world in
  r.1 = Ok ("binary/octet-stream", None)
  ∧ wire r.2 = [(GetObject "bucket" "k" None false,
                 Answer (GetObjectOutput [x01; x02] "binary/octet-stream"))].
Proof. vm_compute. done. Qed.

(** C9, an instance: offset 5 without a size. *)
Lemma download_offset_needs_size_witness :
  truthy_int (Some 5) = true
  ∧ truthy_int None = false
  ∧ ∃ e w',
      download_object "k" "f" (Some 5) None true false default_write_block_size
        two_byte_world = (Raise e, w')
      ∧ wire w' = wire two_byte_world ∧ cloud w' = cloud two_byte_world
      ∧ disk w' = disk two_byte_world
      ∧ e = AssertionError.
Proof.
  assert (H1 : truthy_int (Some 5) = true) by reflexivity.
  assert (H2 : truthy_int None = false) by reflexivity.
  split; [exact H1|]. split; [exact H2|].
  destruct (@download_offset_needs_size S3.service "k" "f" (Some 5) None true false
              default_write_block_size two_byte_world H1 H2)
    as (e & w' & Hrun & Hw & Hc & Hd & He).
  exists e, w'. split; [exact Hrun|]. split; [exact Hw|]. split; [exact Hc|].
  split; [exact Hd|]. apply He; [vm_compute; reflexivity | discriminate].
Defined.

(** C3, an instance: three bytes, in blocks of two. *)
Lemma upload_download_round_trip_witness :
  region_valid (self two_byte_world) = true
  ∧ is_Some (S3.buckets (cloud two_byte_world) !! bucket_name (self two_byte_world))
  ∧ disk two_byte_world !! "src" = Some [x61; x62; x63]
  ∧ "copy" ≠ EmptyString
  ∧ 0 < 2
  ∧ (let r := (upload_object "src" "copy" ≫= λ _,
               download_object "copy" "dst" None None false true 2) two_byte_world in
     r.1 = Ok ("binary/octet-stream", Some (hashlib.md5_digest [x61; x62; x63]))
     ∧ disk r.2 !! "dst" = Some [x61; x62; x63]).
Proof.
  assert (H1 : region_valid (self two_byte_world) = true) by (vm_compute; reflexivity).
  assert (H2 : is_Some (S3.buckets (cloud two_byte_world)
                          !! bucket_name (self two_byte_world)))
    by (vm_compute; eexists; reflexivity).
  assert (H3 : disk two_byte_world !! "src" = Some [x61; x62; x63])
    by (vm_compute; reflexivity).
  assert (H4 : "copy" ≠ EmptyString) by discriminate.
  assert (H5 : 0 < 2) by lia.
  exact (conj H1 (conj H2 (conj H3 (conj H4 (conj H5
           (upload_download_round_trip [x61; x62; x63] "src" "copy" "dst" true 2
              two_byte_world H1 H2 H3 H4 H5)))))).
Defined.

(** *** Multipart completion *)

(** C2, the failing input: the session with parts 1 and 3. The requests
    are the listings with the markers 0, 2 and 3 and the finalize
    request, which lists part 3 twice. *)
Lemma complete_multipart_upload_repeats_part_witness :
  let w := session_world [1; 3] in
  let r := complete_multipart_upload 4 "big" "upload-1" w in
  region_valid (self w) = true
  ∧ S3.uploads (cloud w) !! "upload-1" = Some gap_session
  ∧ length (S3.u_parts gap_session) ≤ 100
  ∧ Forall (λ np, 0 < np.1 < 4) (S3.u_parts gap_session)
  ∧ (∃ np, np ∈ S3.u_parts gap_session ∧ length (S3.u_parts gap_session) < np.1)
  ∧ (wire r.2).*1
    = [ListParts "bucket" "big" 100 "upload-1" 0;
       ListParts "bucket" "big" 100 "upload-1" 2;
       ListParts "bucket" "big" 100 "upload-1" 3;
       CompleteMultipartUpload "upload-1" "bucket" "big"
         [(1, "0cc175b9c0f1b6a831c399e269772661");
          (3, "0cc175b9c0f1b6a831c399e269772661");
          (3, "0cc175b9c0f1b6a831c399e269772661")]]
  ∧ r.1 = Raise (ClientError (Some "InvalidPartOrder"))
  ∧ cloud r.2 = cloud w.
Proof.
  cbv zeta.
  assert (H1 : region_valid (self (session_world [1; 3])) = true) by reflexivity.
  assert (H2 : S3.uploads (cloud (session_world [1; 3])) !! "upload-1" = Some gap_session)
    by (vm_compute; reflexivity).
  assert (H3 : length (S3.u_parts gap_session) ≤ 100) by (cbn; lia).
  assert (H4 : Forall (λ np, 0 < np.1 < 4) (S3.u_parts gap_session))
    by (repeat constructor; cbn; lia).
  assert (H5 : ∃ np, np ∈ S3.u_parts gap_session ∧ length (S3.u_parts gap_session) < np.1).
  { eexists. split; [apply list_elem_of_further, list_elem_of_here | cbn; lia]. }
  destruct (complete_multipart_upload_repeats_part "big" "upload-1" gap_session 4
              (session_world [1; 3]) H1 H2 H3 H4 H5) as (submitted & _ & _ & Hr & Hc).
  split; [exact H1|]. split; [exact H2|]. split; [exact H3|]. split; [exact H4|].
  split; [exact H5|]. split; [vm_compute; reflexivity|]. split; [exact Hr | exact Hc].
Defined.

(** An instance of the listing that ends: parts 2 and 1, uploaded in that
    order. *)
Lemma complete_multipart_upload_sorts_witness :
  region_valid (self (session_world [2; 1])) = true
  ∧ (complete_multipart_upload 3 "big" "upload-1" (session_world [2; 1])).1 ≠ OutOfFuel
  ∧ (let w := session_world [2; 1] in
     let r := complete_multipart_upload 3 "big" "upload-1" w in
     (∃ pages e,
         Forall (λ p, p ≠ []) pages
         ∧ r.1 = Raise e
         ∧ wire r.2
           = wire w ++ listing "bucket" "big" "upload-1" [] pages
               ++ [(ListParts "bucket" "big" 100 "upload-1" (length (concat pages)),
                    Fault e)])
     ∨ (∃ pages last fin,
         let all_parts := concat pages in
         let submitted := part_entry <$> sorted PartNumber all_parts in
         Forall (λ p, p ≠ []) pages
         ∧ ends_listing last = true
         ∧ wire r.2
           = wire w ++ listing "bucket" "big" "upload-1" [] pages
               ++ [(ListParts "bucket" "big" 100 "upload-1" (length all_parts),
                    Answer last);
                   (CompleteMultipartUpload "upload-1" "bucket" "big" submitted, fin)]
         ∧ submitted ≡ₚ part_entry <$> all_parts
         ∧ StronglySorted le submitted.*1
         ∧ (NoDup (PartNumber <$> all_parts) → StronglySorted lt submitted.*1)
         ∧ r.1 = completion fin)).
Proof.
  assert (H1 : region_valid (self (session_world [2; 1])) = true)
    by (vm_compute; reflexivity).
  assert (H2 : (complete_multipart_upload 3 "big" "upload-1" (session_world [2; 1])).1
               ≠ OutOfFuel) by (vm_compute; discriminate).
  exact (conj H1 (conj H2
           (@complete_multipart_upload_sorts S3.service 3 "big" "upload-1" (session_world [2; 1])
              H1 H2))).
Defined.

(** *** Deletion *)

(** C4, an instance: 2001 keys. *)
Lemma delete_objects_batches_witness :
  region_valid (self two_byte_world) = true
  ∧ is_Some (S3.buckets (cloud two_byte_world) !! bucket_name (self two_byte_world))
  ∧ ∃ batches : list (list string),
      concat batches = keys_2001
      ∧ Forall (λ b, 0 < length b ≤ 1000) batches
      ∧ length <$> batches = [1000; 1000; 1]
      ∧ (delete_objects keys_2001 two_byte_world).1 = Ok ()
      ∧ wire (delete_objects keys_2001 two_byte_world).2
        = delete_exchange "bucket" <$> batches.
Proof.
  assert (H1 : region_valid (self two_byte_world) = true) by (vm_compute; reflexivity).
  assert (H2 : is_Some (S3.buckets (cloud two_byte_world)
                          !! bucket_name (self two_byte_world)))
    by (vm_compute; eexists; reflexivity).
  split; [exact H1|]. split; [exact H2|].
  destruct (delete_objects_batches keys_2001 two_byte_world H1 H2)
    as (batches & Hc & Hs & _ & H2001 & Hok & Hw).
  exists batches. split; [exact Hc|]. split; [exact Hs|].
  split; [apply H2001; vm_compute; reflexivity|]. split; [exact Hok|]. exact Hw.
Defined.


(** *** The metadata cache *)

(** C8, the claim as stated fails: after a lookup of ["k"] that returned,
    [get_obj_size] sends a request of its own; after 1024 lookups of other
    names so does [get_obj_last_modified]; and so it does after a lookup
    of ["k"] and of 1023 other names through a second object, which fill
    the one cache of the class. *)
Lemma metadata_fetched_again :
  let w1 := (get_obj_last_modified "k" crowded_world).2 in
  let w2 := after (Lookup <$> many_names) w1 in
  let w3 := after (Through second_interface <$> "k" :: take 1023 many_names) w1 in
  (get_obj_last_modified "k" crowded_world).1 = Ok (Datetime 0 (Some "UTC"))
  ∧ length (wire (get_obj_size "k" w1).2) = S (length (wire w1))
  ∧ last (wire (get_obj_size "k" w1).2) = head (wire w1)
  ∧ length (wire (get_obj_last_modified "k" w2).2) = S (length (wire w2))
  ∧ (fst <$> last (wire (get_obj_last_modified "k" w2).2))
    = Some (HeadObject "bucket" "k")
  ∧ length (wire (get_obj_last_modified "k" w3).2) = S (length (wire w3))
  ∧ (fst <$> last (wire (get_obj_last_modified "k" w3).2))
    = Some (HeadObject "bucket" "k").
Proof. vm_compute. done. Qed.

(** C8, an instance: a second object looks the name up too, the object is
    deleted behind the cache, and is still answered for. *)
Lemma metadata_cached_while_recent_witness :
  let es := [Lookup "src"; Through second_interface "k";
             Elsewhere (deleted_elsewhere "k")] in
  let w' := after es (get_obj_metadata "k" two_byte_world).2 in
  (get_obj_metadata "k" two_byte_world).1 = Ok (HeadObjectOutput k_metadata)
  ∧ others (identity (self two_byte_world)) (key_of (self two_byte_world) "k") es
    < maxsize
  ∧ S3.buckets (cloud w') !! "bucket" ≫= (.!! "k") = None
  ∧ ((get_obj_last_modified "k" w').1 = Ok (Datetime 0 (Some "UTC"))
     ∧ wire (get_obj_last_modified "k" w').2 = wire w'
     ∧ cloud (get_obj_last_modified "k" w').2 = cloud w')
  ∧ ((get_obj_mime_type "k" w').1 = Ok "binary/octet-stream"
     ∧ wire (get_obj_mime_type "k" w').2 = wire w'
     ∧ cloud (get_obj_mime_type "k" w').2 = cloud w').
Proof.
  cbv zeta.
  assert (H1 : (get_obj_metadata "k" two_byte_world).1 = Ok (HeadObjectOutput k_metadata))
    by (vm_compute; reflexivity).
  assert (H2 : others (identity (self two_byte_world)) (key_of (self two_byte_world) "k")
                 [Lookup "src"; Through second_interface "k";
                  Elsewhere (deleted_elsewhere "k")] < maxsize)
    by (vm_compute; lia).
  split; [exact H1|]. split; [exact H2|]. split; [vm_compute; reflexivity|].
  exact (@metadata_cached_while_recent S3.service "k" k_metadata
           [Lookup "src"; Through second_interface "k";
            Elsewhere (deleted_elsewhere "k")] two_byte_world H1 H2).
Defined.

(** *** Bucket creation *)

(** C10, an instance: the bucket is there already. *)
Lemma create_bucket_binds_region_witness :
  let r := create_bucket "nebius:eu-north1" two_byte_world in
  is_Some (assoc (region_of_tag "nebius:eu-north1") NEBIUS_REGIONS)
  ∧ region_of_tag "nebius:eu-north1" = "eu-north1"
  ∧ _region (self r.2) = Some "eu-north1"
  ∧ (region_tag r.2).1 = Ok "nebius:eu-north1"
  ∧ r.1 = Ok ()
  ∧ wire r.2 = [(ListBuckets, Answer (ListBucketsOutput (Some ["bucket"])))]
  ∧ cloud r.2 = cloud two_byte_world.
Proof.
  cbv zeta.
  assert (H1 : is_Some (assoc (region_of_tag "nebius:eu-north1") NEBIUS_REGIONS))
    by (vm_compute; eexists; reflexivity).
  split; [exact H1|]. split; [vm_compute; reflexivity|].
  destruct (@create_bucket_binds_region S3.service "nebius:eu-north1" two_byte_world H1)
    as (Hr & Ht & Hex).
  split; [exact Hr|]. split; [exact Ht|].
  destruct (Hex ltac:(vm_compute; reflexivity)) as (Hok & Hw & Hc).
  split; [exact Hok|]. split; [exact Hw|]. exact Hc.
Defined.
(** ** Runs of the methods the class ends up with *)

Section MoreRuns.
Context `{Backend}.

Lemma exists_run (key : string) (w : World srv) :
  region_valid (self w) = true →
  let q := HeadObject (bucket_name (self w)) key in
  ∃ s', same_instance (self w) s'
    ∧ exists_ key w
      = (Ok (answered (serve q (cloud w)).1),
         {| self := s'; cloud := (serve q (cloud w)).2; disk := disk w;
            wire := wire w ++ [(q, (serve q (cloud w)).1)] |}).
Proof.
  intros Hv. cbv zeta.
  destruct (s3_client_ok w Hv) as (c & w1 & E & S1).
  pose proof (settled_same _ _ S1) as I1. destruct S1 as [Hc Hd Hw Hb Hp Hm Hr].
  exists (self w1). split; [exact I1|].
  unfold exists_, try_except. rewrite (bind_ok _ _ _ _ _ E).
  rewrite bind_run. unfold get_self at 1. cbv beta iota.
  rewrite bind_run. unfold send. rewrite Hb, Hc, Hw, Hd.
  by destruct (serve (HeadObject (bucket_name (self w)) key) (cloud w)) as [[a|e] s'].
Qed.

Lemma get_object_run (key : string) (w : World srv) :
  region_valid (self w) = true →
  let q := GetObject (bucket_name (self w)) key None false in
  ∃ s', same_instance (self w) s'
    ∧ get_object key w
      = (match (serve q (cloud w)).1 with
         | Answer (GetObjectOutput Body _) => Ok Body
         | _ => Raise NoSuchObjectException
         end,
         {| self := s'; cloud := (serve q (cloud w)).2; disk := disk w;
            wire := wire w ++ [(q, (serve q (cloud w)).1)] |}).
Proof.
  intros Hv. cbv zeta.
  destruct (s3_client_ok w Hv) as (c & w1 & E & S1).
  pose proof (settled_same _ _ S1) as I1. destruct S1 as [Hc Hd Hw Hb Hp Hm Hr].
  exists (self w1). split; [exact I1|].
  unfold get_object, try_except. rewrite (bind_ok _ _ _ _ _ E).
  rewrite bind_run. unfold get_self at 1. cbv beta iota.
  rewrite bind_run. unfold send. rewrite Hb, Hc, Hw, Hd.
  destruct (serve (GetObject (bucket_name (self w)) key None false) (cloud w))
    as [[a|e] s']; [|reflexivity].
  by destruct a.
Qed.

Lemma get_obj_size_run (key : string) (w : World srv) :
  region_valid (self w) = true →
  let q := HeadObject (bucket_name (self w)) key in
  ∃ s', same_instance (self w) s'
    ∧ get_obj_size key w
      = (match (serve q (cloud w)).1 with
         | Answer (HeadObjectOutput md) => Ok (ContentLength md)
         | _ => Raise NoSuchObjectException
         end,
         {| self := s'; cloud := (serve q (cloud w)).2; disk := disk w;
            wire := wire w ++ [(q, (serve q (cloud w)).1)] |}).
Proof.
  intros Hv. cbv zeta.
  destruct (s3_client_ok w Hv) as (c & w1 & E & S1).
  pose proof (settled_same _ _ S1) as I1. destruct S1 as [Hc Hd Hw Hb Hp Hm Hr].
  exists (self w1). split; [exact I1|].
  unfold get_obj_size, try_except. rewrite (bind_ok _ _ _ _ _ E).
  rewrite bind_run. unfold get_self at 1. cbv beta iota.
  rewrite bind_run. unfold send. rewrite Hb, Hc, Hw, Hd.
  destruct (serve (HeadObject (bucket_name (self w)) key) (cloud w))
    as [[a|e] s']; [|reflexivity].
  by destruct a.
Qed.

Lemma bucket_exists_same (w : World srv) :
  region_valid (self w) = true →
  let a := serve ListBuckets (cloud w) in
  ∃ s', same_instance (self w) s'
    ∧ bucket_exists w
      = (Ok (lists_bucket (bucket_name (self w)) a.1),
         {| self := s'; cloud := a.2; disk := disk w;
            wire := wire w ++ [(ListBuckets, a.1)] |}).
Proof.
  intros Hv. cbv zeta.
  destruct (s3_client_ok w Hv) as (c & w1 & E & S1).
  pose proof (settled_same _ _ S1) as I1. destruct S1 as [Hc Hd Hw Hb Hp Hm Hr].
  exists (self w1). split; [exact I1|].
  unfold bucket_exists, try_except. rewrite (bind_ok _ _ _ _ _ E).
  rewrite bind_run. unfold send. rewrite Hc, Hw, Hd.
  destruct (serve ListBuckets (cloud w)) as [[r|e] s']; [|reflexivity].
  rewrite bind_run. unfold get_self at 1. cbv beta iota. cbn [self fst snd].
  rewrite Hb. by destruct r as [[names|]| | | | | | |].
Qed.

End MoreRuns.

(** ** Clients and regions *)

Section Clients.
Context `{Backend}.

(** X1. [_s3_client] memoises: once it has returned a client for a region, the
    next call for that region returns the same client and changes nothing
    at all; and neither call sends a request or touches the disk. *)
Theorem s3_client_memoised (region : option string) (c : Client) (w : World srv) :
  (_s3_client region w).1 = Ok c →
  let w' := (_s3_client region w).2 in
  _s3_client region w' = (Ok c, w')
  ∧ _cached_s3_clients (self w')
      !! default (current_region (self w)) region = Some c
  ∧ cloud w' = cloud w ∧ disk w' = disk w ∧ wire w' = wire w.
Proof.
  destruct w as [[bn rp rg cl mc idn] cld d t].
  unfold _s3_client, aws_region, current_region, get_self, set_self, mbind, M_bind,
    mret, M_ret, raise.
  cbn [self _region bucket_name requester_pays _cached_s3_clients metadata_cache
       identity cloud disk wire default].
  assert (Hnorth : assoc "eu-north1" NEBIUS_REGIONS
                   = Some "https://storage.eu-north1.nebius.cloud") by reflexivity.
  destruct region as [r|]; [|destruct rg as [[|a r]|]];
    cbn -[assoc NEBIUS_REGIONS]; rewrite ?Hnorth;
    repeat match goal with
    | |- context [assoc ?r NEBIUS_REGIONS] =>
        destruct (assoc r NEBIUS_REGIONS) as [url|] eqn:Ea
    end;
    cbn -[assoc NEBIUS_REGIONS]; try done;
    match goal with
    | |- context [cl !! ?r] => destruct (cl !! r) as [c'|] eqn:Ec
    end;
    cbn -[assoc NEBIUS_REGIONS]; intros [= <-];
    rewrite ?Hnorth, ?Ea; cbn -[assoc NEBIUS_REGIONS];
    rewrite ?Ec, ?lookup_insert_eq; done.
Qed.

(** X2. A region that [NEBIUS_REGIONS] does not list is refused with
    [ValueError] before anything happens: by [_s3_client] when it is
    passed or is the region of the instance, and by [create_bucket] when
    it is the region of the tag. The world is left exactly as it was. *)
Theorem unknown_region_rejected (r : string) (w : World srv) :
  assoc r NEBIUS_REGIONS = None →
  _s3_client (Some r) w = (Raise ValueError, w)
  ∧ (current_region (self w) = r → _s3_client None w = (Raise ValueError, w))
  ∧ (∀ region_tag_, region_of_tag region_tag_ = r →
       create_bucket region_tag_ w = (Raise ValueError, w)).
Proof.
  intros Ea. split; [|split].
  - unfold _s3_client. rewrite bind_run. cbn [mret M_ret]. by rewrite Ea.
  - intros Hr. destruct w as [[bn rp rg cl mc idn] cld d t].
    unfold current_region in Hr. cbn in Hr.
    destruct rg as [[|a r']|]; try (subst r; discriminate).
    subst r. unfold _s3_client, aws_region. rewrite !bind_run.
    unfold get_self at 1. cbn [self _region mret M_ret]. by rewrite Ea.
  - intros tag <-. unfold create_bucket. by rewrite Ea.
Qed.

End Clients.

Section ClientEndpoints.
Context `{Backend}.

(** X30. The clients target the endpoint of their region: if every
    cached client is the one built for its region - as on a new instance,
    whose cache is empty - then it is so after [_s3_client], and the
    client that [_s3_client] returns is the one built for the region
    asked for (the region of the instance when none is passed) with the
    endpoint [NEBIUS_REGIONS] gives for it. *)
Theorem s3_client_targets_endpoint (region : option string) (w : World srv) :
  clients_built_for_region (self w) →
  let r := _s3_client region w in
  let region := default (current_region (self w)) region in
  clients_built_for_region (self r.2)
  ∧ ∀ c, r.1 = Ok c →
         ∃ url, assoc region NEBIUS_REGIONS = Some url
                ∧ c = get_boto3_client region url.
Proof.
  intros Hok. cbv zeta.
  pose (rest := λ reg : string,
          match assoc reg NEBIUS_REGIONS with
          | None => raise ValueError
          | Some url =>
              s ← get_self;
              match _cached_s3_clients s !! reg with
              | Some c => mret c
              | None =>
                  let c := get_boto3_client reg url in
                  set_self
                    {| bucket_name := bucket_name s;
                       requester_pays := requester_pays s;
                       _region := _region s;
                       _cached_s3_clients := <[reg := c]> (_cached_s3_clients s);
                       metadata_cache := metadata_cache s;
                       identity := identity s |};;
                  mret c
              end
          end : M Client).
  assert (Hrun : ∀ (reg : string) (w0 : World srv),
            _cached_s3_clients (self w0) = _cached_s3_clients (self w) →
            clients_built_for_region (self (rest reg w0).2)
            ∧ ∀ c, (rest reg w0).1 = Ok c →
                   ∃ url, assoc reg NEBIUS_REGIONS = Some url
                          ∧ c = get_boto3_client reg url).
  { intros reg w0 Hcache. destruct (rest reg w0) as [o wf] eqn:Hrest.
    unfold rest in Hrest.
    destruct (assoc reg NEBIUS_REGIONS) as [url|] eqn:Ea.
    - rewrite bind_run in Hrest. unfold get_self in Hrest. cbv beta iota in Hrest.
      rewrite Hcache in Hrest.
      destruct (_cached_s3_clients (self w) !! reg) as [c|] eqn:Ec.
      + injection Hrest as <- <-. cbn [fst snd]. split.
        * intros r c'. rewrite Hcache. apply Hok.
        * intros c' [= <-]. destruct (Hok _ _ Ec) as (url' & Eu & ->).
          exists url'. split; [congruence|done].
      + rewrite bind_run in Hrest. unfold set_self in Hrest.
        cbn [mret M_ret] in Hrest. injection Hrest as <- <-. cbn [fst snd self].
        split.
        * intros r c'. cbn [_cached_s3_clients].
          destruct (decide (r = reg)) as [->|Hne].
          -- rewrite lookup_insert_eq. intros [= <-]. by exists url.
          -- rewrite lookup_insert_ne by done. apply Hok.
        * intros c' [= <-]. by exists url.
    - injection Hrest as <- <-. cbn [fst snd]. split; [|done].
      intros r c'. rewrite Hcache. apply Hok. }
  assert (Heq : ∃ w0, _cached_s3_clients (self w0) = _cached_s3_clients (self w)
                      ∧ _s3_client region w
                        = rest (default (current_region (self w)) region) w0).
  { unfold _s3_client, aws_region, current_region. fold rest.
    destruct region as [reg|]; cbn [default].
    - exists w. split; [done|]. rewrite bind_run. reflexivity.
    - rewrite bind_run. rewrite bind_run. unfold get_self at 1. cbv beta iota.
      destruct (_region (self w)) as [[|a reg]|] eqn:Er.
      + rewrite bind_run. unfold set_self at 1. cbn [mret M_ret].
        eexists. split; [|reflexivity]. reflexivity.
      + exists w. done.
      + rewrite bind_run. unfold set_self at 1. cbn [mret M_ret].
        eexists. split; [|reflexivity]. reflexivity. }
  destruct Heq as (w0 & Hcache & ->). by apply Hrun.
Qed.

End ClientEndpoints.

(** ** The methods the class ends up with *)

Section Effective.
Context `{Backend}.

(** X10. [get_obj_size], as the class ends up with it, asks the service on
    every call and never reads or fills the metadata cache; it returns the
    length the service reports, and every failure - no client for the
    region, a fault of the service, a response without a length - is
    raised as [NoSuchObjectException]. *)
Theorem get_obj_size_asks_every_time (key : string) (w : World srv) :
  let r := get_obj_size key w in
  let q := HeadObject (bucket_name (self w)) key in
  metadata_cache (self r.2) = metadata_cache (self w)
  ∧ if region_valid (self w)
    then wire r.2 = wire w ++ [(q, (serve q (cloud w)).1)]
         ∧ r.1 = match (serve q (cloud w)).1 with
                 | Answer (HeadObjectOutput md) => Ok (ContentLength md)
                 | _ => Raise NoSuchObjectException
                 end
    else wire r.2 = wire w ∧ r.1 = Raise NoSuchObjectException.
Proof.
  cbv zeta. destruct (get_obj_size key w) as [o wf] eqn:Hrun.
  unfold get_obj_size, try_except in Hrun.
  destruct (region_valid (self w)) eqn:Hv.
  - destruct (s3_client_ok w Hv) as (c & w1 & E & [Hc Hd Hw Hb Hp Hm Hr]).
    rewrite (bind_ok _ _ _ _ _ E) in Hrun.
    rewrite bind_run in Hrun. unfold get_self at 1 in Hrun. cbv beta iota in Hrun.
    rewrite bind_run in Hrun. unfold send in Hrun. rewrite Hb, Hc, Hw in Hrun.
    destruct (serve (HeadObject (bucket_name (self w)) key) (cloud w)) as [[a|e] s'].
    + destruct a; cbn in Hrun; injection Hrun as <- <-; done.
    + cbn in Hrun. injection Hrun as <- <-. done.
  - destruct (s3_client_invalid w Hv) as (w1 & E & Hc & Hd & Hw).
    rewrite (bind_raise _ _ _ _ _ E) in Hrun. cbn in Hrun. injection Hrun as <- <-.
    pose proof (s3_client_frame w) as F. cbv zeta in F. rewrite E in F.
    cbn [fst snd] in *. destruct F as (_ & _ & _ & _ & F). done.
Qed.

(** X11. [get_object] sends one request for the whole object - no range, and
    no requester-pays marker even on an instance that has it set - and
    returns the body; every failure is raised as [NoSuchObjectException].
    The local disk and the metadata cache are not touched. *)
Theorem get_object_body_or_not_found (key : string) (w : World srv) :
  region_valid (self w) = true →
  let r := get_object key w in
  let q := GetObject (bucket_name (self w)) key None false in
  wire r.2 = wire w ++ [(q, (serve q (cloud w)).1)]
  ∧ r.1 = match (serve q (cloud w)).1 with
          | Answer (GetObjectOutput Body _) => Ok Body
          | _ => Raise NoSuchObjectException
          end
  ∧ cloud r.2 = (serve q (cloud w)).2
  ∧ disk r.2 = disk w
  ∧ metadata_cache (self r.2) = metadata_cache (self w).
Proof.
  intros Hv. cbv zeta. destruct (get_object key w) as [o wf] eqn:Hrun.
  unfold get_object, try_except in Hrun.
  destruct (s3_client_ok w Hv) as (c & w1 & E & [Hc Hd Hw Hb Hp Hm Hr]).
  rewrite (bind_ok _ _ _ _ _ E) in Hrun.
  rewrite bind_run in Hrun. unfold get_self at 1 in Hrun. cbv beta iota in Hrun.
  rewrite bind_run in Hrun. unfold send in Hrun. rewrite Hb, Hc, Hw in Hrun.
  destruct (serve (GetObject (bucket_name (self w)) key None false) (cloud w))
    as [[a|e] s'].
  - destruct a; cbn in Hrun; injection Hrun as <- <-; done.
  - cbn in Hrun. injection Hrun as <- <-. done.
Qed.

(** X12. [upload_object], as the class ends up with it, either returns or
    raises a plain [Exception], whatever went wrong; when the local file
    does not exist nothing is sent. The local disk is never changed. *)
Theorem upload_object_raises_only_exception (local_path remote_path : string)
    (w : World srv) :
  let r := upload_object local_path remote_path w in
  (r.1 = Ok () ∨ r.1 = Raise Exception)
  ∧ disk r.2 = disk w
  ∧ (disk w !! local_path = None →
     r.1 = Raise Exception ∧ wire r.2 = wire w ∧ cloud r.2 = cloud w).
Proof.
  cbv zeta. destruct (upload_object local_path remote_path w) as [o wf] eqn:Hrun.
  unfold upload_object, try_except in Hrun.
  destruct (region_valid (self w)) eqn:Hv.
  - destruct (s3_client_ok w Hv) as (c & w1 & E & [Hc Hd Hw Hb Hp Hm Hr]).
    rewrite (bind_ok _ _ _ _ _ E) in Hrun.
    rewrite bind_run in Hrun. unfold get_self at 1 in Hrun. cbv beta iota in Hrun.
    unfold upload_file in Hrun.
    rewrite bind_run in Hrun. unfold read_disk at 1 in Hrun. cbv beta iota in Hrun.
    rewrite Hd in Hrun.
    destruct (disk w !! local_path) as [body|] eqn:Ef.
    + rewrite bind_run in Hrun. unfold send in Hrun.
      destruct (serve (UploadFile (bucket_name (self w1)) remote_path body) (cloud w1))
        as [[a|e] s']; cbn in Hrun; injection Hrun as <- <-; cbn;
        (split; [auto|]); (split; [done|]); discriminate.
    + cbn in Hrun. injection Hrun as <- <-. cbn. rewrite Hc, Hw. auto.
  - destruct (s3_client_invalid w Hv) as (w1 & E & Hc & Hd & Hw).
    rewrite (bind_raise _ _ _ _ _ E) in Hrun. cbn in Hrun. injection Hrun as <- <-.
    cbn. rewrite Hc, Hd, Hw. auto.
Qed.

End Effective.

(** ** More on downloads *)

Section MoreDownloads.
Context `{Backend}.

(** [download_object] from the request on. *)
Lemma download_object_from_request (src dst : string) (offset_bytes size_bytes : option nat)
    (write_at_offset generate_md5 : bool) (write_block_size : nat) (w : World srv) :
  region_valid (self w) = true →
  src ≠ EmptyString →
  truthy_int offset_bytes && negb (truthy_int size_bytes) = false →
  let q := GetObject (bucket_name (self w)) src (range_of offset_bytes size_bytes)
             (requester_pays (self w)) in
  let a := serve q (cloud w) in
  let s := self (_s3_client None w).2 in
  same_instance (self w) s ∧
    let world d := {| self := s; cloud := a.2; disk := d;
                      wire := wire w ++ [(q, a.1)] |} in
    download_object src dst offset_bytes size_bytes write_at_offset generate_md5
      write_block_size w
    = match a.1 with
      | Fault e => (Raise e, world (disk w))
      | Answer x =>
          match seek_target write_at_offset offset_bytes with
          | None => (Raise TypeError, world (<[dst := []]> (disk w)))
          | Some p =>
              match x with
              | GetObjectOutput Body ContentType =>
                  let f := copy_blocks write_block_size Body
                             {| content := []; pos := p;
                                digest_state :=
                                  if generate_md5 then Some hashlib.new else None |} in
                  (Ok (ContentType, hashlib.digest <$> digest_state f),
                   world (<[dst := content f]> (disk w)))
              | _ => (Raise KeyError, world (<[dst := []]> (disk w)))
              end
          end
      end.
Proof.
  intros Hv Hsrc Ha. cbv zeta.
  destruct (s3_client_ok w Hv) as (c & w1 & E & S1).
  pose proof (settled_same _ _ S1) as I1.
  destruct S1 as [Hc Hd Hw Hbn Hpay Hm Hreg].
  rewrite E. cbn [snd]. split; [exact I1|].
  unfold download_object.
  rewrite (bind_ok _ _ _ _ _ E).
  destruct src as [|a0 src]; [done|]. cbn [String.length Nat.ltb Nat.leb assert].
  rewrite bind_run. cbn [mret M_ret].
  rewrite Ha. cbn [negb assert].
  rewrite bind_run. cbn [mret M_ret].
  rewrite bind_run. unfold get_self at 1. cbv beta iota.
  rewrite bind_run. unfold send.
  fold (range_of offset_bytes size_bytes).
  fold (seek_target write_at_offset offset_bytes).
  rewrite Hbn, Hc, Hpay, Hw, Hd.
  destruct (serve (GetObject (bucket_name (self w)) (String a0 src)
                     (range_of offset_bytes size_bytes) (requester_pays (self w)))
              (cloud w)) as [[x|e] s']; cbn [fst snd]; [|reflexivity].
  rewrite bind_run. unfold read_disk at 1. cbv beta iota.
  unfold write_disk, mbind, M_bind, mret, M_ret, raise. cbn [disk self cloud wire].
  destruct (seek_target write_at_offset offset_bytes) as [p|];
    destruct (disk w !! dst) eqn:Ed; try destruct x;
    cbn [disk self cloud wire]; rewrite ?insert_insert_eq; reflexivity.
Qed.

(** X15. The block size only says how the copy is cut: two downloads that
    differ in nothing but their positive [write_block_size] return the
    same result and leave the same world. *)
Theorem download_block_size_irrelevant (src dst : string)
    (offset_bytes size_bytes : option nat) (write_at_offset generate_md5 : bool)
    (n1 n2 : nat) (w : World srv) :
  0 < n1 → 0 < n2 →
  download_object src dst offset_bytes size_bytes write_at_offset generate_md5 n1 w
  = download_object src dst offset_bytes size_bytes write_at_offset generate_md5 n2 w.
Proof.
  intros H1 H2.
  assert (Hcopy : ∀ body p m,
            copy_blocks n1 body {| content := []; pos := p; digest_state := m |}
            = copy_blocks n2 body {| content := []; pos := p; digest_state := m |}).
  { intros. by rewrite !copy_blocks_fresh. }
  destruct (region_valid (self w)) eqn:Hv.
  - destruct src as [|a0 src].
    + destruct (s3_client_ok w Hv) as (c & w1 & E & _).
      unfold download_object. rewrite !(bind_ok _ _ _ _ _ E). reflexivity.
    + destruct (truthy_int offset_bytes && negb (truthy_int size_bytes)) eqn:Ha.
      * destruct (s3_client_ok w Hv) as (c & w1 & E & _).
        unfold download_object. rewrite !(bind_ok _ _ _ _ _ E).
        cbn [String.length Nat.ltb Nat.leb assert]. rewrite !bind_run.
        cbn [mret M_ret]. rewrite Ha. reflexivity.
      * assert (Hsrc : String a0 src ≠ EmptyString) by done.
        destruct (download_object_from_request (String a0 src) dst offset_bytes
                    size_bytes write_at_offset generate_md5 n1 w Hv Hsrc Ha) as [_ E1].
        destruct (download_object_from_request (String a0 src) dst offset_bytes
                    size_bytes write_at_offset generate_md5 n2 w Hv Hsrc Ha) as [_ E2].
        cbv zeta in E1, E2. rewrite E1, E2.
        match goal with |- context [(serve ?q (cloud w)).1] =>
          destruct (serve q (cloud w)).1 as [x|e] end; [|reflexivity].
        destruct (seek_target write_at_offset offset_bytes) as [p|]; [|reflexivity].
        destruct x; try reflexivity. cbv zeta. by rewrite Hcopy.
  - destruct (s3_client_invalid w Hv) as (w1 & E & _).
    unfold download_object. rewrite !(bind_raise _ _ _ _ _ E). reflexivity.
Qed.

(** X16. A [write_block_size] of zero copies nothing: [read(0)] returns no
    bytes and the loop ends at once. The call returns as if it had
    succeeded - with the MD5 of the empty string when a digest is asked
    for - and leaves the destination file empty, whatever the object
    holds. *)
Theorem download_block_size_zero (src dst : string) (offset_bytes size_bytes : option nat)
    (write_at_offset generate_md5 : bool) (p : nat) (Body : list byte)
    (ContentType : string) (w : World srv) :
  region_valid (self w) = true →
  src ≠ EmptyString →
  truthy_int offset_bytes && negb (truthy_int size_bytes) = false →
  seek_target write_at_offset offset_bytes = Some p →
  (serve (GetObject (bucket_name (self w)) src (range_of offset_bytes size_bytes)
            (requester_pays (self w))) (cloud w)).1
    = Answer (GetObjectOutput Body ContentType) →
  let r := download_object src dst offset_bytes size_bytes write_at_offset
             generate_md5 0 w in
  r.1 = Ok (ContentType, if generate_md5 then Some (hashlib.md5_digest []) else None)
  ∧ disk r.2 = <[dst := []]> (disk w).
Proof.
  intros Hv Hsrc Ha Hp Hq. cbv zeta.
  destruct (download_object_from_request src dst offset_bytes size_bytes write_at_offset
              generate_md5 0 w Hv Hsrc Ha) as [_ E].
  cbv zeta in E. rewrite E, Hq, Hp. rewrite copy_blocks_step. cbn [take].
  cbn [fst snd disk content digest_state]. by destruct generate_md5.
Qed.

(** X17. An empty object name is refused by the assertion before anything is
    sent, by [download_object] and by [initiate_multipart_upload]. *)
Theorem empty_name_asserts (dst : string) (offset_bytes size_bytes : option nat)
    (write_at_offset generate_md5 : bool) (write_block_size : nat)
    (mime_type_ : option string) (w : World srv) :
  region_valid (self w) = true →
  let d := download_object "" dst offset_bytes size_bytes write_at_offset
             generate_md5 write_block_size w in
  let i := initiate_multipart_upload "" mime_type_ w in
  (d.1 = Raise AssertionError
   ∧ wire d.2 = wire w ∧ cloud d.2 = cloud w ∧ disk d.2 = disk w)
  ∧ (i.1 = Raise AssertionError
     ∧ wire i.2 = wire w ∧ cloud i.2 = cloud w ∧ disk i.2 = disk w).
Proof.
  intros Hv. cbv zeta.
  destruct (s3_client_ok w Hv) as (c & w1 & E & [Hc Hd Hw Hbn Hpay Hm Hreg]).
  unfold download_object, initiate_multipart_upload.
  rewrite !(bind_ok _ _ _ _ _ E). cbn. done.
Qed.

(** X18. [write_at_offset] without an offset: the object is fetched (whole,
    or whatever the request returns), the destination file is created or
    emptied, and then the seek to [None] raises [TypeError]. What the file
    held before is lost although nothing was downloaded into it. *)
Theorem download_at_offset_without_offset (src dst : string) (size_bytes : option nat)
    (generate_md5 : bool) (write_block_size : nat) (x : response) (w : World srv) :
  region_valid (self w) = true →
  src ≠ EmptyString →
  let q := GetObject (bucket_name (self w)) src None (requester_pays (self w)) in
  (serve q (cloud w)).1 = Answer x →
  let r := download_object src dst None size_bytes true generate_md5
             write_block_size w in
  r.1 = Raise TypeError
  ∧ wire r.2 = wire w ++ [(q, Answer x)]
  ∧ disk r.2 = <[dst := []]> (disk w).
Proof.
  intros Hv Hsrc q Hq. cbv zeta.
  destruct (download_object_from_request src dst None size_bytes true
              generate_md5 write_block_size w Hv Hsrc eq_refl) as [_ E].
  cbv zeta in E. change (range_of None size_bytes) with (@None (Z * Z)) in E.
  fold q in E. rewrite E, Hq. done.
Qed.

(** X19. When the request for the object fails, the exception of the service
    is raised as it is, and the local disk is as before: the destination
    file is neither created nor emptied. *)
Theorem download_failure_keeps_file (src dst : string)
    (offset_bytes size_bytes : option nat) (write_at_offset generate_md5 : bool)
    (write_block_size : nat) (e : exn) (w : World srv) :
  region_valid (self w) = true →
  src ≠ EmptyString →
  truthy_int offset_bytes && negb (truthy_int size_bytes) = false →
  (serve (GetObject (bucket_name (self w)) src (range_of offset_bytes size_bytes)
            (requester_pays (self w))) (cloud w)).1 = Fault e →
  let r := download_object src dst offset_bytes size_bytes write_at_offset
             generate_md5 write_block_size w in
  r.1 = Raise e ∧ disk r.2 = disk w.
Proof.
  intros Hv Hsrc Ha Hq. cbv zeta.
  destruct (download_object_from_request src dst offset_bytes size_bytes write_at_offset
              generate_md5 write_block_size w Hv Hsrc Ha) as [_ E].
  cbv zeta in E. rewrite E, Hq. done.
Qed.

End MoreDownloads.

(** ** More on deletion *)

Section MoreDeletion.
Context `{Backend}.

Lemma batched_total {A : Type} (l : list A) : ∃ bs, batched l bs.
Proof.
  remember (length l) as n eqn:Hn. revert l Hn.
  induction n as [n IH] using lt_wf_ind. intros [|x l] Hn.
  - eexists. constructor.
  - assert (Hlt : length (drop 1000 (x :: l)) < n).
    { subst n. rewrite length_drop. cbn [length]. lia. }
    destruct (IH _ Hlt _ eq_refl) as [bs Hbs].
    eexists. constructor. exact Hbs.
Qed.

Lemma delete_batches_wire (c : Client) (b : string) (keys : list string) :
  ∀ w : World srv,
    ∃ bs rs,
      batched keys bs ∧
      let r := delete_batches c b keys w in
      self r.2 = self w ∧ disk r.2 = disk w
      ∧ cloud r.2 = after_exchanges (drop (length (wire w)) (wire r.2)) (cloud w)
      ∧ match r.1 with
        | Ok _ =>
            length rs = length bs
            ∧ wire r.2 = wire w ++ answered_batches b bs rs
        | Raise e =>
            ∃ batch,
              bs !! length rs = Some batch
              ∧ wire r.2 = wire w ++ answered_batches b bs rs
                             ++ [(DeleteObjects b batch, Fault e)]
        | OutOfFuel => False
        end.
Proof.
  remember (length keys) as n eqn:Hn. revert keys Hn.
  induction n as [n IH] using lt_wf_ind. intros keys Hn w.
  destruct keys as [|k ks].
  - exists [], []. split; [constructor|]. rewrite delete_batches_equation_1.
    cbn [fst snd mret M_ret]. rewrite app_nil_r, drop_all. done.
  - assert (Hlt : length (drop 1000 (k :: ks)) < n).
    { subst n. rewrite length_drop. cbn [length]. lia. }
    rewrite delete_batches_equation_2. cbv zeta. rewrite bind_run. unfold send.
    set (batch := take 1000 (k :: ks)).
    destruct (serve (DeleteObjects b batch) (cloud w)) as [[a|e] s'] eqn:Es.
    + set (w1 := {| self := self w; cloud := s'; disk := disk w;
                    wire := wire w ++ [(DeleteObjects b batch, Answer a)] |}).
      destruct (IH _ Hlt (drop 1000 (k :: ks)) eq_refl w1)
        as (bs & rs & Hbs & Hs & Hd & Hc & Hout).
      exists (batch :: bs), (a :: rs). split; [by constructor|].
      split; [exact Hs|]. split; [exact Hd|].
      assert (Hwire : ∀ xs, wire (delete_batches c b (drop 1000 (k :: ks)) w1).2
                            = wire w1 ++ xs →
                cloud (delete_batches c b (drop 1000 (k :: ks)) w1).2
                = after_exchanges
                    (drop (length (wire w))
                       (wire (delete_batches c b (drop 1000 (k :: ks)) w1).2))
                    (cloud w)).
      { intros xs Hxs. rewrite Hc, Hxs. subst w1. cbn [wire cloud].
        rewrite drop_app_length. rewrite <- app_assoc, drop_app_length.
        cbn [app after_exchanges foldl fst]. by rewrite Es. }
      destruct (delete_batches c b (drop 1000 (k :: ks)) w1) as [[[]|e|] wf];
        cbn [fst snd] in *; [| |done].
      * destruct Hout as [Hlen Hw]. split; [by apply (Hwire _ Hw)|].
        split; [cbn [length]; congruence|].
        rewrite Hw. subst w1. cbn [wire]. by rewrite <- app_assoc.
      * destruct Hout as (last & Hlast & Hw). split; [by apply (Hwire _ Hw)|].
        exists last. split; [exact Hlast|].
        rewrite Hw. subst w1. cbn [wire]. by rewrite <- !app_assoc.
    + destruct (batched_total (drop 1000 (k :: ks))) as [bs Hbs].
      exists (batch :: bs), []. split; [by constructor|].
      cbn [fst snd self disk cloud wire]. split; [done|]. split; [done|].
      split; [rewrite drop_app_length; unfold after_exchanges; cbn [foldl fst];
              by rewrite Es|].
      exists batch. done.
Qed.

(** X5. On any service, [delete_objects] sends the batches in order and
    stops at the first one the service refuses: the exception of that
    batch is raised, the batches before it have been answered and stay
    deleted (nothing is sent to undo them: the service is as the requests
    sent left it), and the batches after it are never sent. It returns
    only when every batch was answered. *)
Theorem delete_objects_stops_at_fault (keys : list string) (w : World srv) :
  region_valid (self w) = true →
  ∃ (batches : list (list string)) (answers : list response),
    batched keys batches ∧
    let r := delete_objects keys w in
    let b := bucket_name (self w) in
    disk r.2 = disk w
    ∧ cloud r.2 = after_exchanges (drop (length (wire w)) (wire r.2)) (cloud w)
    ∧ match r.1 with
      | Ok _ =>
          length answers = length batches
          ∧ wire r.2 = wire w ++ answered_batches b batches answers
      | Raise e =>
          ∃ batch,
            batches !! length answers = Some batch
            ∧ wire r.2 = wire w ++ answered_batches b batches answers
                           ++ [(DeleteObjects b batch, Fault e)]
      | OutOfFuel => False
      end.
Proof.
  intros Hv. destruct (s3_client_ok w Hv) as (c & w1 & E & [Hc Hd Hw Hbn Hp Hm Hr]).
  assert (Hdo : delete_objects keys w = delete_batches c (bucket_name (self w)) keys w1).
  { unfold delete_objects. rewrite (bind_ok _ _ _ _ _ E).
    rewrite bind_run. unfold get_self at 1. cbv beta iota. by rewrite Hbn. }
  destruct (delete_batches_wire c (bucket_name (self w)) keys w1)
    as (bs & rs & Hbs & Hs & Hd' & Hc' & Hout).
  exists bs, rs. split; [exact Hbs|]. cbv zeta in *. rewrite Hdo.
  rewrite Hw in Hout, Hc'. rewrite Hc in Hc'. rewrite Hd in Hd'.
  split; [exact Hd'|]. split; [exact Hc'|]. exact Hout.
Qed.

End MoreDeletion.

(** ** More on the metadata cache *)

Section MoreCache.
Context `{Backend}.

(** X8. A lookup of a name that is not cached for the object asks the
    service once. An answer is returned and stored in the cache; a fault
    is raised - [NoSuchObjectException] in place of a [ClientError], any
    other exception as it is - and leaves the cache as it was: failures
    are not cached, so the next lookup asks again. *)
Theorem metadata_failures_not_cached (obj_name : string) (w : World srv) :
  region_valid (self w) = true →
  cached (key_of (self w) obj_name) (metadata_cache (self w)) = None →
  let q := HeadObject (bucket_name (self w)) obj_name in
  let r := get_obj_metadata obj_name w in
  wire r.2 = wire w ++ [(q, (serve q (cloud w)).1)]
  ∧ match (serve q (cloud w)).1 with
    | Answer x =>
        r.1 = Ok x
        ∧ metadata_cache (self r.2)
          = lru_store (key_of (self w) obj_name) x (metadata_cache (self w))
    | Fault e =>
        r.1 = Raise (if is_ClientError e then NoSuchObjectException else e)
        ∧ metadata_cache (self r.2) = metadata_cache (self w)
    end.
Proof.
  intros Hv Hmiss. cbv zeta.
  destruct (get_obj_metadata obj_name w) as [o wf] eqn:Hrun.
  rewrite (get_obj_metadata_miss _ _ Hmiss) in Hrun.
  destruct (s3_client_ok w Hv) as (c & w1 & E & [Hc Hd Hw Hbn Hp Hm Hr]).
  unfold get_obj_metadata__wrapped__, try_except in Hrun.
  rewrite (bind_ok _ _ _ _ _ E) in Hrun.
  rewrite bind_run in Hrun. unfold get_self at 1 in Hrun. cbv beta iota in Hrun.
  unfold send in Hrun. rewrite Hbn, Hc, Hw in Hrun.
  destruct (serve (HeadObject (bucket_name (self w)) obj_name) (cloud w)) as [[x|e] s'];
    cbn [fst snd].
  - cbn in Hrun. injection Hrun as <- <-. cbn. by rewrite Hm.
  - destruct (is_ClientError e); cbn in Hrun; injection Hrun as <- <-; cbn;
      by rewrite Hm.
Qed.

End MoreCache.

(** ** More on multipart uploads *)

Section MoreMultipart.
Context `{Backend}.

(** [initiate_multipart_upload] as one exchange: the request names the
    bucket and the key, with the content type only when a non-empty one
    was given. *)
Lemma initiate_multipart_upload_run (dst_object_name : string)
    (mime_type_ : option string) (w : World srv) :
  region_valid (self w) = true →
  dst_object_name ≠ EmptyString →
  let q := CreateMultipartUpload (bucket_name (self w)) dst_object_name
             (match mime_type_ with
              | Some (String a m) => Some (String a m)
              | _ => None
              end) in
  let a := serve q (cloud w) in
  let s := self (_s3_client None w).2 in
  same_instance (self w) s
  ∧ initiate_multipart_upload dst_object_name mime_type_ w
    = (match a.1 with
       | Answer (CreateMultipartUploadOutput (Some UploadId)) => Ok UploadId
       | Answer _ => Raise SkyplaneException
       | Fault e => Raise e
       end,
       {| self := s; cloud := a.2; disk := disk w; wire := wire w ++ [(q, a.1)] |}).
Proof.
  intros Hv Hdst. cbv zeta.
  destruct (s3_client_ok w Hv) as (c & w1 & E & S1).
  pose proof (settled_same _ _ S1) as I1. destruct S1 as [Hc Hd Hw Hbn Hp Hm Hr].
  rewrite E. cbn [snd]. split; [exact I1|].
  unfold initiate_multipart_upload.
  rewrite (bind_ok _ _ _ _ _ E).
  destruct dst_object_name as [|a0 dst]; [done|].
  cbn [String.length Nat.ltb Nat.leb assert].
  rewrite bind_run. cbn [mret M_ret].
  rewrite bind_run. unfold get_self at 1. cbv beta iota.
  rewrite bind_run. unfold send. rewrite Hbn, Hc, Hw, Hd.
  assert (Hmime : (if truthy_str mime_type_ then mime_type_ else None)
                  = match mime_type_ with
                    | Some (String a m) => Some (String a m)
                    | _ => None
                    end) by (by destruct mime_type_ as [[|]|]).
  rewrite Hmime.
  match goal with |- context [serve ?q (cloud w)] =>
    destruct (serve q (cloud w)) as [[x|e] s'] end; [|reflexivity].
  by destruct x as [| | | |[id|]| | |].
Qed.

End MoreMultipart.

(** ** Multipart sessions on the reference service *)

Section Fuel.
Context `{Backend}.

(** A listing that ended ends the same way with a larger budget. *)
Lemma list_all_parts_fuel (c : Client) (b dst uid : string) (fuel : nat) :
  ∀ (fuel' : nat) (acc : list Part) (w : World srv),
    fuel ≤ fuel' →
    (list_all_parts fuel c b dst uid acc w).1 ≠ OutOfFuel →
    list_all_parts fuel' c b dst uid acc w = list_all_parts fuel c b dst uid acc w.
Proof.
  induction fuel as [|fuel IH]; intros fuel' acc w Hle Hout; [done|].
  destruct fuel' as [|fuel']; [lia|].
  cbn [list_all_parts] in *. rewrite !bind_run in *.
  destruct (send c (ListParts b dst 100 uid (length acc)) w) as [[a|e|] w1]; [|done..].
  destruct a as [| | | | | [[|p ps]|] | |]; try done.
  apply IH; [lia | done].
Qed.

Lemma complete_multipart_upload_fuel (dst uid : string) (fuel fuel' : nat)
    (w : World srv) :
  fuel ≤ fuel' →
  (complete_multipart_upload fuel dst uid w).1 ≠ OutOfFuel →
  complete_multipart_upload fuel' dst uid w = complete_multipart_upload fuel dst uid w.
Proof.
  intros Hle. unfold complete_multipart_upload. rewrite !bind_run.
  destruct (_s3_client None w) as [[c|e|] w1]; [|done..].
  rewrite !bind_run. unfold get_self. cbv beta iota. rewrite !bind_run.
  intros Hout.
  rewrite (list_all_parts_fuel c (bucket_name (self w1)) dst uid fuel fuel' [] w1 Hle).
  - reflexivity.
  - by destruct (list_all_parts fuel c (bucket_name (self w1)) dst uid [] w1)
      as [[all|e|] w2].
Qed.

End Fuel.

(** X24. On the reference service the listing loop of
    [complete_multipart_upload] always ends: part numbers are bounded
    (by 10000 on S3), and with a budget of more iterations than the
    largest part number of the session the call returns or raises, and
    does so in the same way with any larger budget - for sessions with
    gaps in their part numbers too. *)
Theorem multipart_completion_terminates (dst uid : string) (N fuel fuel' : nat)
    (w : World S3.store) :
  (∀ u, S3.uploads (cloud w) !! uid = Some u →
        Forall (λ np, np.1 ≤ N) (S3.u_parts u)) →
  N < fuel → fuel ≤ fuel' →
  (complete_multipart_upload fuel dst uid w).1 ≠ OutOfFuel
  ∧ complete_multipart_upload fuel' dst uid w = complete_multipart_upload fuel dst uid w.
Proof.
  intros Hu Hlt Hle.
  pose proof (complete_multipart_upload_ends dst uid N fuel w Hu Hlt) as Hend.
  split; [exact Hend|]. by apply (@complete_multipart_upload_fuel S3.service).
Qed.

(** In a session whose parts are numbered from [a + 1] on without gaps,
    the parts above a marker are the parts after the first [n - a]. *)
Lemma filter_marker (ps : list (nat * S3.part)) :
  ∀ a n, ps.*1 = seq (S a) (length ps) → a ≤ n →
    filter (λ np, n < np.1) ps = drop (n - a) ps.
Proof.
  induction ps as [|[m p] ps IH]; intros a n Hs Hle; [by rewrite drop_nil|].
  cbn in Hs. injection Hs as -> Hs.
  destruct (decide (n = a)) as [->|Hne].
  - rewrite Nat.sub_diag. cbn [drop].
    apply filter_Forall_id.
    apply Forall_cons. split; [cbn; lia|].
    apply Forall_forall. intros [m q] Hin. cbn.
    assert (Hm : m ∈ seq (S (S a)) (length ps)).
    { rewrite <- Hs. apply list_elem_of_fmap. by exists (m, q). }
    apply elem_of_seq in Hm. lia.
  - rewrite filter_cons_False by (cbn; lia).
    rewrite (IH (S a) n Hs) by lia.
    replace (n - a) with (S (n - S a)) by lia. reflexivity.
Qed.

Lemma list_all_parts_contiguous (c : Client) (b dst uid : string) (u : S3.upload)
    (fuel : nat) :
  ∀ (acc : list Part) (w : World S3.store),
    S3.uploads (cloud w) !! uid = Some u →
    (S3.u_parts u).*1 = seq 1 (length (S3.u_parts u)) →
    acc = S3.listed <$> take (length acc) (S3.u_parts u) →
    length (S3.u_parts u) - length acc < fuel →
    ∃ w',
      list_all_parts fuel c b dst uid acc w = (Ok (S3.listed <$> S3.u_parts u), w')
      ∧ self w' = self w ∧ cloud w' = cloud w ∧ disk w' = disk w.
Proof.
  induction fuel as [|fuel IH]; intros acc w Hu Hs Hacc Hlt; [lia|].
  assert (Hn : length acc ≤ length (S3.u_parts u)).
  { rewrite Hacc at 1. rewrite length_fmap, length_take. lia. }
  cbn [list_all_parts]. rewrite (@bind_run S3.service). unfold send.
  cbn [serve S3.service S3.answer].
  change (@srv S3.service) with S3.store in *. rewrite Hu.
  rewrite (filter_marker _ 0 (length acc) Hs) by lia. rewrite Nat.sub_0_r.
  destruct (take 100 (drop (length acc) (S3.u_parts u))) as [|np nps] eqn:Epage.
  - assert (Hdrop : drop (length acc) (S3.u_parts u) = []).
    { destruct (drop (length acc) (S3.u_parts u)); [done|discriminate]. }
    assert (Hall : acc = S3.listed <$> S3.u_parts u).
    { assert (Htake : take (length acc) (S3.u_parts u) = S3.u_parts u).
      { rewrite <- (app_nil_r (take _ _)), <- Hdrop. apply take_drop. }
      by rewrite Htake in Hacc. }
    eexists. cbn. rewrite <- Hall. split; [reflexivity|]. done.
  - cbn [fmap list_fmap].
    set (w1 := {| self := self w; cloud := cloud w; disk := disk w; wire := _ |}).
    assert (Hpage : S3.listed np :: (S3.listed <$> nps) = S3.listed <$> (np :: nps))
      by reflexivity.
    rewrite Hpage. rewrite <- Epage.
    assert (Hlen : length (take 100 (drop (length acc) (S3.u_parts u)))
                   = 100 `min` (length (S3.u_parts u) - length acc)).
    { by rewrite length_take, length_drop. }
    assert (Hpos : 0 < length (take 100 (drop (length acc) (S3.u_parts u))))
      by (rewrite Epage; cbn; lia).
    destruct (IH (acc ++ (S3.listed <$> take 100 (drop (length acc) (S3.u_parts u)))) w1)
      as (w' & E & Hs' & Hc' & Hd').
    + exact Hu.
    + exact Hs.
    + rewrite length_app, length_fmap. rewrite Hacc at 1.
      rewrite <- fmap_app. f_equal. rewrite take_take_drop.
      destruct (decide (100 ≤ length (S3.u_parts u) - length acc)) as [Hge|Hlt'].
      * f_equal. lia.
      * rewrite !take_ge by lia. reflexivity.
    + rewrite length_app, length_fmap. lia.
    + exists w'. split; [exact E|]. done.
Qed.

Lemma sorted_id {A : Type} (key : A → nat) (l : list A) :
  StronglySorted le (key <$> l) → sorted key l = l.
Proof.
  induction l as [|x l IH]; [done|]. cbn [fmap list_fmap].
  intros Hs. apply StronglySorted_inv in Hs as [Hs Hx].
  unfold sorted in *. cbn [foldr]. rewrite (IH Hs).
  destruct l as [|y l]; [done|]. cbn [insert_by].
  apply Forall_cons in Hx as [Hxy _]. cbn in Hxy.
  by rewrite (proj2 (Nat.leb_le _ _) Hxy).
Qed.

Lemma seq_sorted (a n : nat) : StronglySorted le (seq a n).
Proof.
  revert a. induction n as [|n IH]; intros a; [constructor|].
  cbn [seq]. constructor; [apply IH|].
  apply Forall_forall. intros m Hm. apply elem_of_seq in Hm. lia.
Qed.

Lemma ascending_seq (a n : nat) : S3.ascending (seq a n) = true.
Proof.
  revert a. induction n as [|n IH]; intros a; [done|].
  specialize (IH (S a)). destruct n as [|n]; [done|].
  cbn [seq S3.ascending] in *. rewrite IH.
  by rewrite (proj2 (Nat.ltb_lt _ _) (Nat.lt_succ_diag_r a)).
Qed.

Lemma assoc_nat_elem (ps : list (nat * S3.part)) (n : nat) (p : S3.part) :
  NoDup ps.*1 → (n, p) ∈ ps → S3.assoc_nat n ps = Some p.
Proof.
  induction ps as [|[m q] ps IH]; [by intros _ ?%elem_of_nil|].
  cbn. intros [Hnin Hnd]%NoDup_cons [Heq|Hin]%elem_of_cons.
  - injection Heq as -> ->. by rewrite Nat.eqb_refl.
  - destruct (Nat.eqb_spec n m) as [->|Hne]; [|by apply IH].
    exfalso. apply Hnin. apply list_elem_of_fmap. by exists (m, p).
Qed.

Lemma assemble_parts (ps sub : list (nat * S3.part)) :
  NoDup ps.*1 → sub ⊆ ps →
  S3.assemble ps (part_entry <$> (S3.listed <$> sub))
  = Some (concat ((λ np, S3.data np.2) <$> sub)).
Proof.
  intros Hnd. induction sub as [|[n p] sub IH]; intros Hsub; [done|].
  rewrite !fmap_cons.
  cbn [S3.assemble part_entry S3.listed PartNumber ETag fst snd].
  rewrite (assoc_nat_elem ps n p Hnd) by (apply Hsub, elem_of_cons; by left).
  destruct (String.eqb_spec (S3.etag p) (S3.etag p)) as [_|Hne]; [|done].
  rewrite IH.
  - reflexivity.
  - intros x Hx. apply Hsub, elem_of_cons. by right.
Qed.

(** X23. A session whose parts are numbered 1, 2, ..., P without gaps is
    completed: with a budget of more iterations than it has parts,
    [complete_multipart_upload] pages through the listing, submits the
    parts and returns; the object then holds the data of the parts in
    the order of their numbers, and the session is gone. *)
Theorem contiguous_session_assembles (dst uid : string) (u : S3.upload) (fuel : nat)
    (w : World S3.store) :
  region_valid (self w) = true →
  S3.uploads (cloud w) !! uid = Some u →
  S3.u_parts u ≠ [] →
  (S3.u_parts u).*1 = seq 1 (length (S3.u_parts u)) →
  length (S3.u_parts u) < fuel →
  let r := complete_multipart_upload fuel dst uid w in
  r.1 = Ok ()
  ∧ (∃ o, S3.buckets (cloud r.2) !! S3.u_bucket u ≫= (.!! S3.u_key u) = Some o
          ∧ S3.body o = concat ((λ np, S3.data np.2) <$> S3.u_parts u))
  ∧ S3.uploads (cloud r.2) !! uid = None.
Proof.
  intros Hv Hu Hne Hs Hlt. cbv zeta.
  destruct (@complete_multipart_upload S3.service fuel dst uid w) as [o wf] eqn:Hrun.
  unfold complete_multipart_upload in Hrun.
  destruct (@s3_client_ok S3.service w Hv) as (c & w1 & E & [Hc Hd Hw Hbn Hp Hm Hr]).
  rewrite (@bind_ok S3.service _ _ _ _ _ _ _ E) in Hrun.
  rewrite (@bind_run S3.service) in Hrun. unfold get_self at 1 in Hrun.
  cbv beta iota in Hrun.
  change (@srv S3.service) with S3.store in *.
  assert (Hu1 : S3.uploads (cloud w1) !! uid = Some u) by (by rewrite Hc).
  destruct (list_all_parts_contiguous c (bucket_name (self w1)) dst uid u fuel [] w1
              Hu1 Hs eq_refl) as (w2 & E2 & Hs2 & Hc2 & Hd2); [cbn [length]; lia|].
  rewrite (@bind_ok S3.service _ _ _ _ _ _ _ E2) in Hrun.
  rewrite sorted_id in Hrun.
  2:{ rewrite <- list_fmap_compose.
      change (PartNumber ∘ S3.listed) with (@fst nat S3.part).
      rewrite Hs. apply seq_sorted. }
  rewrite (@bind_run S3.service) in Hrun. unfold send in Hrun.
  cbn [serve S3.service S3.answer] in Hrun.
  change (@srv S3.service) with S3.store in *.
  rewrite Hc2, Hc, Hu in Hrun.
  assert (Hnums : (part_entry <$> (S3.listed <$> S3.u_parts u)).*1
                  = seq 1 (length (S3.u_parts u))).
  { rewrite <- Hs. rewrite <- !list_fmap_compose. reflexivity. }
  rewrite Hnums, ascending_seq in Hrun. cbn [negb] in Hrun.
  rewrite (assemble_parts (S3.u_parts u) (S3.u_parts u)) in Hrun.
  2:{ rewrite Hs. apply NoDup_seq. }
  2:{ done. }
  destruct (part_entry <$> (S3.listed <$> S3.u_parts u)) as [|e es] eqn:Ees.
  { apply fmap_nil_inv, fmap_nil_inv in Ees. done. }
  cbn in Hrun. injection Hrun as <- <-. cbn [fst snd cloud].
  split; [done|]. split.
  - eexists. split.
    + unfold S3.put. cbn. rewrite lookup_insert_eq. cbn. apply lookup_insert_eq.
    + reflexivity.
  - unfold S3.put. cbn. apply lookup_delete_eq.
Qed.

(** X22. [initiate_multipart_upload] on a service that holds the bucket opens
    a session for the key, with the content type when a non-empty one
    was given and with no parts, and returns its id; the objects of the
    service are as before. Completing that session before any part is
    uploaded fails: the listing is empty, the completion request lists no
    part, and the error of the service is raised. *)
Theorem initiated_session_is_empty (dst_object_name : string)
    (mime_type_ : option string) (fuel : nat) (w : World S3.store) :
  region_valid (self w) = true →
  dst_object_name ≠ EmptyString →
  is_Some (S3.buckets (cloud w) !! bucket_name (self w)) →
  let r := initiate_multipart_upload dst_object_name mime_type_ w in
  ∃ upload_id,
    r.1 = Ok upload_id
    ∧ S3.uploads (cloud r.2) !! upload_id
      = Some {| S3.u_bucket := bucket_name (self w); S3.u_key := dst_object_name;
                S3.u_content_type :=
                  match mime_type_ with
                  | Some (String a m) => Some (String a m)
                  | _ => None
                  end;
                S3.u_parts := [] |}
    ∧ S3.buckets (cloud r.2) = S3.buckets (cloud w)
    ∧ (complete_multipart_upload (S fuel) dst_object_name upload_id r.2).1
      = Raise (ClientError (Some "MalformedXML")).
Proof.
  intros Hv Hdst [objs Hb]. cbv zeta.
  destruct (@initiate_multipart_upload_run S3.service dst_object_name mime_type_ w
              Hv Hdst) as [I E].
  cbv zeta in E. cbn [serve S3.service S3.answer] in E.
  change (@srv S3.service) with S3.store in *. rewrite Hb in E. cbn [fst snd] in E.
  rewrite E. cbn [fst snd cloud].
  eexists. split; [reflexivity|].
  match goal with |- context [S3.with_uploads (<[?i := ?u]> _) _] =>
    set (id := i); set (u0 := u) end.
  split; [apply lookup_insert_eq|]. split; [reflexivity|].
  match goal with |- (complete_multipart_upload _ _ _ ?w').1 = _ => set (w1 := w') end.
  assert (Hv1 : region_valid (self w1) = true) by (by apply (same_valid _ _ I)).
  assert (Hu1 : S3.uploads (cloud w1) !! id = Some u0) by apply lookup_insert_eq.
  destruct (@s3_client_ok S3.service w1 Hv1) as (c & w2 & E2 & [Hc Hd Hw Hbn Hp Hm Hr]).
  unfold complete_multipart_upload.
  rewrite (@bind_ok S3.service _ _ _ _ _ _ _ E2).
  rewrite (@bind_run S3.service). unfold get_self at 1. cbv beta iota.
  rewrite (@bind_run S3.service). cbn [list_all_parts].
  rewrite (@bind_run S3.service). unfold send at 1.
  cbn [serve S3.service S3.answer].
  change (@srv S3.service) with S3.store in *. rewrite Hc, Hu1.
  cbn [S3.u_parts u0 filter list_filter take fst snd mret M_ret].
  rewrite (@bind_run S3.service). unfold send.
  cbn [serve S3.service S3.answer cloud sorted foldr fmap list_fmap].
  change (@srv S3.service) with S3.store in *. rewrite Hu1. reflexivity.
Qed.

(** ** The shadowed upload *)


Section ShadowedUploads.
Context `{Backend}.

End ShadowedUploads.

(** ** On the reference service *)

Lemma lists_bucket_reference (b : string) (s : S3.store) :
  lists_bucket b (S3.answer ListBuckets s).1
  = bool_decide (is_Some (S3.buckets s !! b)).
Proof.
  cbn. apply bool_decide_ext. rewrite list_elem_of_fmap. split.
  - intros ([k objs] & -> & Hin). apply elem_of_map_to_list in Hin. by exists objs.
  - intros [objs Hb]. exists (b, objs). split; [done|]. by apply elem_of_map_to_list.
Qed.

Lemma create_bucket_run (region_tag_ : string) (w : World S3.store) :
  is_Some (assoc (region_of_tag region_tag_) NEBIUS_REGIONS) →
  S3.buckets (cloud w) !! bucket_name (self w) = None →
  ∃ w',
    create_bucket region_tag_ w = (Ok (), w')
    ∧ region_valid (self w') = true
    ∧ bucket_name (self w') = bucket_name (self w)
    ∧ requester_pays (self w') = requester_pays (self w)
    ∧ metadata_cache (self w') = metadata_cache (self w)
    ∧ disk w' = disk w
    ∧ cloud w' = S3.with_buckets (<[bucket_name (self w) := ∅]> (S3.buckets (cloud w)))
                   (cloud w)
    ∧ (wire w').*1 = (wire w).*1
                     ++ [ListBuckets; CreateBucket (bucket_name (self w)); ListBuckets].
Proof.
  intros Hv Hb. pose proof (assoc_region _ Hv) as Er.
  destruct (@create_bucket S3.service region_tag_ w) as [o wf] eqn:Hrun.
  unfold create_bucket in Hrun. rewrite Er in Hrun.
  change (assoc "eu-north1" NEBIUS_REGIONS)
    with (Some "https://storage.eu-north1.nebius.cloud") in Hrun.
  cbv beta iota zeta in Hrun.
  rewrite (@bind_run S3.service) in Hrun. unfold get_self at 1 in Hrun.
  cbv beta iota in Hrun.
  rewrite (@bind_run S3.service) in Hrun. unfold set_self at 1 in Hrun.
  cbv beta iota in Hrun.
  match type of Hrun with _ ?x = _ => set (w0 := x) in Hrun end.
  assert (Hr0 : _region (self w0) = Some "eu-north1") by reflexivity.
  destruct (@s3_client_region_ok S3.service w0 Hr0) as (c & w1 & E & S1).
  rewrite (@bind_ok S3.service _ _ _ _ _ _ _ E) in Hrun.
  assert (Hv1 : region_valid (self w1) = true).
  { unfold region_valid, current_region. by rewrite (settled_region _ _ S1). }
  destruct (@bucket_exists_same S3.service w1 Hv1) as (s2 & I2 & E2).
  cbv zeta in E2.
  rewrite (@bind_ok S3.service _ _ _ _ _ _ _ E2) in Hrun.
  destruct S1 as [Hc Hd Hw Hbn Hp Hm Hr].
  change (@srv S3.service) with S3.store in *.
  change (@serve S3.service) with S3.answer in *.
  rewrite Hc, Hw, Hbn, Hd in *.
  change (cloud w0) with (cloud w) in *. change (wire w0) with (wire w) in *.
  change (disk w0) with (disk w) in *.
  change (bucket_name (self w0)) with (bucket_name (self w)) in *.
  rewrite lists_bucket_reference in Hrun.
  rewrite bool_decide_eq_false_2 in Hrun by (rewrite Hb; by intros [? ?]).
  change (negb false) with true in Hrun. cbv beta iota in Hrun.
  unfold try_except in Hrun. rewrite !(@bind_run S3.service) in Hrun.
  unfold send in Hrun. cbn [serve S3.service S3.answer cloud snd fst] in Hrun.
  change (@srv S3.service) with S3.store in *.
  rewrite Hb in Hrun.
  cbn in Hrun. injection Hrun as <- <-. eexists. split; [reflexivity|].
  cbn [self cloud disk wire].
  destruct I2 as [Ib Ip Ic Iv].
  rewrite Ib, Ip, Ic, Hbn, Hp, Hm.
  split; [by apply Iv|]. repeat (split; [done|]).
  rewrite !fmap_app, <- !app_assoc. reflexivity.
Qed.

(** X3. [create_bucket] on a service that does not hold the bucket: it asks
    for the buckets, creates the bucket and asks again - three requests -
    and returns; the service then holds the bucket, empty, beside the
    buckets it held, and [bucket_exists] answers [True]. *)
Theorem create_bucket_creates (region_tag_ : string) (w : World S3.store) :
  is_Some (assoc (region_of_tag region_tag_) NEBIUS_REGIONS) →
  S3.buckets (cloud w) !! bucket_name (self w) = None →
  let r := create_bucket region_tag_ w in
  r.1 = Ok ()
  ∧ S3.buckets (cloud r.2) = <[bucket_name (self w) := ∅]> (S3.buckets (cloud w))
  ∧ (wire r.2).*1
    = (wire w).*1 ++ [ListBuckets; CreateBucket (bucket_name (self w)); ListBuckets]
  ∧ (bucket_exists r.2).1 = Ok true.
Proof.
  intros Hv Hb. cbv zeta.
  destruct (create_bucket_run region_tag_ w Hv Hb)
    as (w' & E & Hv' & Hbn & _ & _ & _ & Hc & Hw).
  rewrite E. cbn [fst snd]. split; [done|]. split; [by rewrite Hc|].
  split; [exact Hw|].
  destruct (@bucket_exists_same S3.service w' Hv') as (s' & _ & E').
  cbv zeta in E'. rewrite E'. cbn [fst]. f_equal.
  change (@serve S3.service) with S3.answer. rewrite lists_bucket_reference.
  apply bool_decide_eq_true_2. rewrite Hc, Hbn. cbn. rewrite lookup_insert_eq. by eexists.
Qed.

(** X7. [delete_bucket] for a bucket the service does not hold: the first
    listing fails, its error is raised, and nothing else is sent; the
    service is as before. *)
Theorem delete_bucket_missing (w : World S3.store) :
  region_valid (self w) = true →
  S3.buckets (cloud w) !! bucket_name (self w) = None →
  let r := delete_bucket w in
  r.1 = Raise (ClientError (Some "NoSuchBucket"))
  ∧ cloud r.2 = cloud w
  ∧ (wire r.2).*1
    = (wire w).*1 ++ [ListObjectsV2 (bucket_name (self w)) "" (requester_pays (self w))].
Proof.
  intros Hv Hb. cbv zeta.
  destruct (@delete_bucket S3.service w) as [o wf] eqn:Hrun.
  unfold delete_bucket, list_objects in Hrun.
  destruct (@s3_client_ok S3.service w Hv) as (c & w1 & E & [Hc Hd Hw Hbn Hp Hm Hr]).
  rewrite (@bind_run S3.service) in Hrun.
  rewrite (@bind_ok S3.service _ _ _ _ _ _ _ E) in Hrun.
  rewrite (@bind_run S3.service) in Hrun. unfold get_self at 1 in Hrun.
  cbv beta iota in Hrun.
  rewrite (@bind_run S3.service) in Hrun.
  unfold send at 1 in Hrun. cbn [serve S3.service S3.answer] in Hrun.
  change (@srv S3.service) with S3.store in *.
  rewrite Hbn, Hc, Hb, Hp, Hw in Hrun. cbn in Hrun. injection Hrun as <- <-.
  cbn. by rewrite fmap_app.
Qed.

Lemma utc_aware_idemp (d : datetime) : utc_aware (utc_aware d) = utc_aware d.
Proof. by destruct d as [t [tz|]]. Qed.

Lemma list_objects_prefix_run (prefix : string) (w : World S3.store) objs :
  region_valid (self w) = true →
  S3.buckets (cloud w) !! bucket_name (self w) = Some objs →
  ∃ w',
    list_objects prefix None w
    = (Ok ((λ ko, listed_object (bucket_name (self w)) ko.1 ko.2)
             <$> filter (λ ko, String.prefix prefix ko.1 = true) (map_to_list objs)), w')
    ∧ same_instance (self w) (self w') ∧ disk w' = disk w ∧ cloud w' = cloud w.
Proof.
  intros Hv Hb. destruct (@s3_client_ok S3.service w Hv) as (c & w1 & E & S1).
  pose proof (@settled_same S3.service _ _ S1) as I1.
  destruct S1 as [Hc Hd Hw Hbn Hp Hm Hr].
  unfold list_objects. rewrite (bind_ok _ _ _ _ _ E).
  rewrite bind_run. unfold get_self at 1. cbv beta iota.
  rewrite bind_run. unfold send. cbn [serve S3.service S3.answer].
  change (@srv S3.service) with S3.store in *.
  rewrite Hbn, Hc, Hb. cbv beta iota zeta.
  match goal with |- context [mret (?f <$> (S3.summary <$> ?l))] =>
    assert (Hl : f <$> (S3.summary <$> l)
                 = (λ ko, listed_object (bucket_name (self w)) ko.1 ko.2) <$> l)
  end.
  { rewrite <- list_fmap_compose. apply list_fmap_ext. intros i [k o] _.
    unfold compose, mkObjectStoreObject, listed_object, S3.summary. cbn.
    by rewrite utc_aware_idemp. }
  rewrite Hl. eexists. split; [reflexivity|]. done.
Qed.

(** X4. [list_objects] on a service that holds the bucket returns one record
    for each object whose key starts with the prefix, and no other: each
    key once, with the size of the object, provider ["nebius"], the name
    of the bucket and a timezone-aware timestamp, so that every record
    counts as existing. The service is left as it was. *)
Theorem list_objects_lists_prefix (prefix : string) (w : World S3.store)
    (objs : gmap string S3.object) :
  region_valid (self w) = true →
  S3.buckets (cloud w) !! bucket_name (self w) = Some objs →
  ∃ l,
    (list_objects prefix None w).1 = Ok l
    ∧ cloud (list_objects prefix None w).2 = cloud w
    ∧ NoDup (key <$> l)
    ∧ (∀ o, o ∈ l ↔
            ∃ k obj, objs !! k = Some obj ∧ String.prefix prefix k = true
                     ∧ o = listed_object (bucket_name (self w)) k obj)
    ∧ Forall (λ o, object_exists o = true
                   ∧ ∃ d tz, last_modified o = Some d ∧ tzinfo d = Some tz) l.
Proof.
  intros Hv Hb.
  destruct (list_objects_prefix_run prefix w objs Hv Hb) as (w' & E & _ & _ & Hc).
  eexists. rewrite E. cbn [fst snd]. split; [reflexivity|]. split; [exact Hc|].
  split; [|split].
  - rewrite <- list_fmap_compose.
    apply (NoDup_fmap_2_strong _).
    + intros [k1 o1] [k2 o2] [_ H1]%list_elem_of_filter [_ H2]%list_elem_of_filter.
      cbn. intros <-. apply elem_of_map_to_list in H1, H2. congruence.
    + apply NoDup_filter, NoDup_map_to_list.
  - intros o. rewrite list_elem_of_fmap. split.
    + intros ([k obj] & -> & [Hp Hin]%list_elem_of_filter).
      apply elem_of_map_to_list in Hin. by exists k, obj.
    + intros (k & obj & Hk & Hp & ->). exists (k, obj). split; [done|].
      apply list_elem_of_filter. split; [done|]. by apply elem_of_map_to_list.
  - apply Forall_fmap, Forall_forall. intros [k obj] _. cbn. split; [done|].
    destruct (S3.modified obj) as [t [tz|]]; cbn; by eexists _, _.
Qed.

Lemma head_reference (b k : string) (s : S3.store) :
  answered (S3.answer (HeadObject b k) s).1
  = bool_decide (is_Some (S3.buckets s !! b ≫= (.!! k))).
Proof.
  cbn [S3.answer]. destruct (S3.buckets s !! b ≫= (.!! k)) as [o|]; cbn [fst answered].
  - symmetry. apply bool_decide_eq_true_2. by eexists.
  - symmetry. apply bool_decide_eq_false_2. by intros [? ?].
Qed.

(** X6. After [delete_objects] the keys it was given are gone, whether they
    named an object or not: [exists] answers [False] and [get_object] and
    [get_obj_size] raise [NoSuchObjectException] for each of them; the
    other objects of the bucket are as before. *)
Theorem deleted_objects_are_gone (keys : list string) (k : string)
    (w : World S3.store) (objs : gmap string S3.object) :
  region_valid (self w) = true →
  S3.buckets (cloud w) !! bucket_name (self w) = Some objs →
  let w' := (delete_objects keys w).2 in
  (exists_ k w').1 = Ok (bool_decide ((k ∉ keys) ∧ is_Some (objs !! k)))
  ∧ (k ∈ keys →
     (get_object k w').1 = Raise NoSuchObjectException
     ∧ (get_obj_size k w').1 = Raise NoSuchObjectException)
  ∧ (k ∉ keys → ∀ o, objs !! k = Some o →
     (get_object k w').1 = Ok (S3.body o)
     ∧ (get_obj_size k w').1 = Ok (length (S3.body o))).
Proof.
  intros Hv Hb. cbv zeta.
  destruct (delete_objects_run keys w objs Hv Hb)
    as (bs & w' & objs' & _ & E & I & _ & _ & Hc & Hl).
  rewrite E. cbn [snd].
  assert (Hv' : region_valid (self w') = true) by (by apply (same_valid _ _ I)).
  assert (Hk : S3.buckets (cloud w') !! bucket_name (self w') ≫= (.!! k)
               = if decide (k ∈ keys) then None else objs !! k).
  { rewrite Hc, (same_bucket _ _ I). cbn. rewrite lookup_insert_eq. cbn. apply Hl. }
  destruct (@exists_run S3.service k w' Hv') as (s1 & _ & E1).
  destruct (@get_object_run S3.service k w' Hv') as (s2 & _ & E2).
  destruct (@get_obj_size_run S3.service k w' Hv') as (s3 & _ & E3).
  cbv zeta in E1, E2, E3. rewrite E1, E2, E3. cbn [fst].
  change (@serve S3.service) with S3.answer. rewrite head_reference.
  cbn [S3.answer]. change (@srv S3.service) with S3.store in *. rewrite Hk.
  destruct (decide (k ∈ keys)) as [Hin|Hnin].
  - split; [|split]; [|done|done].
    f_equal. apply bool_decide_ext. split; [by intros [? ?] | by intros [? _]].
  - split; [|split]; [|done|].
    + f_equal. apply bool_decide_ext. tauto.
    + intros _ o Ho. rewrite Ho. done.
Qed.

(** X13. What [upload_object] has stored is there: after it has returned,
    [exists] answers [True] for the key, [get_obj_size] returns the length
    of the file and [get_object] its bytes; the other keys of the bucket
    are as before. *)
Theorem uploaded_object_is_visible (B : list byte) (local_path K K' : string)
    (w : World S3.store) :
  region_valid (self w) = true →
  is_Some (S3.buckets (cloud w) !! bucket_name (self w)) →
  disk w !! local_path = Some B →
  let w' := (upload_object local_path K w).2 in
  (exists_ K w').1 = Ok true
  ∧ (get_obj_size K w').1 = Ok (length B)
  ∧ (get_object K w').1 = Ok B
  ∧ (K' ≠ K → (exists_ K' w').1 = (exists_ K' w).1
              ∧ (get_object K' w').1 = (get_object K' w).1).
Proof.
  intros Hv Hb Hf. cbv zeta.
  destruct (upload_object_run local_path K B w Hv Hb Hf) as (w' & E & I & _ & Hc & _).
  rewrite E. cbn [snd].
  assert (Hv' : region_valid (self w') = true) by (by apply (same_valid _ _ I)).
  assert (Hk : ∀ k, S3.buckets (cloud w') !! bucket_name (self w') ≫= (.!! k)
               = if decide (k = K)
                 then Some {| S3.body := B; S3.content_type := "binary/octet-stream";
                              S3.modified := S3.now (cloud w) |}
                 else S3.buckets (cloud w) !! bucket_name (self w) ≫= (.!! k)).
  { intros k. rewrite Hc, (same_bucket _ _ I). unfold S3.put. cbn.
    rewrite lookup_insert_eq. cbn. destruct Hb as [objs Hb]. rewrite Hb. cbn.
    destruct (decide (k = K)) as [->|Hne].
    - apply lookup_insert_eq.
    - rewrite lookup_insert_ne by (by intros ->). done. }
  destruct (@exists_run S3.service K w' Hv') as (s1 & _ & E1).
  destruct (@get_object_run S3.service K w' Hv') as (s2 & _ & E2).
  destruct (@get_obj_size_run S3.service K w' Hv') as (s3 & _ & E3).
  destruct (@exists_run S3.service K' w' Hv') as (s4 & _ & E4).
  destruct (@get_object_run S3.service K' w' Hv') as (s5 & _ & E5).
  destruct (@exists_run S3.service K' w Hv) as (s6 & _ & E6).
  destruct (@get_object_run S3.service K' w Hv) as (s7 & _ & E7).
  cbv zeta in E1, E2, E3, E4, E5, E6, E7. rewrite E1, E2, E3, E4, E5, E6, E7.
  cbn [fst].
  change (@serve S3.service) with S3.answer. rewrite !head_reference.
  cbn [S3.answer]. change (@srv S3.service) with S3.store in *. rewrite !Hk.
  rewrite decide_True by done.
  destruct (decide (K' = K)) as [->|Hne]; cbn;
    (split; [done|]); (split; [done|]); (split; [done|]); intros ?; [done|].
  by destruct (S3.buckets (cloud w) !! bucket_name (self w) ≫= (.!! K')).
Qed.

(** X20. A download of a range that starts inside the object writes exactly
    the bytes of the range that the object has - [size_bytes] of them, or
    fewer at the end of the object - to the start of the destination file,
    and the digest is the MD5 of those bytes. *)
Theorem range_download_reads_range (K dst : string) (o : S3.object)
    (offset_bytes size_bytes : nat) (generate_md5 : bool) (write_block_size : nat)
    (w : World S3.store) :
  region_valid (self w) = true →
  S3.buckets (cloud w) !! bucket_name (self w) ≫= (.!! K) = Some o →
  K ≠ EmptyString →
  0 < write_block_size →
  0 < size_bytes →
  offset_bytes < length (S3.body o) →
  let r := download_object K dst (Some offset_bytes) (Some size_bytes) false
             generate_md5 write_block_size w in
  let data := take size_bytes (drop offset_bytes (S3.body o)) in
  r.1 = Ok (S3.content_type o,
            if generate_md5 then Some (hashlib.md5_digest data) else None)
  ∧ disk r.2 !! dst = Some data.
Proof.
  intros Hv Ho HK Hbs Hn Hoff. cbv zeta.
  assert (Ha : truthy_int (Some offset_bytes) && negb (truthy_int (Some size_bytes))
               = false).
  { destruct size_bytes; [lia|]. cbn. by rewrite andb_false_r. }
  assert (Hr : S3.read_range (S3.body o) (range_of (Some offset_bytes) (Some size_bytes))
               = Some (take size_bytes (drop offset_bytes (S3.body o)))).
  { unfold S3.read_range, range_of.
    rewrite (proj2 (Z.ltb_ge _ _)) by lia.
    rewrite (proj2 (Z.leb_gt _ _)) by lia.
    do 3 f_equal; lia. }
  destruct (download_object_run K dst (Some offset_bytes) (Some size_bytes) false
              generate_md5 write_block_size 0 o _ w Hv Ho HK Hbs Ha Hr eq_refl)
    as (w' & E & _ & _ & Hd).
  rewrite E. cbn [fst snd]. split; [done|].
  rewrite Hd, lookup_insert_eq. unfold written. cbn [repeat app].
  by destruct (take size_bytes (drop offset_bytes (S3.body o))).
Qed.

Lemma delete_bucket_run (w : World S3.store) (objs : gmap string S3.object) :
  region_valid (self w) = true →
  S3.buckets (cloud w) !! bucket_name (self w) = Some objs →
  ∃ w',
    delete_bucket w = (Ok (), w')
    ∧ same_instance (self w) (self w') ∧ disk w' = disk w
    ∧ cloud w' = S3.with_buckets (delete (bucket_name (self w)) (S3.buckets (cloud w)))
                   (cloud w).
Proof.
  intros Hv Hb. destruct (@delete_bucket S3.service w) as [o wf] eqn:Hrun.
  unfold delete_bucket in Hrun.
  destruct (list_objects_run w objs Hv Hb) as (l & w1 & E1 & Hk & I1 & Hd1 & Hc1).
  rewrite (@bind_ok S3.service _ _ _ _ _ _ _ E1) in Hrun.
  assert (Hv1 : region_valid (self w1) = true) by (by apply (same_valid _ _ I1)).
  assert (Hb1 : S3.buckets (cloud w1) !! bucket_name (self w1) = Some objs).
  { by rewrite Hc1, (same_bucket _ _ I1). }
  destruct (for_each_delete_run (batch_generator l 1000) w1 objs Hv1 Hb1)
    as (w2 & objs2 & E2 & I2 & Hd2 & Hc2 & Hl2).
  rewrite (@bind_ok S3.service _ _ _ _ _ _ _ E2) in Hrun.
  rewrite batch_generator_concat, Hk in Hl2.
  assert (Hempty : objs2 = ∅).
  { apply map_eq. intros k. rewrite Hl2, lookup_empty.
    destruct (decide (k ∈ (map_to_list objs).*1)) as [_|Hnin]; [done|].
    destruct (objs !! k) as [ob|] eqn:Ek; [|done].
    exfalso. apply Hnin. apply list_elem_of_fmap. exists (k, ob).
    split; [done|]. by apply elem_of_map_to_list. }
  subst objs2.
  assert (Hv2 : region_valid (self w2) = true) by (by apply (same_valid _ _ I2)).
  assert (Hbn2 : bucket_name (self w2) = bucket_name (self w)).
  { rewrite (same_bucket _ _ I2). apply (same_bucket _ _ I1). }
  change (@srv S3.service) with S3.store in *.
  assert (Hb2 : S3.buckets (cloud w2) !! bucket_name (self w2) = Some ∅).
  { rewrite Hc2, Hbn2, (same_bucket _ _ I1). cbn. apply lookup_insert_eq. }
  destruct (list_objects_run w2 ∅ Hv2 Hb2) as (l3 & w3 & E3 & Hk3 & I3 & Hd3 & Hc3).
  rewrite (@bind_ok S3.service _ _ _ _ _ _ _ E3) in Hrun.
  rewrite map_to_list_empty in Hk3. apply fmap_nil_inv in Hk3. subst l3.
  cbn [length Nat.eqb] in Hrun. rewrite (@bind_run S3.service) in Hrun.
  cbn [mret M_ret] in Hrun.
  assert (Hv3 : region_valid (self w3) = true) by (by apply (same_valid _ _ I3)).
  destruct (@s3_client_ok S3.service w3 Hv3) as (c & w4 & E4 & S4).
  rewrite (@bind_ok S3.service _ _ _ _ _ _ _ E4) in Hrun.
  pose proof (@settled_same S3.service _ _ S4) as I4.
  destruct S4 as [Hc4 Hd4 Hw4 Hbn4 Hp4 Hm4 Hr4].
  rewrite (@bind_run S3.service) in Hrun. unfold get_self at 1 in Hrun.
  cbv beta iota in Hrun.
  rewrite (@bind_run S3.service) in Hrun. unfold send in Hrun.
  cbn [serve S3.service S3.answer] in Hrun.
  change (@srv S3.service) with S3.store in *.
  rewrite Hbn4, (same_bucket _ _ I3), Hbn2, Hc4, Hc3 in Hrun.
  rewrite Hbn2 in Hb2. rewrite Hb2 in Hrun.
  rewrite bool_decide_eq_true_2 in Hrun by done. cbn in Hrun.
  injection Hrun as <- <-. eexists. split; [reflexivity|].
  cbn [self disk cloud].
  split.
  { apply (same_instance_trans _ (self w3)); [|exact I4].
    apply (same_instance_trans _ (self w2)); [|exact I3].
    by apply (same_instance_trans _ (self w1)). }
  split; [congruence|].
  rewrite Hc2, Hc1, (same_bucket _ _ I1). unfold S3.with_buckets. cbn.
  by rewrite delete_insert_eq.
Qed.

Lemma exists_reference_run (k : string) (w : World S3.store) :
  region_valid (self w) = true →
  ∃ w',
    exists_ k w
    = (Ok (bool_decide (is_Some (S3.buckets (cloud w) !! bucket_name (self w)
                                   ≫= (.!! k)))), w')
    ∧ same_instance (self w) (self w') ∧ disk w' = disk w ∧ cloud w' = cloud w.
Proof.
  intros Hv. destruct (@exists_run S3.service k w Hv) as (s' & I & E).
  cbv zeta in E. eexists. split.
  { rewrite E. change (@serve S3.service) with S3.answer.
    rewrite head_reference. reflexivity. }
  split; [exact I|]. cbn [disk cloud serve S3.service S3.answer]. split; [done|].
  change (@srv S3.service) with S3.store in *.
  by destruct (S3.buckets (cloud w) !! bucket_name (self w) ≫= (.!! k)).
Qed.

Lemma get_object_reference_run (k : string) (o : S3.object) (w : World S3.store) :
  region_valid (self w) = true →
  S3.buckets (cloud w) !! bucket_name (self w) ≫= (.!! k) = Some o →
  ∃ w',
    get_object k w = (Ok (S3.body o), w')
    ∧ same_instance (self w) (self w') ∧ disk w' = disk w ∧ cloud w' = cloud w.
Proof.
  intros Hv Ho. destruct (@get_object_run S3.service k w Hv) as (s' & I & E).
  cbv zeta in E. cbn [serve S3.service S3.answer] in E.
  change (@srv S3.service) with S3.store in *. rewrite Ho in E.
  cbn [S3.read_range fst snd] in E.
  eexists. split; [exact E|]. split; [exact I|]. done.
Qed.

Lemma bucket_exists_reference_run (w : World S3.store) :
  region_valid (self w) = true →
  ∃ w',
    bucket_exists w
    = (Ok (bool_decide (is_Some (S3.buckets (cloud w) !! bucket_name (self w)))), w')
    ∧ same_instance (self w) (self w') ∧ disk w' = disk w ∧ cloud w' = cloud w.
Proof.
  intros Hv. destruct (@bucket_exists_same S3.service w Hv) as (s' & I & E).
  cbv zeta in E. eexists. split.
  { rewrite E. change (@serve S3.service) with S3.answer.
    rewrite lists_bucket_reference. reflexivity. }
  done.
Qed.

(** X25. The integration test passes on a service that answers as S3
    documents: for every bucket name the service does not hold yet and
    every content of the test file, each of its assertions holds, and it
    leaves the buckets of the service as they were and the test file
    removed. *)
Theorem integration_test_passes (bucket_name_ : string) (test_content : list byte)
    (w : World S3.store) :
  S3.buckets (cloud w) !! bucket_name_ = None →
  let r := test_nebius_basic_operations bucket_name_ test_content w in
  r.1 = Ok ()
  ∧ S3.buckets (cloud r.2) = S3.buckets (cloud w)
  ∧ disk r.2 = delete "test_file.txt" (disk w).
Proof.
  intros Hb. cbv zeta.
  set (w1 := {| self := S3.interface bucket_name_; cloud := cloud w;
                disk := <["test_file.txt" := test_content]> (disk w);
                wire := wire w |} : World S3.store).
  (* the bucket is created *)
  assert (Htag : is_Some (assoc (region_of_tag "nebius:eu-north1") NEBIUS_REGIONS))
    by (by eexists).
  destruct (create_bucket_run "nebius:eu-north1" w1 Htag Hb)
    as (w2 & E2 & Hv2 & Hbn2 & _ & _ & Hd2 & Hc2 & _).
  change (@srv S3.service) with S3.store in *.
  destruct (bucket_exists_reference_run w2 Hv2) as (w3 & E3 & I3 & Hd3 & Hc3).
  change (@srv S3.service) with S3.store in *.
  assert (Hb2 : S3.buckets (cloud w2) !! bucket_name (self w2) = Some ∅).
  { rewrite Hc2, Hbn2. cbn. apply lookup_insert_eq. }
  rewrite Hb2 in E3. rewrite bool_decide_eq_true_2 in E3 by (by eexists).
  (* the file is uploaded *)
  assert (Hv3 : region_valid (self w3) = true) by (by apply (same_valid _ _ I3)).
  assert (Hb3 : S3.buckets (cloud w3) !! bucket_name (self w3) = Some ∅).
  { by rewrite Hc3, (same_bucket _ _ I3). }
  assert (Hf3 : disk w3 !! "test_file.txt" = Some test_content).
  { rewrite Hd3, Hd2. cbn. apply lookup_insert_eq. }
  destruct (upload_object_run "test_file.txt" "test_object.txt" test_content w3 Hv3
              (ex_intro _ _ Hb3) Hf3) as (w4 & E4 & I4 & Hd4 & Hc4 & _).
  change (@srv S3.service) with S3.store in *.
  assert (Hv4 : region_valid (self w4) = true) by (by apply (same_valid _ _ I4)).
  set (o := {| S3.body := test_content; S3.content_type := "binary/octet-stream";
               S3.modified := S3.now (cloud w3) |}) in *.
  assert (Hb4 : S3.buckets (cloud w4) !! bucket_name (self w4)
                = Some {[ "test_object.txt" := o ]}).
  { rewrite Hc4, (same_bucket _ _ I4). unfold S3.put. cbn.
    rewrite lookup_insert_eq. by rewrite Hb3. }
  destruct (exists_reference_run "test_object.txt" w4 Hv4) as (w5 & E5 & I5 & Hd5 & Hc5).
  change (@srv S3.service) with S3.store in *.
  rewrite Hb4 in E5. cbn [mbind option_bind] in E5.
  rewrite lookup_singleton_eq in E5.
  rewrite bool_decide_eq_true_2 in E5 by (by eexists).
  assert (Hv5 : region_valid (self w5) = true) by (by apply (same_valid _ _ I5)).
  assert (Hb5 : S3.buckets (cloud w5) !! bucket_name (self w5)
                = Some {[ "test_object.txt" := o ]}).
  { by rewrite Hc5, (same_bucket _ _ I5). }
  assert (Ho5 : S3.buckets (cloud w5) !! bucket_name (self w5)
                  ≫= (.!! "test_object.txt") = Some o).
  { rewrite Hb5. cbn. apply lookup_singleton_eq. }
  destruct (get_object_reference_run "test_object.txt" o w5 Hv5 Ho5)
    as (w6 & E6 & I6 & Hd6 & Hc6).
  change (@srv S3.service) with S3.store in *.
  (* the object is deleted *)
  assert (Hv6 : region_valid (self w6) = true) by (by apply (same_valid _ _ I6)).
  assert (Hb6 : S3.buckets (cloud w6) !! bucket_name (self w6)
                = Some {[ "test_object.txt" := o ]}).
  { by rewrite Hc6, (same_bucket _ _ I6). }
  destruct (delete_objects_run ["test_object.txt"] w6 _ Hv6 Hb6)
    as (bs & w7 & objs7 & _ & E7 & I7 & Hd7 & _ & Hc7 & Hl7).
  change (@srv S3.service) with S3.store in *.
  assert (Hv7 : region_valid (self w7) = true) by (by apply (same_valid _ _ I7)).
  assert (Hb7 : S3.buckets (cloud w7) !! bucket_name (self w7) = Some objs7).
  { rewrite Hc7, (same_bucket _ _ I7). cbn. apply lookup_insert_eq. }
  destruct (exists_reference_run "test_object.txt" w7 Hv7) as (w8 & E8 & I8 & Hd8 & Hc8).
  change (@srv S3.service) with S3.store in *.
  rewrite Hb7 in E8. cbn [mbind option_bind] in E8. rewrite Hl7 in E8.
  rewrite decide_True in E8 by (apply list_elem_of_singleton; reflexivity).
  rewrite bool_decide_eq_false_2 in E8 by (by intros [? ?]).
  (* the bucket is deleted *)
  assert (Hv8 : region_valid (self w8) = true) by (by apply (same_valid _ _ I8)).
  assert (Hb8 : S3.buckets (cloud w8) !! bucket_name (self w8) = Some objs7).
  { by rewrite Hc8, (same_bucket _ _ I8). }
  destruct (delete_bucket_run w8 objs7 Hv8 Hb8) as (w9 & E9 & I9 & Hd9 & Hc9).
  change (@srv S3.service) with S3.store in *.
  assert (Hv9 : region_valid (self w9) = true) by (by apply (same_valid _ _ I9)).
  destruct (@s3_client_ok S3.service w9 Hv9) as (c & w10 & E10 & S10).
  change (@srv S3.service) with S3.store in *.
  destruct S10 as [Hc10 Hd10 Hw10 Hbn10 Hp10 Hm10 Hr10].
  change (@srv S3.service) with S3.store in *.
  assert (Hbk : S3.buckets (cloud w10) = S3.buckets (cloud w)).
  { rewrite Hc10, Hc9, Hc8, Hc7, Hc6, Hc5, Hc4, Hc3, Hc2.
    rewrite (same_bucket _ _ I8), (same_bucket _ _ I7), (same_bucket _ _ I6),
      (same_bucket _ _ I5), (same_bucket _ _ I4), (same_bucket _ _ I3), Hbn2.
    cbn. rewrite !insert_insert_eq. rewrite delete_insert_eq.
    by apply delete_id. }
  assert (Hdk : disk w10 = <["test_file.txt" := test_content]> (disk w)).
  { rewrite Hd10, Hd9, Hd8, Hd7, Hd6, Hd5, Hd4, Hd3, Hd2. reflexivity. }
  destruct (@test_nebius_basic_operations S3.service bucket_name_ test_content w)
    as [out wf] eqn:Hrun.
  unfold test_nebius_basic_operations, try_finally in Hrun.
  rewrite (@bind_run S3.service) in Hrun. unfold set_self at 1 in Hrun.
  cbv beta iota in Hrun.
  rewrite (@bind_run S3.service) in Hrun. unfold write_disk at 1 in Hrun.
  cbv beta iota in Hrun. cbn [self cloud disk wire] in Hrun. fold w1 in Hrun.
  rewrite (@bind_ok S3.service _ _ _ _ _ _ _ E2) in Hrun.
  rewrite (@bind_ok S3.service _ _ _ _ _ _ _ E3) in Hrun.
  cbn [assert] in Hrun. rewrite (@bind_run S3.service) in Hrun.
  cbn [mret M_ret] in Hrun.
  cbn [call_upload_object] in Hrun.
  rewrite (@bind_ok S3.service _ _ _ _ _ _ _ E4) in Hrun.
  rewrite (@bind_ok S3.service _ _ _ _ _ _ _ E5) in Hrun.
  cbn [assert] in Hrun. rewrite (@bind_run S3.service) in Hrun.
  cbn [mret M_ret] in Hrun.
  rewrite (@bind_ok S3.service _ _ _ _ _ _ _ E6) in Hrun.
  rewrite bool_decide_eq_true_2 in Hrun by reflexivity.
  cbn [assert] in Hrun. rewrite (@bind_run S3.service) in Hrun.
  cbn [mret M_ret] in Hrun.
  rewrite (@bind_ok S3.service _ _ _ _ _ _ _ E7) in Hrun.
  rewrite (@bind_ok S3.service _ _ _ _ _ _ _ E8) in Hrun.
  cbn [assert negb] in Hrun. rewrite (@bind_run S3.service) in Hrun.
  cbn [mret M_ret] in Hrun.
  rewrite (@bind_ok S3.service _ _ _ _ _ _ _ E9) in Hrun.
  rewrite (@bind_ok S3.service _ _ _ _ _ _ _ E10) in Hrun.
  rewrite (@bind_run S3.service) in Hrun. unfold send at 1 in Hrun.
  cbn [serve S3.service S3.answer] in Hrun. cbv beta iota zeta in Hrun.
  change (@srv S3.service) with S3.store in *.
  rewrite (bool_decide_eq_false_2 (bucket_name_ ∈ _)) in Hrun.
  2:{ rewrite list_elem_of_fmap. intros ([k objs] & Hk & Hin). cbn in Hk. subst k.
      apply elem_of_map_to_list in Hin. rewrite Hbk in Hin. congruence. }
  cbn [negb assert mret M_ret] in Hrun.
  rewrite (@bind_run S3.service) in Hrun. unfold read_disk at 1 in Hrun.
  cbv beta iota in Hrun. cbn [disk] in Hrun.
  change (@srv S3.service) with S3.store in *.
  rewrite Hdk in Hrun. rewrite lookup_insert_eq in Hrun.
  unfold remove in Hrun. cbn [disk] in Hrun. rewrite lookup_insert_eq in Hrun.
  injection Hrun as <- <-. cbn [fst snd cloud disk].
  split; [done|]. split; [exact Hbk|].
  apply delete_insert_eq.
Qed.

(** ** The runs of [delete_bucket] *)





Section Drain.
Context `{Backend}.





Lemma answered_batches_snoc (b : string) (batches : list (list string))
    (answers : list response) (batch : list string) (a : response) :
  length answers = length batches →
  answered_batches b (batches ++ [batch]) (answers ++ [a])
  = answered_batches b batches answers ++ [(DeleteObjects b batch, Answer a)].
Proof.
  intros Hl. unfold answered_batches. by rewrite zip_with_app.
Qed.



End Drain.





(** ** The factory *)

Section Factory.
Import ObjectStoreInterface.

Lemma split_once_slash (a b : string) :
  has_slash a = false → split_once (a +:+ String "/" b) = [a; b].
Proof.
  induction a as [|c a IH]; [done|].
  change (String c a +:+ String "/" b) with (String c (a +:+ String "/" b)).
  cbn [has_slash split_once].
  destruct (Ascii.eqb c "/"); [done|]. cbn [orb]. intros Ha. by rewrite (IH Ha).
Qed.

Lemma split_once_no_slash (s : string) : has_slash s = false → split_once s = [s].
Proof.
  induction s as [|c s IH]; cbn; [done|].
  destruct (Ascii.eqb c "/"); [done|]. cbn. intros Hs. by rewrite (IH Hs).
Qed.

Lemma split_once_has_slash (s : string) :
  has_slash s = true → ∃ a b, split_once s = [a; b] ∧ s = a +:+ String "/" b
                              ∧ has_slash a = false.
Proof.
  induction s as [|c s IH]; cbn; [done|].
  destruct (Ascii.eqb_spec c "/") as [->|Hne]; cbn.
  - intros _. by exists EmptyString, s.
  - intros Hs. destruct (IH Hs) as (a & b & E & -> & Ha). rewrite E.
    exists (String c a), b. split; [done|]. split; [done|].
    cbn [has_slash]. destruct (Ascii.eqb_spec c "/"); done.
Qed.

(** From [String.prefix p s = true] for a literal [p]: the first
    characters of [s]. *)
Ltac starts_with H :=
  repeat match type of H with
  | String.prefix (String ?a ?p) ?s = true =>
      destruct s as [|? s]; [discriminate H|];
      cbn [String.prefix] in H;
      match type of H with
      | (if ?d then _ else _) = true => destruct d as [<-|]; [|discriminate H]
      end
  end.

Section Constructors.
Context {A : Type}.
Variable import : string → exn + unit.
Variable new : Interface → exn + A.

Lemma create_by_table (p : string)
    (build : string → string → exn + A) (region_tag bucket : string) :
  (p, build) ∈ providers import new →
  String.prefix p region_tag = true →
  create import new region_tag bucket = build region_tag bucket.
Proof.
  unfold providers. rewrite !elem_of_cons, elem_of_nil.
  intros Hp Hpre.
  repeat (destruct Hp as [Hp|Hp];
          [injection Hp as -> ->; starts_with Hpre; by destruct region_tag|]).
  done.
Qed.

(** X26. The factory goes by the start of the region tag alone, and the order
    of its tests does not matter: a tag that starts with one of the
    prefixes it knows gets what is built for that prefix, whatever
    follows the prefix, and whatever the imports and the constructors do.
    In particular every tag that starts with ["nebius"] gets what
    [NebiusInterface(bucket)] makes, once its module is imported. *)
Theorem create_selects_by_prefix (p : string)
    (build : string → string → exn + A) (region_tag bucket : string) :
  (p, build) ∈ providers import new →
  String.prefix p region_tag = true →
  create import new region_tag bucket = build region_tag bucket
  ∧ (p = "nebius" →
     create import new region_tag bucket
     = (import "skyplane.obj_store.nebius_interface";; new (NebiusInterface bucket))).
Proof.
  intros Hp Hpre. split; [by apply (create_by_table p)|].
  intros ->.
  apply (create_by_table "nebius" (λ _ b, construct import new (NebiusInterface b)));
    [|done].
  unfold providers. rewrite !elem_of_cons. tauto.
Qed.

(** X27. The factory raises of its own in two cases, and [ValueError] in
    both: when the region tag starts with none of the prefixes it knows,
    before anything is imported; and when the tag is an Azure or
    Cloudflare one and the bucket holds no slash to split the account
    from the container, once the module is imported and before the
    constructor is called. In every other case it imports one module and
    calls one constructor of that module, and what the call returns or
    raises is what the factory returns or raises. *)
Theorem create_rejects (region_tag bucket : string) :
  let unknown :=
    ∀ p build, (p, build) ∈ providers import new → String.prefix p region_tag = false in
  let unsplit :=
    (String.prefix "azure" region_tag = true
     ∨ String.prefix "cloudflare" region_tag = true)
    ∧ has_slash bucket = false in
  (unknown → create import new region_tag bucket = inl ValueError)
  ∧ (unsplit →
     create import new region_tag bucket
     = (import (if String.prefix "azure" region_tag
                then "skyplane.obj_store.azure_blob_interface"
                else "skyplane.obj_store.r2_interface");;
        inl ValueError))
  ∧ (¬ unknown → ¬ unsplit →
     ∃ call, create import new region_tag bucket = construct import new call).
Proof.
  cbv zeta.
  assert (Hin : ∀ p build, (p, build) ∈ providers import new →
            String.prefix p region_tag = true →
            create import new region_tag bucket = build region_tag bucket).
  { intros p build. apply create_by_table. }
  assert (Hazure : String.prefix "cloudflare" region_tag = true →
            String.prefix "azure" region_tag = false).
  { intros Hp. starts_with Hp. reflexivity. }
  split; [|split].
  - intros Hnone. unfold create.
    repeat match goal with
    | |- context [String.prefix ?p region_tag] =>
        let H := fresh in
        assert (H : String.prefix p region_tag = false)
          by (eapply Hnone; unfold providers;
              repeat first [apply list_elem_of_here | apply list_elem_of_further]);
        rewrite H; clear H
    end.
    reflexivity.
  - intros [[Hp|Hp] Hs].
    + rewrite Hp.
      rewrite (Hin "azure" (λ _ bucket,
                 import "skyplane.obj_store.azure_blob_interface";;
                 unpack2 (split_once bucket) (λ a c, new (AzureBlobInterface a c))));
        [| unfold providers; rewrite !elem_of_cons; tauto | done].
      by rewrite (split_once_no_slash bucket Hs).
    + rewrite (Hazure Hp).
      rewrite (Hin "cloudflare" (λ _ bucket,
                 import "skyplane.obj_store.r2_interface";;
                 unpack2 (split_once bucket) (λ a b, new (R2Interface a b))));
        [| unfold providers; rewrite !elem_of_cons; tauto | done].
      by rewrite (split_once_no_slash bucket Hs).
  - intros Hknown Hsplit.
    assert (Hslash : String.prefix "azure" region_tag = true
                     ∨ String.prefix "cloudflare" region_tag = true →
              ∃ a b, split_once bucket = [a; b]).
    { intros Hp. destruct (has_slash bucket) eqn:Hs.
      - destruct (split_once_has_slash bucket Hs) as (a & b & E & _). by exists a, b.
      - destruct Hsplit. by split. }
    unfold create, construct.
    destruct (String.prefix "aws" region_tag) eqn:H1; [by eexists (S3Interface _)|].
    destruct (String.prefix "gcp" region_tag) eqn:H2; [by eexists (GCSInterface _)|].
    destruct (String.prefix "azure" region_tag) eqn:H3.
    { destruct Hslash as (a & b & ->); [by left|]. by exists (AzureBlobInterface a b). }
    destruct (String.prefix "ibmcloud" region_tag) eqn:H4; [by eexists (COSInterface _ _)|].
    destruct (String.prefix "hdfs" region_tag) eqn:H5; [by eexists (HDFSInterface _)|].
    destruct (String.prefix "scp" region_tag) eqn:H6; [by eexists (SCPInterface _)|].
    destruct (String.prefix "local" region_tag) eqn:H7; [by eexists (POSIXInterface _)|].
    destruct (String.prefix "cloudflare" region_tag) eqn:H8.
    { destruct Hslash as (a & b & ->); [by right|]. by exists (R2Interface a b). }
    destruct (String.prefix "nebius" region_tag) eqn:H9; [by eexists (NebiusInterface _)|].
    destruct Hknown. intros p build. unfold providers.
    rewrite !elem_of_cons, elem_of_nil. intros Hp.
    repeat (destruct Hp as [Hp|Hp]; [by injection Hp as -> _|]). done.
Qed.

(** X28. For an Azure or a Cloudflare tag the bucket is split at its first
    slash: what is before it is the account, and all that follows it -
    further slashes included - names the container or bucket. *)
Theorem create_splits_at_first_slash (region_tag account rest : string) :
  has_slash account = false →
  String.prefix "azure" region_tag = true
  ∨ String.prefix "cloudflare" region_tag = true →
  create import new region_tag (account +:+ String "/" rest)
  = construct import new
      (if String.prefix "azure" region_tag
       then AzureBlobInterface account rest
       else R2Interface account rest).
Proof.
  intros Ha [Hp|Hp].
  - rewrite Hp.
    rewrite (create_by_table "azure" (λ _ bucket,
               import "skyplane.obj_store.azure_blob_interface";;
               unpack2 (split_once bucket) (λ a c, new (AzureBlobInterface a c))));
      [| unfold providers; rewrite !elem_of_cons; tauto | done].
    by rewrite split_once_slash.
  - assert (Haz : String.prefix "azure" region_tag = false).
    { starts_with Hp. reflexivity. }
    rewrite Haz.
    rewrite (create_by_table "cloudflare" (λ _ bucket,
               import "skyplane.obj_store.r2_interface";;
               unpack2 (split_once bucket) (λ a b, new (R2Interface a b))));
      [| unfold providers; rewrite !elem_of_cons; tauto | done].
    by rewrite split_once_slash.
Qed.

End Constructors.
End Factory.

(** ** Credentials *)

Section Authentication.
Import NebiusS3Authentication.

Lemma truthy_get (d : dict) (k : string) :
  truthy_str (get d k) = true →
  ∃ a v, d !! k = Some (Some (String a v)).
Proof.
  unfold get. destruct (d !! k) as [[[|a v]|]|]; cbn; try done. by eexists _, _.
Qed.

(** X29. An authentication object exists only with both keys: the
    constructor raises [ValueError] unless the access key and the secret
    key are there and not empty, and for an object it has built
    [get_boto3_client] never fails on a missing key: the session gets
    those two keys, and the region that was passed when one was passed -
    as [_s3_client] does for every region of [NEBIUS_REGIONS] - and the
    region of the credentials otherwise. *)
Theorem authentication_needs_both_keys (c : option dict) (region : option string) :
  match __init__ c with
  | inl e =>
      e = ValueError
      ∧ (truthy_str (get (default ∅ c) "access_key_id") = false
         ∨ truthy_str (get (default ∅ c) "secret_access_key") = false)
  | inr auth =>
      credentials auth = default ∅ c
      ∧ ∃ a key b secret R,
          get_boto3_client auth region
          = inr {| aws_access_key_id := Some (String a key);
                   aws_secret_access_key := Some (String b secret);
                   region_name := R |}
          ∧ R = (if truthy_str region then region
                 else if truthy_str (get (default ∅ c) "region")
                      then get (default ∅ c) "region"
                      else region)
          ∧ (is_Some (region ≫= λ r, assoc r NEBIUS_REGIONS) → R = region)
  end.
Proof.
  unfold __init__.
  destruct (truthy_str (get (default ∅ c) "access_key_id")) eqn:Hk; cbn [negb orb];
    [|auto].
  destruct (truthy_str (get (default ∅ c) "secret_access_key")) eqn:Hs; cbn [negb];
    [|auto].
  split; [done|].
  destruct (truthy_get _ _ Hk) as (a & key & Ek).
  destruct (truthy_get _ _ Hs) as (b & secret & Es).
  exists a, key, b, secret.
  unfold get_boto3_client, item. cbn [credentials]. rewrite Ek, Es.
  destruct (truthy_str region) eqn:Hr; cbn [negb andb].
  - eexists. split; [reflexivity|]. done.
  - assert (Hno : ¬ is_Some (region ≫= λ r, assoc r NEBIUS_REGIONS)).
    { intros [url Hurl]. destruct region as [[|y r]|]; cbn in *; done. }
    destruct (truthy_str (get (default ∅ c) "region")) eqn:Hcr.
    + destruct (truthy_get _ _ Hcr) as (x & v & Ev). rewrite Ev.
      eexists. split; [reflexivity|]. unfold get. rewrite Ev. done.
    + eexists. split; [reflexivity|]. done.
Qed.

End Authentication.

(** ** Instances of the further properties *)

(** [_s3_client()] twice on a fresh instance. *)
Lemma s3_client_memoised_witness :
  let c := get_boto3_client "eu-north1" "https://storage.eu-north1.nebius.cloud" in
  let w' := (_s3_client None two_byte_world).2 in
  (_s3_client None two_byte_world).1 = Ok c
  ∧ _s3_client None w' = (Ok c, w')
  ∧ _cached_s3_clients (self w') !! "eu-north1" = Some c
  ∧ cloud w' = cloud two_byte_world ∧ disk w' = disk two_byte_world
  ∧ wire w' = wire two_byte_world.
Proof.
  assert (H1 : (_s3_client None two_byte_world).1
               = Ok (get_boto3_client "eu-north1" "https://storage.eu-north1.nebius.cloud"))
    by (vm_compute; reflexivity).
  exact (conj H1 (@s3_client_memoised S3.service None _ two_byte_world H1)).
Defined.

(** The region that the source lists as not supported yet. *)
Lemma unknown_region_rejected_witness :
  assoc "eu-west1" NEBIUS_REGIONS = None
  ∧ _s3_client (Some "eu-west1") two_byte_world = (Raise ValueError, two_byte_world)
  ∧ create_bucket "nebius:eu-west1" two_byte_world = (Raise ValueError, two_byte_world).
Proof.
  assert (H1 : assoc "eu-west1" NEBIUS_REGIONS = @None string) by reflexivity.
  destruct (@unknown_region_rejected S3.service "eu-west1" two_byte_world H1)
    as (Hc & _ & Hb).
  exact (conj H1 (conj Hc (Hb "nebius:eu-west1" eq_refl))).
Defined.

(** The object ["k"] of two bytes. *)
Lemma get_object_body_or_not_found_witness :
  region_valid (self two_byte_world) = true
  ∧ (get_object "k" two_byte_world).1 = Ok [x01; x02]
  ∧ (get_object "missing" two_byte_world).1 = Raise NoSuchObjectException.
Proof.
  assert (H1 : region_valid (self two_byte_world) = true) by reflexivity.
  split; [exact H1|]. split.
  - exact (proj1 (proj2 (@get_object_body_or_not_found S3.service "k" two_byte_world H1))).
  - exact (proj1 (proj2 (@get_object_body_or_not_found S3.service "missing"
                           two_byte_world H1))).
Defined.

Lemma download_block_size_irrelevant_witness :
  0 < 1 ∧ 0 < 2
  ∧ download_object "k" "f" None None false true 1 two_byte_world
    = download_object "k" "f" None None false true 2 two_byte_world.
Proof.
  assert (H1 : 0 < 1) by lia. assert (H2 : 0 < 2) by lia.
  exact (conj H1 (conj H2 (@download_block_size_irrelevant S3.service "k" "f" None None
                             false true 1 2 two_byte_world H1 H2))).
Defined.

Lemma download_block_size_zero_witness :
  let r := download_object "k" "f" None None false false 0 two_byte_world in
  region_valid (self two_byte_world) = true
  ∧ r.1 = Ok ("binary/octet-stream", None)
  ∧ disk r.2 = <["f" := []]> (disk two_byte_world).
Proof.
  assert (H1 : region_valid (self two_byte_world) = true) by reflexivity.
  assert (H2 : "k" ≠ EmptyString) by discriminate.
  assert (H3 : truthy_int None && negb (truthy_int None) = false) by reflexivity.
  assert (H4 : seek_target false None = Some 0) by reflexivity.
  assert (H5 : (serve (GetObject (bucket_name (self two_byte_world)) "k"
                         (range_of None None) (requester_pays (self two_byte_world)))
                  (cloud two_byte_world)).1
               = Answer (GetObjectOutput [x01; x02] "binary/octet-stream"))
    by reflexivity.
  exact (conj H1 (@download_block_size_zero S3.service "k" "f" None None false false 0
                    [x01; x02] "binary/octet-stream" two_byte_world H1 H2 H3 H4 H5)).
Defined.

Lemma empty_name_asserts_witness :
  region_valid (self two_byte_world) = true
  ∧ (download_object "" "f" None None false false 1 two_byte_world).1
    = Raise AssertionError
  ∧ (initiate_multipart_upload "" None two_byte_world).1 = Raise AssertionError.
Proof.
  assert (H1 : region_valid (self two_byte_world) = true) by reflexivity.
  destruct (@empty_name_asserts S3.service "f" None None false false 1 None
              two_byte_world H1) as [[Hd _] [Hi _]].
  exact (conj H1 (conj Hd Hi)).
Defined.

(** The file ["src"] holds three bytes before the call. *)
Lemma download_at_offset_without_offset_witness :
  let r := download_object "k" "src" None None true false 1 two_byte_world in
  region_valid (self two_byte_world) = true
  ∧ disk two_byte_world !! "src" = Some [x61; x62; x63]
  ∧ r.1 = Raise TypeError
  ∧ disk r.2 = <["src" := []]> (disk two_byte_world).
Proof.
  assert (H1 : region_valid (self two_byte_world) = true) by reflexivity.
  assert (H2 : "k" ≠ EmptyString) by discriminate.
  assert (H3 : (serve (GetObject (bucket_name (self two_byte_world)) "k" None
                         (requester_pays (self two_byte_world)))
                  (cloud two_byte_world)).1
               = Answer (GetObjectOutput [x01; x02] "binary/octet-stream"))
    by reflexivity.
  destruct (@download_at_offset_without_offset S3.service "k" "src" None false 1 _
              two_byte_world H1 H2 H3) as (Hr & _ & Hd).
  exact (conj H1 (conj eq_refl (conj Hr Hd))).
Defined.

Lemma download_failure_keeps_file_witness :
  let r := download_object "missing" "src" None None false false 1 two_byte_world in
  region_valid (self two_byte_world) = true
  ∧ r.1 = Raise (ClientError (Some "NoSuchKey"))
  ∧ disk r.2 = disk two_byte_world.
Proof.
  assert (H1 : region_valid (self two_byte_world) = true) by reflexivity.
  assert (H2 : "missing" ≠ EmptyString) by discriminate.
  assert (H3 : truthy_int None && negb (truthy_int None) = false) by reflexivity.
  assert (H4 : (serve (GetObject (bucket_name (self two_byte_world)) "missing"
                         (range_of None None) (requester_pays (self two_byte_world)))
                  (cloud two_byte_world)).1
               = Fault (ClientError (Some "NoSuchKey"))) by reflexivity.
  exact (conj H1 (@download_failure_keeps_file S3.service "missing" "src" None None
                    false false 1 _ two_byte_world H1 H2 H3 H4)).
Defined.

Lemma delete_objects_stops_at_fault_witness :
  region_valid (self new_bucket_world) = true
  ∧ ∃ (batches : list (list string)) (answers : list response),
      batched ["a"] batches ∧
      let r := delete_objects ["a"] new_bucket_world in
      let b := bucket_name (self new_bucket_world) in
      disk r.2 = disk new_bucket_world
      ∧ cloud r.2 = after_exchanges (drop (length (wire new_bucket_world)) (wire r.2))
                      (cloud new_bucket_world)
      ∧ match r.1 with
        | Ok _ =>
            length answers = length batches
            ∧ wire r.2 = wire new_bucket_world ++ answered_batches b batches answers
        | Raise e =>
            ∃ batch,
              batches !! length answers = Some batch
              ∧ wire r.2 = wire new_bucket_world ++ answered_batches b batches answers
                             ++ [(DeleteObjects b batch, Fault e)]
        | OutOfFuel => False
        end.
Proof.
  assert (H1 : region_valid (self new_bucket_world) = true) by reflexivity.
  exact (conj H1 (@delete_objects_stops_at_fault S3.service ["a"] new_bucket_world H1)).
Defined.

Lemma metadata_failures_not_cached_witness :
  let r := get_obj_metadata "missing" two_byte_world in
  region_valid (self two_byte_world) = true
  ∧ cached (key_of (self two_byte_world) "missing")
      (metadata_cache (self two_byte_world)) = None
  ∧ r.1 = Raise NoSuchObjectException
  ∧ metadata_cache (self r.2) = metadata_cache (self two_byte_world).
Proof.
  assert (H1 : region_valid (self two_byte_world) = true) by reflexivity.
  assert (H2 : cached (key_of (self two_byte_world) "missing")
                 (metadata_cache (self two_byte_world)) = None)
    by reflexivity.
  exact (conj H1 (conj H2 (proj2 (@metadata_failures_not_cached S3.service "missing"
                                    two_byte_world H1 H2)))).
Defined.

Lemma multipart_completion_terminates_witness :
  (∀ u, S3.uploads (cloud (session_world [1; 3])) !! "upload-1" = Some u →
        Forall (λ np, np.1 ≤ 3) (S3.u_parts u))
  ∧ 3 < 4 ∧ 4 ≤ 10
  ∧ (complete_multipart_upload 4 "big" "upload-1" (session_world [1; 3])).1 ≠ OutOfFuel
  ∧ complete_multipart_upload 10 "big" "upload-1" (session_world [1; 3])
    = complete_multipart_upload 4 "big" "upload-1" (session_world [1; 3]).
Proof.
  assert (H1 : ∀ u, S3.uploads (cloud (session_world [1; 3])) !! "upload-1" = Some u →
                    Forall (λ np, np.1 ≤ 3) (S3.u_parts u)).
  { intros u Hu. vm_compute in Hu. injection Hu as <-.
    repeat (apply Forall_cons; split; [cbn; lia|]). apply Forall_nil_2. }
  assert (H2 : 3 < 4) by lia. assert (H3 : 4 ≤ 10) by lia.
  exact (conj H1 (conj H2 (conj H3 (multipart_completion_terminates "big" "upload-1"
                                      3 4 10 (session_world [1; 3]) H1 H2 H3)))).
Defined.

Lemma contiguous_session_assembles_witness :
  let w := session_world [2; 1] in
  let r := complete_multipart_upload 3 "big" "upload-1" w in
  region_valid (self w) = true
  ∧ S3.uploads (cloud w) !! "upload-1" = Some two_part_session
  ∧ r.1 = Ok ()
  ∧ (∃ o, S3.buckets (cloud r.2) !! "bucket" ≫= (.!! "big") = Some o
          ∧ S3.body o = [x61; x61])
  ∧ S3.uploads (cloud r.2) !! "upload-1" = None.
Proof.
  assert (H1 : region_valid (self (session_world [2; 1])) = true) by reflexivity.
  assert (H2 : S3.uploads (cloud (session_world [2; 1])) !! "upload-1"
               = Some two_part_session) by (vm_compute; reflexivity).
  assert (H3 : S3.u_parts two_part_session ≠ []) by discriminate.
  assert (H4 : (S3.u_parts two_part_session).*1
               = seq 1 (length (S3.u_parts two_part_session))) by reflexivity.
  assert (H5 : length (S3.u_parts two_part_session) < 3) by (cbn; lia).
  exact (conj H1 (conj H2 (contiguous_session_assembles "big" "upload-1"
                             two_part_session 3 (session_world [2; 1])
                             H1 H2 H3 H4 H5))).
Defined.


Lemma create_bucket_creates_witness :
  let r := create_bucket "nebius:eu-north1" new_bucket_world in
  is_Some (assoc (region_of_tag "nebius:eu-north1") NEBIUS_REGIONS)
  ∧ S3.buckets (cloud new_bucket_world) !! "new" = None
  ∧ r.1 = Ok ()
  ∧ S3.buckets (cloud r.2) = <["new" := ∅]> (S3.buckets (cloud new_bucket_world))
  ∧ (wire r.2).*1 = [ListBuckets; CreateBucket "new"; ListBuckets]
  ∧ (bucket_exists r.2).1 = Ok true.
Proof.
  assert (H1 : is_Some (assoc (region_of_tag "nebius:eu-north1") NEBIUS_REGIONS))
    by (by eexists).
  assert (H2 : S3.buckets (cloud new_bucket_world) !! bucket_name (self new_bucket_world)
               = None) by reflexivity.
  exact (conj H1 (conj H2 (create_bucket_creates "nebius:eu-north1" new_bucket_world
                             H1 H2))).
Defined.

Lemma delete_bucket_missing_witness :
  let r := delete_bucket new_bucket_world in
  region_valid (self new_bucket_world) = true
  ∧ S3.buckets (cloud new_bucket_world) !! "new" = None
  ∧ r.1 = Raise (ClientError (Some "NoSuchBucket"))
  ∧ cloud r.2 = cloud new_bucket_world
  ∧ (wire r.2).*1 = [ListObjectsV2 "new" "" false].
Proof.
  assert (H1 : region_valid (self new_bucket_world) = true) by reflexivity.
  assert (H2 : S3.buckets (cloud new_bucket_world) !! bucket_name (self new_bucket_world)
               = None) by reflexivity.
  exact (conj H1 (conj H2 (delete_bucket_missing new_bucket_world H1 H2))).
Defined.

Lemma list_objects_lists_prefix_witness :
  region_valid (self three_object_world) = true
  ∧ S3.buckets (cloud three_object_world) !! "bucket" = Some (S3.objects_of three_objects)
  ∧ ∃ l,
      (list_objects "a" None three_object_world).1 = Ok l
      ∧ cloud (list_objects "a" None three_object_world).2 = cloud three_object_world
      ∧ NoDup (key <$> l)
      ∧ (∀ o, o ∈ l ↔
              ∃ k obj, S3.objects_of three_objects !! k = Some obj
                       ∧ String.prefix "a" k = true
                       ∧ o = listed_object "bucket" k obj)
      ∧ Forall (λ o, object_exists o = true
                     ∧ ∃ d tz, last_modified o = Some d ∧ tzinfo d = Some tz) l.
Proof.
  assert (H1 : region_valid (self three_object_world) = true) by reflexivity.
  assert (H2 : S3.buckets (cloud three_object_world)
                 !! bucket_name (self three_object_world)
               = Some (S3.objects_of three_objects)) by reflexivity.
  exact (conj H1 (conj H2 (list_objects_lists_prefix "a" three_object_world _ H1 H2))).
Defined.

Lemma deleted_objects_are_gone_witness :
  let w' := (delete_objects ["a"; "zzz"] three_object_world).2 in
  region_valid (self three_object_world) = true
  ∧ S3.buckets (cloud three_object_world) !! "bucket" = Some (S3.objects_of three_objects)
  ∧ (get_object "a" w').1 = Raise NoSuchObjectException
  ∧ (get_obj_size "a" w').1 = Raise NoSuchObjectException.
Proof.
  assert (H1 : region_valid (self three_object_world) = true) by reflexivity.
  assert (H2 : S3.buckets (cloud three_object_world)
                 !! bucket_name (self three_object_world)
               = Some (S3.objects_of three_objects)) by reflexivity.
  destruct (deleted_objects_are_gone ["a"; "zzz"] "a" three_object_world _ H1 H2)
    as (_ & Hin & _).
  split; [exact H1|]. split; [exact H2|]. apply Hin.
  apply list_elem_of_here.
Defined.

Lemma uploaded_object_is_visible_witness :
  let w' := (upload_object "src" "copy" two_byte_world).2 in
  region_valid (self two_byte_world) = true
  ∧ is_Some (S3.buckets (cloud two_byte_world) !! "bucket")
  ∧ disk two_byte_world !! "src" = Some [x61; x62; x63]
  ∧ (exists_ "copy" w').1 = Ok true
  ∧ (get_obj_size "copy" w').1 = Ok 3
  ∧ (get_object "copy" w').1 = Ok [x61; x62; x63]
  ∧ (get_object "k" w').1 = (get_object "k" two_byte_world).1.
Proof.
  assert (H1 : region_valid (self two_byte_world) = true) by reflexivity.
  assert (H2 : is_Some (S3.buckets (cloud two_byte_world)
                          !! bucket_name (self two_byte_world))) by (by eexists).
  assert (H3 : disk two_byte_world !! "src" = Some [x61; x62; x63]) by reflexivity.
  destruct (uploaded_object_is_visible [x61; x62; x63] "src" "copy" "k" two_byte_world
              H1 H2 H3) as (He & Hs & Hg & Ho).
  split; [exact H1|]. split; [exact H2|]. split; [exact H3|].
  split; [exact He|]. split; [exact Hs|]. split; [exact Hg|].
  apply Ho. discriminate.
Defined.

(** The second byte of the object ["k"]. *)
Lemma range_download_reads_range_witness :
  let r := download_object "k" "f" (Some 1) (Some 5) false false 1 two_byte_world in
  region_valid (self two_byte_world) = true
  ∧ S3.buckets (cloud two_byte_world) !! "bucket" ≫= (.!! "k")
    = Some {| S3.body := [x01; x02]; S3.content_type := "binary/octet-stream";
              S3.modified := Datetime 0 (Some "UTC") |}
  ∧ r.1 = Ok ("binary/octet-stream", None)
  ∧ disk r.2 !! "f" = Some [x02].
Proof.
  assert (H1 : region_valid (self two_byte_world) = true) by reflexivity.
  assert (H2 : S3.buckets (cloud two_byte_world) !! bucket_name (self two_byte_world)
                 ≫= (.!! "k")
               = Some {| S3.body := [x01; x02]; S3.content_type := "binary/octet-stream";
                         S3.modified := Datetime 0 (Some "UTC") |}) by reflexivity.
  assert (H3 : "k" ≠ EmptyString) by discriminate.
  assert (H4 : 0 < 1) by lia.
  assert (H5 : 0 < 5) by lia.
  assert (H6 : 1 < length [x01; x02]) by (cbn; lia).
  exact (conj H1 (conj H2 (range_download_reads_range "k" "f" _ 1 5 false 1
                             two_byte_world H1 H2 H3 H4 H5 H6))).
Defined.

(** The test as it is written: the content ["Hello Nebius!"], on a
    service that holds another bucket. *)
Lemma integration_test_passes_witness :
  let hello := [x48; x65; x6c; x6c; x6f; x20; x4e; x65; x62; x69; x75; x73; x21] in
  let r := test_nebius_basic_operations "test-skyplane" hello two_byte_world in
  S3.buckets (cloud two_byte_world) !! "test-skyplane" = None
  ∧ r.1 = Ok ()
  ∧ S3.buckets (cloud r.2) = S3.buckets (cloud two_byte_world)
  ∧ disk r.2 = delete "test_file.txt" (disk two_byte_world).
Proof.
  assert (H1 : S3.buckets (cloud two_byte_world) !! "test-skyplane" = None)
    by reflexivity.
  exact (conj H1 (integration_test_passes "test-skyplane" _ two_byte_world H1)).
Defined.

(** Every module is there and every constructor returns the call it is
    given. *)
Lemma create_selects_by_prefix_witness :
  let import := λ _ : string, inr () in
  let new := λ call : ObjectStoreInterface.Interface, inr call in
  ("nebius", λ _ bucket,
     ObjectStoreInterface.construct import new (ObjectStoreInterface.NebiusInterface bucket))
    ∈ ObjectStoreInterface.providers import new
  ∧ String.prefix "nebius" "nebius:eu-north1" = true
  ∧ ObjectStoreInterface.create import new "nebius:eu-north1" "bucket"
    = inr (ObjectStoreInterface.NebiusInterface "bucket").
Proof.
  cbv zeta.
  assert (H1 : ("nebius", λ _ bucket,
                  ObjectStoreInterface.construct (λ _, inr ()) inr
                    (ObjectStoreInterface.NebiusInterface bucket))
                 ∈ ObjectStoreInterface.providers (λ _, inr ()) inr).
  { unfold ObjectStoreInterface.providers.
    repeat first [apply list_elem_of_here | apply list_elem_of_further]. }
  assert (H2 : String.prefix "nebius" "nebius:eu-north1" = true) by reflexivity.
  exact (conj H1 (conj H2 (proj1 (create_selects_by_prefix (λ _, inr ()) inr "nebius" _
                                     "nebius:eu-north1" "bucket" H1 H2)))).
Defined.

(** A process in which the import of the module of the Azure class fails. *)
Lemma create_rejects_witness :
  let import := λ m, if String.eqb m "skyplane.obj_store.azure_blob_interface"
                     then inl Exception else inr () in
  let new := λ call : ObjectStoreInterface.Interface, inr call in
  ObjectStoreInterface.create import new "oracle:eu" "bucket" = inl ValueError
  ∧ ObjectStoreInterface.create import new "cloudflare:auto" "bucket" = inl ValueError
  ∧ ObjectStoreInterface.create import new "azure:westus" "bucket" = inl Exception
  ∧ ObjectStoreInterface.create import new "nebius:eu-north1" "bucket"
    = inr (ObjectStoreInterface.NebiusInterface "bucket").
Proof.
  cbv zeta.
  pose proof (λ t b, create_rejects
                (λ m, if String.eqb m "skyplane.obj_store.azure_blob_interface"
                      then inl Exception else inr ())
                (λ call : ObjectStoreInterface.Interface, inr call) t b) as R.
  cbv zeta in R.
  split.
  { destruct (R "oracle:eu" "bucket") as (R1 & _). apply R1. intros p build.
    unfold ObjectStoreInterface.providers. rewrite !elem_of_cons, elem_of_nil.
    intros Hp. repeat (destruct Hp as [Hp|Hp]; [by injection Hp as -> _|]). done. }
  split.
  { destruct (R "cloudflare:auto" "bucket") as (_ & R2 & _).
    rewrite R2; [reflexivity|]. split; [by right | reflexivity]. }
  split.
  { destruct (R "azure:westus" "bucket") as (_ & R2 & _).
    rewrite R2; [reflexivity|]. split; [by left | reflexivity]. }
  reflexivity.
Defined.

Lemma create_splits_at_first_slash_witness :
  let import := λ _ : string, inr () in
  let new := λ call : ObjectStoreInterface.Interface, inr call in
  ObjectStoreInterface.has_slash "account" = false
  ∧ String.prefix "azure" "azure:westus" = true
  ∧ ObjectStoreInterface.create import new "azure:westus" "account/container/dir"
    = inr (ObjectStoreInterface.AzureBlobInterface "account" "container/dir").
Proof.
  cbv zeta.
  assert (H1 : ObjectStoreInterface.has_slash "account" = false) by reflexivity.
  assert (H2 : String.prefix "azure" "azure:westus" = true) by reflexivity.
  exact (conj H1 (conj H2 (create_splits_at_first_slash (λ _, inr ()) inr "azure:westus"
                             "account" "container/dir" H1 (or_introl H2)))).
Defined.

Lemma initiated_session_is_empty_witness :
  let r := initiate_multipart_upload "big" (Some "") two_byte_world in
  region_valid (self two_byte_world) = true
  ∧ "big" ≠ EmptyString
  ∧ is_Some (S3.buckets (cloud two_byte_world) !! "bucket")
  ∧ ∃ upload_id,
      r.1 = Ok upload_id
      ∧ S3.uploads (cloud r.2) !! upload_id
        = Some {| S3.u_bucket := "bucket"; S3.u_key := "big";
                  S3.u_content_type := None; S3.u_parts := [] |}
      ∧ S3.buckets (cloud r.2) = S3.buckets (cloud two_byte_world)
      ∧ (complete_multipart_upload 1 "big" upload_id r.2).1
        = Raise (ClientError (Some "MalformedXML")).
Proof.
  assert (H1 : region_valid (self two_byte_world) = true) by reflexivity.
  assert (H2 : "big" ≠ EmptyString) by discriminate.
  assert (H3 : is_Some (S3.buckets (cloud two_byte_world)
                          !! bucket_name (self two_byte_world))) by (by eexists).
  exact (conj H1 (conj H2 (conj H3 (initiated_session_is_empty "big" (Some "") 0
                                      two_byte_world H1 H2 H3)))).
Defined.

(** The two ranges of the object ["k"]: the general form of the first
    example. *)
Lemma range_downloads_zero_first_range_witness :
  let r := (download_object "k" "f" (Some 0) (Some 1) true false 1 ≫= λ _,
            download_object "k" "f" (Some 1) (Some 1) true false 1) two_byte_world in
  region_valid (self two_byte_world) = true
  ∧ 0 < 1 < 2
  ∧ r.1 = Ok ("binary/octet-stream", None)
  ∧ disk r.2 !! "f" = Some [x00; x02].
Proof.
  assert (H1 : region_valid (self two_byte_world) = true) by reflexivity.
  assert (H2 : S3.buckets (cloud two_byte_world) !! bucket_name (self two_byte_world)
                 ≫= (.!! "k")
               = Some {| S3.body := [x01; x02]; S3.content_type := "binary/octet-stream";
                         S3.modified := Datetime 0 (Some "UTC") |}) by reflexivity.
  assert (H3 : "k" ≠ EmptyString) by discriminate.
  assert (H4 : 0 < 1) by lia.
  assert (H5 : 0 < 1 < 2) by lia.
  exact (conj H1 (conj H5 (range_downloads_zero_first_range "k" "f" _ 1 1
                             two_byte_world H1 H2 H3 H4 H5))).
Defined.

(** A new instance: no client is cached yet. *)
Lemma s3_client_targets_endpoint_witness :
  let r := _s3_client None two_byte_world in
  clients_built_for_region (self two_byte_world)
  ∧ clients_built_for_region (self r.2)
  ∧ ∀ c, r.1 = Ok c →
         ∃ url, assoc "eu-north1" NEBIUS_REGIONS = Some url
                ∧ c = get_boto3_client "eu-north1" url.
Proof.
  assert (H1 : clients_built_for_region (self two_byte_world)).
  { intros r c Hc. unfold two_byte_world, S3.world in Hc.
    cbn [self S3.interface _cached_s3_clients] in Hc.
    rewrite lookup_empty in Hc. discriminate Hc. }
  exact (conj H1 (@s3_client_targets_endpoint S3.service None two_byte_world H1)).
Defined.

